(** * FastA2A-Agno-Llamaindex: task workers and workflow orchestrators

    A shallow embedding of the two FastA2A workers ([agno_worker.py],
    [llamaindex_worker.py]) and of the orchestrators ([orchestrate.py],
    [orchestrate_parallel.py]), followed by the properties of the
    specification that concern them.

    Python values are embedded as follows.
    - [str] is [string], holding the UTF-8 encoding of the text ([len] and
      slicing, which count characters, are in [PyStr]); an f-string is a
      concatenation with [+:+].
    - An exception is a record holding its class name, whether the class
      derives from [Exception] (the only ones [except Exception] catches) and
      the text [str(e)] returns.
    - A coroutine of the orchestrators is a finite tree [prog] whose inner
      nodes are its suspension points (the HTTP calls of [A2AClient] and
      [anyio.sleep]); the remote services are an oracle answering each call
      from the history of all calls made so far.
    - A worker hook is a function on the task store, in a state and
      exception monad. *)

From Stdlib Require Import String Ascii List Arith Lia Bool DecimalString.
From stdpp Require Import base option list gmap strings.

(** ** Python prelude *)

Module Py.

(** [chr(10)] and the double quote character. *)
Definition nl : string := String "010"%char EmptyString.
Definition dq : string := String "034"%char EmptyString.

(** [needle in haystack] on [str]. *)
Fixpoint py_in (needle haystack : string) : bool :=
  String.prefix needle haystack ||
  match haystack with
  | EmptyString => false
  | String _ rest => py_in needle rest
  end.

(** [str(n)] for a non-negative [int]. *)
Definition str_of_nat (n : nat) : string :=
  NilEmpty.string_of_uint (Nat.to_uint n).

Record exn : Type := Exn {
  exn_class : string;
  is_Exception : bool;
  exn_str : string
}.

(** [Exception(msg)] *)
Definition Exception (msg : string) : exn :=
  {| exn_class := "Exception"; is_Exception := true; exn_str := msg |}.

(** [next] on an exhausted iterator. *)
Definition StopIteration : exn :=
  {| exn_class := "StopIteration"; is_Exception := true;
     exn_str := EmptyString |}.

Definition RuntimeError (msg : string) : exn :=
  {| exn_class := "RuntimeError"; is_Exception := true; exn_str := msg |}.

(** [d[key]] on a dict without [key]: [str(KeyError(key))] is [repr(key)]. *)
Definition KeyError (key : string) : exn :=
  {| exn_class := "KeyError"; is_Exception := true;
     exn_str := "'" +:+ key +:+ "'" |}.

(** [l[0]] on an empty list. *)
Definition IndexError : exn :=
  {| exn_class := "IndexError"; is_Exception := true;
     exn_str := "list index out of range" |}.

(** What a call of an external collaborator yields: a value or an
    exception. *)
Inductive outcome (A : Type) : Type :=
| Ok (a : A)
| Err (e : exn).
Arguments Ok {A} a.
Arguments Err {A} e.

(** What running a piece of the program yields.  [Diverges] stands for a
    loop that was given too little fuel to reach its end. *)
Inductive result (A : Type) : Type :=
| Returns (a : A)
| Raises (e : exn)
| Diverges.
Arguments Returns {A} a.
Arguments Raises {A} e.
Arguments Diverges {A}.

(** A Python value that ends up in an artifact: a [str], or some other
    object, of which only [str(obj)] is kept. *)
Inductive value : Type :=
| VStr (s : string)
| VObj (display : string).

Definition py_str (v : value) : string :=
  match v with
  | VStr s => s
  | VObj d => d
  end.

(** [x] when it is not [None], and the text "None" otherwise, as an
    f-string renders an optional [str]. *)
Definition fmt_opt (x : option string) : string :=
  match x with
  | Some s => s
  | None => "None"
  end.

End Py.

Import Py.

(** ** fasta2a schema and task storage *)

Module Schema.

(** The lifecycle states of the data model.  [state_literal] is the
    lowercase literal a state is written and transmitted as. *)
Inductive TaskState : Type :=
| submitted
| working
| completed
| failed
| canceled.

Definition state_literal (s : TaskState) : string :=
  match s with
  | submitted => "submitted"
  | working => "working"
  | completed => "completed"
  | failed => "failed"
  | canceled => "canceled"
  end.

Definition terminal (s : TaskState) : bool :=
  match s with
  | completed | failed | canceled => true
  | submitted | working => false
  end.

(** A part of a request message: [{"type": ..., "text": ...}]. *)
Record TextPart : Type := {
  part_type : string;
  part_text : string
}.

(** A part of an artifact, as a worker builds it: the ["text"] entry holds
    whatever object the worker extracted. *)
Record ArtifactPart : Type := {
  apart_type : string;
  apart_text : value
}.

Record Artifact : Type := {
  art_index : nat;
  art_parts : list ArtifactPart;
  art_lastChunk : bool
}.

Record Task : Type := {
  task_input : list TextPart;
  task_state : TaskState;
  task_artifacts : list Artifact;
  task_error : option string
}.

(** The [params] dict handed to a worker hook: [params["id"]] and
    [params["message"]["parts"]]. *)
Record TaskParams : Type := {
  params_id : string;
  params_parts : list TextPart
}.

(** A task as the submitting party creates it. *)
Definition new_task (parts : list TextPart) : Task :=
  {| task_input := parts; task_state := submitted;
     task_artifacts := []; task_error := None |}.

End Schema.

Import Schema.

Module Storage.

(** One call of [storage.update_task] as a worker issues it: the task id,
    the [state] keyword and the [artifacts] keyword when it is passed. *)
Record update_call : Type := {
  call_id : string;
  call_state : TaskState;
  call_artifacts : option (list Artifact)
}.

(** The worker's view of the world: the task records by id, and the
    [update_task] calls issued so far, oldest first. *)
Record world : Type := {
  tasks : gmap string Task;
  updates : list update_call
}.

(** State and exception monad of the worker hooks. *)
Definition W (A : Type) : Type := world -> result A * world.

Definition ret {A} (a : A) : W A := fun w => (Returns a, w).

Definition raise {A} (e : exn) : W A := fun w => (Raises e, w).

Definition bind {A B} (m : W A) (k : A -> W B) : W B :=
  fun w =>
    match m w with
    | (Returns a, w') => k a w'
    | (Raises e, w') => (Raises e, w')
    | (Diverges, w') => (Diverges, w')
    end.

(** [try: body  except Exception as e: handler(e)] *)
Definition try_except {A} (body : W A) (handler : exn -> W A) : W A :=
  fun w =>
    match body w with
    | (Raises e, w') =>
        if is_Exception e then handler e w' else (Raises e, w')
    | other => other
    end.

(** [await] of an external call. *)
Definition await {A} (o : outcome A) : W A :=
  match o with
  | Ok a => ret a
  | Err e => raise e
  end.

(** An [async def] body: a [StopIteration] that would leave the coroutine
    is replaced by a [RuntimeError] (PEP 479). *)
Definition coroutine {A} (body : W A) : W A :=
  fun w =>
    match body w with
    | (Raises e, w') =>
        if String.eqb (exn_class e) "StopIteration"
        then (Raises (RuntimeError "coroutine raised StopIteration"), w')
        else (Raises e, w')
    | other => other
    end.

(** Modelled from the spec: [storage.update_task] of fasta2a's task store
    is not part of the repository.  Following the TaskStore contract
    ([update(id, stateTransitionFields) -> ok | NotFound]), the call sets
    the state of the stored task, attaches the artifacts passed to it after
    those already recorded and leaves every other field; on an unknown id
    it raises and changes nothing. *)
Definition update_task (task_id : string) (state : TaskState)
    (artifacts : option (list Artifact)) : W unit :=
  fun w =>
    let call := {| call_id := task_id; call_state := state;
                   call_artifacts := artifacts |} in
    match tasks w !! task_id with
    | None =>
        (Raises (KeyError task_id),
         {| tasks := tasks w; updates := updates w ++ [call] |})
    | Some t =>
        let t' := {| task_input := task_input t;
                     task_state := state;
                     task_artifacts :=
                       task_artifacts t ++ default [] artifacts;
                     task_error := task_error t |} in
        (Returns tt,
         {| tasks := <[task_id := t']> (tasks w);
            updates := updates w ++ [call] |})
    end.

End Storage.

#[global] Instance W_ret : MRet Storage.W := @Storage.ret.
#[global] Instance W_bind : MBind Storage.W :=
  fun A B k m => Storage.bind m k.

(** ** The capability and its result objects *)

Module Capability.

(** What the agent or LLM call hands back: a plain [str], or an object with
    named attributes and a display string ([str(obj)]). *)
Inductive response : Type :=
| RStr (s : string)
| RObj (attrs : gmap string value) (display : string).

(** [getattr(r, name)] when [hasattr(r, name)]. *)
Definition getattr (r : response) (name : string) : option value :=
  match r with
  | RStr _ => None
  | RObj attrs _ => attrs !! name
  end.

(** [str(r)] *)
Definition str (r : response) : string :=
  match r with
  | RStr s => s
  | RObj _ d => d
  end.

(** The object itself, as a value stored in an artifact. *)
Definition as_value (r : response) : value :=
  match r with
  | RStr s => VStr s
  | RObj _ d => VObj d
  end.

(** The opaque answer-generating call. *)
Definition capability : Type := string -> outcome response.

End Capability.

Import Capability.

(** [next(p["text"] for p in parts if p["type"] == "text")] *)
Fixpoint next_text_part (parts : list TextPart) : Storage.W string :=
  match parts with
  | [] => Storage.raise StopIteration
  | p :: rest =>
      if String.eqb (part_type p) "text"
      then Storage.ret (part_text p)
      else next_text_part rest
  end.

(** The artifact list both workers pass on completion. *)
Definition answer_artifacts (answer : value) : list Artifact :=
  [ {| art_index := 0;
       art_parts := [ {| apart_type := "text"; apart_text := answer |} ];
       art_lastChunk := true |} ].

(** ** agno_worker.py *)

Module AgnoWorker.
Import Storage.

(** The [if hasattr ... elif ...] chain of [run_task]. *)
Definition extract_answer (response : response) : value :=
  match getattr response "text" with
  | Some text => text
  | None =>
      match getattr response "content" with
      | Some content => content
      | None =>
          match getattr response "message" with
          | Some message => VStr (py_str message)
          | None => VStr (str response)
          end
      end
  end.

(** [AgnoWorker.run_task]; [agent_arun] is [self.agent.arun].  The handler
    returns from the hook, which the [None] of the [try] result stands
    for.  The progress print and the traceback print are left out. *)
Definition run_task (agent_arun : capability) (params : TaskParams)
    : W unit :=
  coroutine (
    let task_id := params_id params in
    prompt ← next_text_part (params_parts params);
    update_task task_id working None;;
    answer ← try_except
               (response ← await (agent_arun prompt);
                ret (Some (extract_answer response)))
               (fun e =>
                  update_task task_id failed None;;
                  ret None);
    match answer with
    | None => ret tt
    | Some answer =>
        update_task task_id completed (Some (answer_artifacts answer))
    end).

(** [AgnoWorker.cancel_task] *)
Definition cancel_task (params : TaskParams) : W unit :=
  update_task (params_id params) canceled None.

End AgnoWorker.

(** ** llamaindex_worker.py *)

Module LlamaIndexWorker.
Import Storage.

(** [getattr(completion, "text", completion)] *)
Definition extract_answer (completion : response) : value :=
  match getattr completion "text" with
  | Some text => text
  | None => as_value completion
  end.

(** [LlamaIndexWorker.run_task]; [llm_complete] is [self.llm.complete] run
    in a worker thread. *)
Definition run_task (llm_complete : capability) (params : TaskParams)
    : W unit :=
  coroutine (
    let task_id := params_id params in
    prompt ← next_text_part (params_parts params);
    update_task task_id working None;;
    answer ← try_except
               (completion ← await (llm_complete prompt);
                ret (Some (extract_answer completion)))
               (fun e =>
                  update_task task_id failed None;;
                  ret None);
    match answer with
    | None => ret tt
    | Some answer =>
        update_task task_id completed (Some (answer_artifacts answer))
    end).

(** [LlamaIndexWorker.cancel_task] *)
Definition cancel_task (params : TaskParams) : W unit :=
  update_task (params_id params) canceled None.

End LlamaIndexWorker.

(** ** The A2A client boundary and coroutines *)

Module A2A.

(** The two [A2AClient] objects an orchestrator creates, for
    [config.AGNO_SERVICE_URL] and [config.LLAMAINDEX_SERVICE_URL]. *)
Inductive client : Type :=
| agno_client
| llama_client.

(** The part of [reply["result"]] the orchestrators read. *)
Record WirePart : Type := {
  wpart_type : string;
  wpart_text : string
}.

Record WireArtifact : Type := {
  wart_index : nat;
  wart_parts : list WirePart;
  wart_lastChunk : bool
}.

Record reply : Type := {
  reply_state : string;
  reply_artifacts : option (list WireArtifact);
  reply_error : option string
}.

(** What the process does to the outside, oldest first in a trace. *)
Inductive event : Type :=
| EvSend (c : client) (prompt : string)
| EvGet (c : client) (task_id : string)
| EvSleep (secs : nat).

(** The remote services: each call is answered from the history of all
    events before it.  [send_task_answer] is [send["result"]["id"]]. *)
Record remote : Type := {
  send_task_answer : list event -> client -> string -> outcome string;
  get_task_answer : list event -> client -> string -> outcome reply
}.

(** The suspension points of a coroutine, indexed by what they resume
    with. *)
Inductive request : Type -> Type :=
| ReqSend (c : client) (prompt : string) : request (outcome string)
| ReqGet (c : client) (task_id : string) : request (outcome reply)
| ReqSleep (secs : nat) : request unit.

(** A coroutine: it is done, it is suspended on a request, or it is about
    to append to the list [results] it shares with its siblings. *)
Inductive prog (A : Type) : Type :=
| Done (r : result A)
| Await {X : Type} (q : request X) (k : X -> prog A)
| Append (item : string * string) (k : prog A).
Arguments Done {A} r.
Arguments Await {A X} q k.
Arguments Append {A} item k.

Definition ret {A} (a : A) : prog A := Done (Returns a).

Definition raise {A} (e : exn) : prog A := Done (Raises e).

Fixpoint bind {A B} (p : prog A) (f : A -> prog B) : prog B :=
  match p with
  | Done (Returns a) => f a
  | Done (Raises e) => Done (Raises e)
  | Done Diverges => Done Diverges
  | Await q k => Await q (fun x => bind (k x) f)
  | Append item k => Append item (bind k f)
  end.

(** [try: body  except Exception as e: handler(e)] *)
Fixpoint try_except {A} (body : prog A) (handler : exn -> prog A)
    : prog A :=
  match body with
  | Done (Raises e) => if is_Exception e then handler e else Done (Raises e)
  | Done r => Done r
  | Await q k => Await q (fun x => try_except (k x) handler)
  | Append item k => Append item (try_except k handler)
  end.

(** An external call that yields a value or raises. *)
Definition lift {A} (o : outcome A) : prog A :=
  match o with
  | Ok a => ret a
  | Err e => raise e
  end.

(** [await client.send_task(message=...)], then [send["result"]["id"]] *)
Definition send_task (c : client) (prompt : string) : prog string :=
  Await (ReqSend c prompt) lift.

(** [await client.get_task(task_id)] *)
Definition get_task (c : client) (task_id : string) : prog reply :=
  Await (ReqGet c task_id) lift.

(** [await anyio.sleep(secs)] *)
Definition sleep (secs : nat) : prog unit :=
  Await (ReqSleep secs) ret.

(** [results.append(item)] *)
Definition results_append (item : string * string) : prog unit :=
  Append item (ret tt).

(** [reply["result"]["artifacts"][0]["parts"][0]["text"]] *)
Definition first_artifact_text (r : reply) : outcome string :=
  match reply_artifacts r with
  | None => Err (KeyError "artifacts")
  | Some [] => Err IndexError
  | Some (a :: _) =>
      match wart_parts a with
      | [] => Err IndexError
      | p :: _ => Ok (wpart_text p)
      end
  end.

(** The state a run threads: the trace of events and the shared list. *)
Record world : Type := {
  trace : list event;
  results : list (string * string)
}.

Definition log (ev : event) (w : world) : world :=
  {| trace := trace w ++ [ev]; results := results w |}.

Definition push (item : string * string) (w : world) : world :=
  {| trace := trace w; results := results w ++ [item] |}.

(** Resume value of a request and the world after it. *)
Definition perform {X} (env : remote) (q : request X) (w : world)
    : X * world :=
  match q in request X return X * world with
  | ReqSend c prompt =>
      (send_task_answer env (trace w) c prompt, log (EvSend c prompt) w)
  | ReqGet c task_id =>
      (get_task_answer env (trace w) c task_id, log (EvGet c task_id) w)
  | ReqSleep secs => (tt, log (EvSleep secs) w)
  end.

(** Driver monad: what [anyio.run] and [await] of a whole coroutine do. *)
Definition M (A : Type) : Type := world -> result A * world.

Definition mret_M {A} (a : A) : M A := fun w => (Returns a, w).

Definition mbind_M {A B} (m : M A) (k : A -> M B) : M B :=
  fun w =>
    match m w with
    | (Returns a, w') => k a w'
    | (Raises e, w') => (Raises e, w')
    | (Diverges, w') => (Diverges, w')
    end.

(** Running one coroutine to its end, with nothing else scheduled. *)
Fixpoint run {A} (env : remote) (p : prog A) : M A :=
  fun w =>
    match p with
    | Done r => (r, w)
    | Await q k => let (x, w') := perform env q w in run env (k x) w'
    | Append item k => run env k (push item w)
    end.

(** [async with anyio.create_task_group() as tg:] with two children
    started by [tg.start_soon].  A child runs from one suspension point to
    the next; an append happens within the step that reached it.  Where
    both children are suspended, [sched] says which resumes ([true]: the
    first child; the first child too once [sched] is used up).  When a
    child raises, the group cancels the other one, which makes no further
    request, and the exception leaves the [async with] block (the model
    keeps the exception itself where anyio 4 wraps it in a group). *)
Fixpoint task_group (env : remote) (a : prog unit)
    : prog unit -> list bool -> M unit :=
  fix with_b (b : prog unit) (sched : list bool) (w : world) {struct b}
      : result unit * world :=
    match a with
    | Done (Raises e) => (Raises e, w)
    | Done Diverges => (Diverges, w)
    | Append item ka => task_group env ka b sched (push item w)
    | Done (Returns _) =>
        match b with
        | Done r => (r, w)
        | Append item kb => with_b kb sched (push item w)
        | Await qb kb =>
            let (x, w') := perform env qb w in with_b (kb x) sched w'
        end
    | Await qa ka =>
        match b with
        | Done (Raises e) => (Raises e, w)
        | Done Diverges => (Diverges, w)
        | Append item kb => with_b kb sched (push item w)
        | Done (Returns _) =>
            let (x, w') := perform env qa w in
            task_group env (ka x) b sched w'
        | Await qb kb =>
            match sched with
            | false :: sched' =>
                let (x, w') := perform env qb w in with_b (kb x) sched' w'
            | _ =>
                let (x, w') := perform env qa w in
                task_group env (ka x) b (tail sched) w'
            end
        end
    end.

(** [results = []] *)
Definition new_results : M unit :=
  fun w => (Returns tt, {| trace := trace w; results := [] |}).

(** Reading the shared list. *)
Definition read_results : M (list (string * string)) :=
  fun w => (Returns (results w), w).

End A2A.

#[global] Instance prog_ret : MRet A2A.prog := @A2A.ret.
#[global] Instance prog_bind : MBind A2A.prog :=
  fun A B k p => A2A.bind p k.
#[global] Instance M_ret : MRet A2A.M := @A2A.mret_M.
#[global] Instance M_bind : MBind A2A.M :=
  fun A B k m => A2A.mbind_M m k.

Import A2A.

(** ** orchestrate.py *)

Module Orchestrate.

Definition max_attempts : nat := 60.

(** How one pass through the body of the polling loop ends: with the
    function's [return], or with the next iteration and its counter. *)
Inductive loop_exit : Type :=
| Return_ (text : string)
| Continue (attempts : nat).

(** The [try] statement that is the body of the polling loop, at counter
    value [attempts].  The [raise] statements for the failed and canceled
    states are inside the [try] block, as is the indexing into the
    artifacts. *)
Definition poll_once (attempts : nat) (client : client)
    (task_id service_name : string) : prog loop_exit :=
  try_except
    (reply ← get_task client task_id;
     let state := reply_state reply in
     if String.eqb state "completed" then
       text ← lift (first_artifact_text reply);
       ret (Return_ text)
     else if String.eqb state "failed" then
       let error_info :=
         default "No error details available" (reply_error reply) in
       raise (Exception (service_name +:+ " task failed: " +:+ error_info))
     else if String.eqb state "canceled" then
       raise (Exception (service_name +:+ " task was canceled"))
     else
       sleep 2;;
       ret (Continue (attempts + 1)))
    (fun e =>
       if py_in "500" (exn_str e)
          || py_in "Internal Server Error" (exn_str e)
       then
         sleep 5;;
         ret (Continue (attempts + 1))
       else raise e).

(** The [while attempts < max_attempts] loop of [wait_for_task_completion]
    and the [raise] that follows it. *)
Fixpoint wait_loop (fuel attempts : nat) (client : client)
    (task_id service_name : string) : prog string :=
  match fuel with
  | 0 => Done Diverges
  | S fuel' =>
      if attempts <? max_attempts then
        exit ← poll_once attempts client task_id service_name;
        match exit with
        | Return_ text => ret text
        | Continue attempts' =>
            wait_loop fuel' attempts' client task_id service_name
        end
      else
        raise (Exception
                 (service_name +:+ " task timed out after " +:+
                  str_of_nat (max_attempts * 2) +:+ " seconds"))
  end.

(** [wait_for_task_completion]: every iteration that does not leave the
    loop adds one to [attempts], so [max_attempts] iterations and the final
    test are all the loop can take. *)
Definition wait_for_task_completion (client : client)
    (task_id service_name : string) : prog string :=
  wait_loop (S max_attempts) 0 client task_id service_name.

Definition send_task_to_service (client : client)
    (prompt service_name : string) : prog string :=
  send_task client prompt.

Definition llama_prompt (initial_prompt : string) : string :=
  nl +:+
  "    Please provide a comprehensive analysis of the following topic using your retrieval-augmented capabilities:" +:+ nl +:+
  "    " +:+ nl +:+
  "    Topic: " +:+ initial_prompt +:+ nl +:+
  "    " +:+ nl +:+
  "    Focus on providing factual, well-sourced information and identify any areas that might need further clarification or different perspectives." +:+ nl +:+
  "    ".

Definition agno_prompt (initial_prompt : string) (llama_result : string) : string :=
  nl +:+
  "    I have received the following analysis from a RAG-enhanced system about " +:+ dq +:+ initial_prompt +:+ dq +:+ ":" +:+ nl +:+
  nl +:+
  "    " +:+ llama_result +:+ nl +:+
  nl +:+
  "    Please:" +:+ nl +:+
  "    1. Synthesize this information in a more accessible and engaging way" +:+ nl +:+
  "    2. Add creative insights or analogies that might help understanding" +:+ nl +:+
  "    3. Identify any potential counterarguments or alternative perspectives" +:+ nl +:+
  "    4. Provide a final, well-rounded response that combines factual accuracy with clear communication" +:+ nl +:+
  nl +:+
  "    Make your response comprehensive but engaging." +:+ nl +:+
  "    ".

Definition validation_prompt (initial_prompt : string) (agno_result : string) : string :=
  nl +:+
  "    Please review the following synthesized response for accuracy and completeness:" +:+ nl +:+
  nl +:+
  "    Original topic: " +:+ initial_prompt +:+ nl +:+
  "    " +:+ nl +:+
  "    Synthesized response to validate:" +:+ nl +:+
  "    " +:+ agno_result +:+ nl +:+
  nl +:+
  "    Please:" +:+ nl +:+
  "    1. Verify the factual accuracy of the claims made" +:+ nl +:+
  "    2. Check if any important information was omitted or misrepresented" +:+ nl +:+
  "    3. Suggest any corrections or additions needed" +:+ nl +:+
  "    4. Provide a final confidence assessment" +:+ nl +:+
  nl +:+
  "    If the synthesis is accurate, endorse it. If not, provide corrections." +:+ nl +:+
  "    ".

Definition final_prompt (initial_prompt : string) (validation_result : string) (agno_result : string) : string :=
  nl +:+
  "    Based on the validation feedback below, please provide the final, most accurate and engaging response to: " +:+ dq +:+ initial_prompt +:+ dq +:+ nl +:+
  nl +:+
  "    Validation feedback:" +:+ nl +:+
  "    " +:+ validation_result +:+ nl +:+
  nl +:+
  "    Previous synthesis:" +:+ nl +:+
  "    " +:+ agno_result +:+ nl +:+
  nl +:+
  "    Please incorporate any necessary corrections and provide the definitive answer." +:+ nl +:+
  "    ".

Definition orchestrate_collaborative_workflow (initial_prompt : string)
    : prog string :=
  (* Step 1 *)
  llama_task_id ←
    send_task_to_service llama_client (llama_prompt initial_prompt)
      "LlamaIndex";
  llama_result ←
    wait_for_task_completion llama_client llama_task_id "LlamaIndex";
  (* Step 2 *)
  agno_task_id ←
    send_task_to_service agno_client
      (agno_prompt initial_prompt llama_result) "Agno";
  agno_result ← wait_for_task_completion agno_client agno_task_id "Agno";
  (* Step 3 *)
  validation_task_id ←
    send_task_to_service llama_client
      (validation_prompt initial_prompt agno_result) "LlamaIndex";
  validation_result ←
    wait_for_task_completion llama_client validation_task_id "LlamaIndex";
  (* Step 4 *)
  final_task_id ←
    send_task_to_service agno_client
      (final_prompt initial_prompt validation_result agno_result) "Agno";
  final_result ← wait_for_task_completion agno_client final_task_id "Agno";
  ret final_result.

Definition initial_question : string :=
  "Explain the Pauli exclusion principle in one paragraph.".

(** What [main] leaves on standard output once the workflow is over: the
    banner with the final answer, or the error line of its handler. *)
Inductive report : Type :=
| FinalResult (final_answer : string)
| ErrorLine (line : string).

Definition main : prog report :=
  try_except
    (final_answer ← orchestrate_collaborative_workflow initial_question;
     ret (FinalResult final_answer))
    (fun e =>
       ret (ErrorLine
              ("[ORCH] Error in collaborative workflow: " +:+ exn_str e))).

End Orchestrate.

(** ** orchestrate_parallel.py *)

Module OrchestrateParallel.

(** [wait_for_task_completion]: a [while True] loop; [fuel] bounds the
    number of iterations the model follows. *)
Fixpoint wait_for_task_completion (fuel : nat) (client : client)
    (task_id service_name : string) : prog string :=
  match fuel with
  | 0 => Done Diverges
  | S fuel' =>
      reply ← get_task client task_id;
      let state := reply_state reply in
      if String.eqb state "completed" then
        lift (first_artifact_text reply)
      else if String.eqb state "failed" then
        raise (Exception (service_name +:+ " task failed"))
      else if String.eqb state "canceled" then
        raise (Exception (service_name +:+ " task was canceled"))
      else
        sleep 2;;
        wait_for_task_completion fuel' client task_id service_name
  end.

Definition send_task_to_service (client : client)
    (prompt service_name : string) : prog string :=
  send_task client prompt.

Definition agno_prompt (initial_prompt : string) : string :=
  nl +:+
  "        Please provide a comprehensive and engaging explanation of:" +:+ nl +:+
  "        " +:+ initial_prompt +:+ nl +:+
  "        " +:+ nl +:+
  "        Focus on clarity, creativity, and making the concept accessible." +:+ nl +:+
  "        ".

Definition llama_prompt (initial_prompt : string) : string :=
  nl +:+
  "        Please provide a detailed, factual analysis of:" +:+ nl +:+
  "        " +:+ initial_prompt +:+ nl +:+
  "        " +:+ nl +:+
  "        Focus on accuracy, technical depth, and comprehensive coverage." +:+ nl +:+
  "        ".

Definition synthesis_prompt (initial_prompt : string) (agno_result : option string) (llama_result : option string) : string :=
  nl +:+
  "    I have two different responses to the question: " +:+ dq +:+ initial_prompt +:+ dq +:+ nl +:+
  nl +:+
  "    Response 1 (Creative/Accessible):" +:+ nl +:+
  "    " +:+ fmt_opt agno_result +:+ nl +:+
  nl +:+
  "    Response 2 (Technical/Factual):" +:+ nl +:+
  "    " +:+ fmt_opt llama_result +:+ nl +:+
  nl +:+
  "    Please synthesize these two responses into a single, comprehensive answer that:" +:+ nl +:+
  "    1. Combines the best aspects of both responses" +:+ nl +:+
  "    2. Resolves any contradictions by favoring factual accuracy" +:+ nl +:+
  "    3. Maintains accessibility while preserving technical precision" +:+ nl +:+
  "    4. Provides a well-rounded, complete answer" +:+ nl +:+
  nl +:+
  "    Create the definitive response that leverages both perspectives." +:+ nl +:+
  "    ".

Definition process_with_agno (fuel : nat) (initial_prompt : string)
    : prog string :=
  task_id ←
    send_task_to_service agno_client (agno_prompt initial_prompt) "Agno";
  wait_for_task_completion fuel agno_client task_id "Agno".

Definition process_with_llama (fuel : nat) (initial_prompt : string)
    : prog string :=
  task_id ←
    send_task_to_service llama_client (llama_prompt initial_prompt)
      "LlamaIndex";
  wait_for_task_completion fuel llama_client task_id "LlamaIndex".

(** A child started for its effects only: its return value is dropped. *)
Definition start_soon {A} (p : prog A) : prog unit :=
  p;; ret tt.

Definition collect_agno (fuel : nat) (initial_prompt : string)
    : prog unit :=
  result ← process_with_agno fuel initial_prompt;
  results_append ("agno", result).

Definition collect_llama (fuel : nat) (initial_prompt : string)
    : prog unit :=
  result ← process_with_llama fuel initial_prompt;
  results_append ("llama", result).

(** The [for service, result in results] loop, from the current values of
    [agno_result] and [llama_result]. *)
Fixpoint extract_results (results : list (string * string))
    (agno_result llama_result : option string)
    : option string * option string :=
  match results with
  | [] => (agno_result, llama_result)
  | (service, result) :: rest =>
      if String.eqb service "agno" then
        extract_results rest (Some result) llama_result
      else if String.eqb service "llama" then
        extract_results rest agno_result (Some result)
      else extract_results rest agno_result llama_result
  end.

(** [parallel_processing_workflow]; [sched1] and [sched2] are the
    interleavings of the two task groups. *)
Definition parallel_processing_workflow (env : remote) (fuel : nat)
    (sched1 sched2 : list bool) (initial_prompt : string)
    : M (string * option string * option string) :=
  task_group env
    (start_soon (process_with_agno fuel initial_prompt))
    (start_soon (process_with_llama fuel initial_prompt)) sched1;;
  new_results;;
  task_group env
    (collect_agno fuel initial_prompt)
    (collect_llama fuel initial_prompt) sched2;;
  results ← read_results;
  let '(agno_result, llama_result) := extract_results results None None in
  (* Synthesis phase *)
  synthesis_task_id ←
    run env (send_task_to_service agno_client
               (synthesis_prompt initial_prompt agno_result llama_result)
               "Agno");
  final_result ←
    run env (wait_for_task_completion fuel agno_client synthesis_task_id
               "Agno");
  mret (final_result, agno_result, llama_result).

End OrchestrateParallel.

(** ** Observations on traces *)

Module Trace.

Definition client_eqb (a b : client) : bool :=
  match a, b with
  | agno_client, agno_client => true
  | llama_client, llama_client => true
  | _, _ => false
  end.

(** The submissions in order: the client and the prompt of each. *)
Fixpoint submitted (tr : list event) : list (client * string) :=
  match tr with
  | [] => []
  | EvSend c prompt :: rest => (c, prompt) :: submitted rest
  | _ :: rest => submitted rest
  end.

(** The prompts among the submissions [subs] that went through client
    [c]. *)
Fixpoint prompts_for (c : client) (subs : list (client * string))
    : list string :=
  match subs with
  | [] => []
  | (c', prompt) :: rest =>
      if client_eqb c c' then prompt :: prompts_for c rest
      else prompts_for c rest
  end.

(** The prompts submitted through client [c], in order. *)
Definition sent_to (c : client) (tr : list event) : list string :=
  prompts_for c (submitted tr).

(** The number of submissions, through either client. *)
Fixpoint submissions (tr : list event) : nat :=
  match tr with
  | [] => 0
  | EvSend _ _ :: rest => S (submissions rest)
  | _ :: rest => submissions rest
  end.

(** The number of [get_task] calls. *)
Fixpoint fetches (tr : list event) : nat :=
  match tr with
  | [] => 0
  | EvGet _ _ :: rest => S (fetches rest)
  | _ :: rest => fetches rest
  end.

(** The durations slept, in order. *)
Fixpoint slept (tr : list event) : list nat :=
  match tr with
  | [] => []
  | EvSleep secs :: rest => secs :: slept rest
  | _ :: rest => slept rest
  end.

(** The world a run starts from. *)
Definition start : world := {| trace := []; results := [] |}.

(** A reply in state [state] carrying one artifact with one text part. *)
Definition reply_with (state text : string) (error : option string)
    : reply :=
  {| reply_state := state;
     reply_artifacts :=
       Some [ {| wart_index := 0;
                 wart_parts :=
                   [ {| wpart_type := "text"; wpart_text := text |} ];
                 wart_lastChunk := true |} ];
     reply_error := error |}.

End Trace.

Import Trace.

(** ** Vocabulary of the properties *)

Module Props.

(** The text of the first part of type ["text"], when there is one. *)
Fixpoint prompt_of (parts : list TextPart) : option string :=
  match parts with
  | [] => None
  | p :: rest =>
      if String.eqb (part_type p) "text" then Some (part_text p)
      else prompt_of rest
  end.

(** A stored task with its state and artifacts replaced, and its input and
    error field kept. *)
Definition recorded (t : Task) (state : TaskState)
    (artifacts : list Artifact) : Task :=
  {| task_input := task_input t;
     task_state := state;
     task_artifacts := artifacts;
     task_error := task_error t |}.

Definition call (task_id : string) (state : TaskState)
    (artifacts : option (list Artifact)) : Storage.update_call :=
  {| Storage.call_id := task_id; Storage.call_state := state;
     Storage.call_artifacts := artifacts |}.

(** The worker's world once a hook has marked task [task_id], stored as
    [t] in [w], as working and has then recorded [state], attaching the
    artifacts [arts]. *)
Definition after_run (w : Storage.world) (task_id : string) (t : Task)
    (state : TaskState) (arts : option (list Artifact)) : Storage.world :=
  {| Storage.tasks :=
       <[task_id := recorded t state
                      (task_artifacts t ++ default [] arts)]>
         (Storage.tasks w);
     Storage.updates :=
       Storage.updates w
         ++ [call task_id working None; call task_id state arts] |}.

(** The world once [cancel_task] has handled a request for [task_id]. *)
Definition after_cancel (w : Storage.world) (task_id : string) (t : Task)
    : Storage.world :=
  {| Storage.tasks :=
       <[task_id := recorded t canceled (task_artifacts t)]>
         (Storage.tasks w);
     Storage.updates :=
       Storage.updates w ++ [call task_id canceled None] |}.

(** The request of scenario A and a task id for it. *)
Definition two_plus_two : list TextPart :=
  [ {| part_type := "text"; part_text := "2+2" |} ].

Definition params_t1 (parts : list TextPart) : TaskParams :=
  {| params_id := "t1"; params_parts := parts |}.

(** A store holding one task, with no call made yet. *)
Definition single (task_id : string) (t : Task) : Storage.world :=
  {| Storage.tasks := {[ task_id := t ]}; Storage.updates := [] |}.

(** The probing order the specification gives for a capability result: a
    ["text"] field, then a ["content"] field, then the string conversion
    of the result object. *)
Definition spec_extract (r : response) : value :=
  match getattr r "text" with
  | Some text => text
  | None =>
      match getattr r "content" with
      | Some content => content
      | None => VStr (str r)
      end
  end.

(** An exception the handler of the polling loop takes for a server
    fault. *)
Definition transport_fault (e : exn) : bool :=
  is_Exception e &&
  (py_in "500" (exn_str e) || py_in "Internal Server Error" (exn_str e)).

Definition terminal_literal (state : string) : bool :=
  String.eqb state "completed" || String.eqb state "failed"
  || String.eqb state "canceled".

(** A fetch after which the polling loop of [orchestrate.py] goes round
    once more: a reply in a state that is not terminal, or a server
    fault. *)
Definition retried (o : outcome reply) : bool :=
  match o with
  | Ok r => negb (terminal_literal (reply_state r))
  | Err e => transport_fault e
  end.

(** The pause that follows such a fetch. *)
Definition pause_after (o : outcome reply) : nat :=
  match o with
  | Ok _ => 2
  | Err _ => 5
  end.

(** The history after [n] fetches of task [task_id], each followed by its
    pause, starting from history [h]. *)
Fixpoint retry_trace (env : remote) (c : client) (task_id : string)
    (n : nat) (h : list event) : list event :=
  match n with
  | 0 => h
  | S n' =>
      retry_trace env c task_id n'
        (h ++ [EvGet c task_id;
               EvSleep (pause_after (get_task_answer env h c task_id))])
  end.

(** The exception that ends the polling loop of [orchestrate.py] when its
    counter is used up. *)
Definition timed_out (service_name : string) : exn :=
  Exception (service_name +:+ " task timed out after 120 seconds").

(** One step of the sequential workflow: submit the prompt, then wait. *)
Definition step (env : remote) (c : client) (prompt service_name : string)
    : M string :=
  run env
    (task_id ← Orchestrate.send_task_to_service c prompt service_name;
     Orchestrate.wait_for_task_completion c task_id service_name).

(** [fails_at env p w k subs e w']: in the sequential workflow on prompt
    [p] started in [w], the steps before step [k] return and step [k] raises
    [e], leaving the world [w']; [subs] are the submissions of the steps up
    to step [k]. *)
Inductive fails_at (env : remote) (p : string) (w : world)
    : nat -> list (client * string) -> exn -> world -> Prop :=
| fails_1 e w1 :
    step env llama_client (Orchestrate.llama_prompt p) "LlamaIndex" w
      = (Raises e, w1) ->
    fails_at env p w 1
      [(llama_client, Orchestrate.llama_prompt p)] e w1
| fails_2 r1 w1 e w2 :
    step env llama_client (Orchestrate.llama_prompt p) "LlamaIndex" w
      = (Returns r1, w1) ->
    step env agno_client (Orchestrate.agno_prompt p r1) "Agno" w1
      = (Raises e, w2) ->
    fails_at env p w 2
      [(llama_client, Orchestrate.llama_prompt p);
       (agno_client, Orchestrate.agno_prompt p r1)] e w2
| fails_3 r1 w1 r2 w2 e w3 :
    step env llama_client (Orchestrate.llama_prompt p) "LlamaIndex" w
      = (Returns r1, w1) ->
    step env agno_client (Orchestrate.agno_prompt p r1) "Agno" w1
      = (Returns r2, w2) ->
    step env llama_client (Orchestrate.validation_prompt p r2)
      "LlamaIndex" w2 = (Raises e, w3) ->
    fails_at env p w 3
      [(llama_client, Orchestrate.llama_prompt p);
       (agno_client, Orchestrate.agno_prompt p r1);
       (llama_client, Orchestrate.validation_prompt p r2)] e w3
| fails_4 r1 w1 r2 w2 r3 w3 e w4 :
    step env llama_client (Orchestrate.llama_prompt p) "LlamaIndex" w
      = (Returns r1, w1) ->
    step env agno_client (Orchestrate.agno_prompt p r1) "Agno" w1
      = (Returns r2, w2) ->
    step env llama_client (Orchestrate.validation_prompt p r2)
      "LlamaIndex" w2 = (Returns r3, w3) ->
    step env agno_client (Orchestrate.final_prompt p r3 r2) "Agno" w3
      = (Raises e, w4) ->
    fails_at env p w 4
      [(llama_client, Orchestrate.llama_prompt p);
       (agno_client, Orchestrate.agno_prompt p r1);
       (llama_client, Orchestrate.validation_prompt p r2);
       (agno_client, Orchestrate.final_prompt p r3 r2)] e w4.

(** What [main] of [orchestrate.py] ends with when the workflow raises
    [e]: the error line of its handler, which catches what derives from
    [Exception]. *)
Definition main_on_failure (e : exn) : result Orchestrate.report :=
  if is_Exception e
  then Returns (Orchestrate.ErrorLine
                  ("[ORCH] Error in collaborative workflow: "
                   +:+ exn_str e))
  else Raises e.




(** The event a request leaves in the trace. *)
Definition event_of {X} (q : request X) : event :=
  match q with
  | ReqSend c prompt => EvSend c prompt
  | ReqGet c task_id => EvGet c task_id
  | ReqSleep secs => EvSleep secs
  end.

(** [path p evs items r]: for some answers to its requests, coroutine [p]
    makes the requests [evs], appends [items] and ends with [r]. *)
Fixpoint path {A} (p : prog A) (evs : list event)
    (items : list (string * string)) (r : result A) : Prop :=
  match p with
  | Done r' => evs = [] /\ items = [] /\ r = r'
  | Await q k =>
      exists x evs', evs = event_of q :: evs' /\ path (k x) evs' items r
  | Append item k =>
      exists items', items = item :: items' /\ path k evs items' r
  end.

(** [group_ran a b w w']: a task group with the children [a] and [b] that
    ran from [w] to [w'] with both children returning.  Each child followed
    one of its paths; the events of the group are those of the two paths
    in some interleaving, and so are the items appended to [results]. *)
Definition group_ran (a b : prog unit) (w w' : world) : Prop :=
  exists evs_a items_a evs_b items_b evs items,
    path a evs_a items_a (Returns tt)
    /\ path b evs_b items_b (Returns tt)
    /\ trace w' = trace w ++ evs
    /\ results w' = results w ++ items
    /\ evs ≡ₚ evs_a ++ evs_b
    /\ items ≡ₚ items_a ++ items_b.

(** Environments of the examples. *)

(** Every fetch finds the task still working. *)
Definition never_terminal : remote :=
  {| send_task_answer := fun _ _ _ => Ok "t1"%string;
     get_task_answer := fun _ _ _ => Ok (reply_with "working" "-" None) |}.

(** The first fetch finds the task failed, with a diagnostic that mentions
    a status code; a later fetch would find it completed. *)
Definition failed_with_500 : remote :=
  {| send_task_answer := fun _ _ _ => Ok "t1"%string;
     get_task_answer := fun h _ _ =>
       if fetches h <? 1
       then Ok (reply_with "failed" "-" (Some "upstream returned 500"%string))
       else Ok (reply_with "completed" "late answer" None) |}.

Definition server_error : exn := Exception "500 Internal Server Error".

(** Two server faults, then the task is found completed. *)
Definition two_faults_then_completed : remote :=
  {| send_task_answer := fun _ _ _ => Ok "t1"%string;
     get_task_answer := fun h _ _ =>
       if fetches h <? 2 then Err server_error
       else Ok (reply_with "completed" "done" None) |}.

(** Fifty-nine fetches find the task working, every later one meets a
    server fault. *)
Definition working_then_faults : remote :=
  {| send_task_answer := fun _ _ _ => Ok "t1"%string;
     get_task_answer := fun h _ _ =>
       if fetches h <? 59 then Ok (reply_with "working" "-" None)
       else Err server_error |}.

(** The Agno task is found failed at once, the LlamaIndex task
    completed. *)
Definition agno_fails : remote :=
  {| send_task_answer := fun _ c _ =>
       Ok (match c with agno_client => "a" | llama_client => "l" end)%string;
     get_task_answer := fun _ c _ =>
       match c with
       | agno_client => Ok (reply_with "failed" "-" None)
       | llama_client => Ok (reply_with "completed" "y" None)
       end |}.

(** Every task completes at its first fetch; the answer tells the client
    and how many tasks had been submitted when it was fetched. *)
Definition answers_by_round : remote :=
  {| send_task_answer := fun h c _ =>
       Ok (match c with agno_client => "a" | llama_client => "l" end)%string;
     get_task_answer := fun h c _ =>
       Ok (reply_with "completed"
             ((match c with agno_client => "x" | llama_client => "y" end)
              +:+ str_of_nat (submissions h)) None) |}.

End Props.

Import Props.

(** ** orchestrate_parallel.py: the debate workflow *)

Module OrchestrateParallelDebate.

Definition agno_prompt1 (initial_prompt : string) : string :=
  nl +:+
  "    You are participating in a collaborative discussion about: " +:+ dq +:+ initial_prompt +:+ dq +:+ nl +:+
  "    " +:+ nl +:+
  "    Please provide your initial perspective, focusing on creative insights and accessible explanations." +:+ nl +:+
  "    After this, you'll see another perspective and can build upon or refine your response." +:+ nl +:+
  "    ".

Definition llama_prompt1 (initial_prompt : string) : string :=
  nl +:+
  "    You are participating in a collaborative discussion about: " +:+ dq +:+ initial_prompt +:+ dq +:+ nl +:+
  "    " +:+ nl +:+
  "    Please provide your initial perspective, focusing on factual accuracy and comprehensive technical details." +:+ nl +:+
  "    After this, you'll see another perspective and can build upon or refine your response." +:+ nl +:+
  "    ".

Definition agno_prompt2 (initial_prompt : string) (agno_round1 : option string) (llama_round1 : option string) : string :=
  nl +:+
  "    Here's your previous response about " +:+ dq +:+ initial_prompt +:+ dq +:+ ":" +:+ nl +:+
  "    " +:+ fmt_opt agno_round1 +:+ nl +:+
  nl +:+
  "    Now, here's a technical perspective from another system:" +:+ nl +:+
  "    " +:+ fmt_opt llama_round1 +:+ nl +:+
  nl +:+
  "    Please refine your response by:" +:+ nl +:+
  "    1. Incorporating any valuable technical insights you missed" +:+ nl +:+
  "    2. Correcting any inaccuracies in your original response" +:+ nl +:+
  "    3. Maintaining your accessible, creative approach while improving accuracy" +:+ nl +:+
  "    ".

Definition llama_prompt2 (initial_prompt : string) (agno_round1 : option string) (llama_round1 : option string) : string :=
  nl +:+
  "    Here's your previous response about " +:+ dq +:+ initial_prompt +:+ dq +:+ ":" +:+ nl +:+
  "    " +:+ fmt_opt llama_round1 +:+ nl +:+
  nl +:+
  "    Now, here's a creative perspective from another system:" +:+ nl +:+
  "    " +:+ fmt_opt agno_round1 +:+ nl +:+
  nl +:+
  "    Please refine your response by:" +:+ nl +:+
  "    1. Incorporating any valuable insights about clarity and accessibility" +:+ nl +:+
  "    2. Adding any missing nuances or perspectives" +:+ nl +:+
  "    3. Maintaining technical accuracy while improving readability" +:+ nl +:+
  "    ".

(** The four closures that wait for one task and append its result to the
    list of their round. *)
Definition collect_agno1 (fuel : nat) (agno_task1 : string) : prog unit :=
  result ←
    OrchestrateParallel.wait_for_task_completion fuel agno_client agno_task1
      "Agno";
  results_append ("agno", result).

Definition collect_llama1 (fuel : nat) (llama_task1 : string) : prog unit :=
  result ←
    OrchestrateParallel.wait_for_task_completion fuel llama_client
      llama_task1 "LlamaIndex";
  results_append ("llama", result).

Definition collect_agno2 (fuel : nat) (agno_task2 : string) : prog unit :=
  result ←
    OrchestrateParallel.wait_for_task_completion fuel agno_client agno_task2
      "Agno";
  results_append ("agno", result).

Definition collect_llama2 (fuel : nat) (llama_task2 : string) : prog unit :=
  result ←
    OrchestrateParallel.wait_for_task_completion fuel llama_client
      llama_task2 "LlamaIndex";
  results_append ("llama", result).

(** [debate_workflow]; [sched1] and [sched2] are the interleavings of the
    two task groups.  The lists [round1_results] and [round2_results] are
    never alive together: the shared list of the world stands for the one of
    the current round and is emptied where the source creates the next.
    Both extraction loops are the loop of [parallel_processing_workflow]. *)
Definition debate_workflow (env : remote) (fuel : nat)
    (sched1 sched2 : list bool) (initial_prompt : string)
    : M (option string * option string) :=
  (* Round 1 *)
  agno_task1 ←
    run env (OrchestrateParallel.send_task_to_service agno_client
               (agno_prompt1 initial_prompt) "Agno");
  llama_task1 ←
    run env (OrchestrateParallel.send_task_to_service llama_client
               (llama_prompt1 initial_prompt) "LlamaIndex");
  new_results;;
  task_group env (collect_agno1 fuel agno_task1)
    (collect_llama1 fuel llama_task1) sched1;;
  round1_results ← read_results;
  let '(agno_round1, llama_round1) :=
    OrchestrateParallel.extract_results round1_results None None in
  (* Round 2 *)
  agno_task2 ←
    run env (OrchestrateParallel.send_task_to_service agno_client
               (agno_prompt2 initial_prompt agno_round1 llama_round1)
               "Agno");
  llama_task2 ←
    run env (OrchestrateParallel.send_task_to_service llama_client
               (llama_prompt2 initial_prompt agno_round1 llama_round1)
               "LlamaIndex");
  new_results;;
  task_group env (collect_agno2 fuel agno_task2)
    (collect_llama2 fuel llama_task2) sched2;;
  round2_results ← read_results;
  let '(agno_round2, llama_round2) :=
    OrchestrateParallel.extract_results round2_results None None in
  mret (agno_round2, llama_round2).

End OrchestrateParallelDebate.

(** ** Python strings as text *)

Module PyStr.

(** A [str] is held as the bytes of its UTF-8 encoding, which is what a
    string literal of this file is.  [len] and slicing count characters, not
    bytes: a character is a lead byte together with the continuation bytes,
    those of the form [10xxxxxx], that follow it. *)
Definition is_continuation (ch : ascii) : bool :=
  match ch with
  | Ascii _ _ _ _ _ _ b6 b7 => b7 && negb b6
  end.

(** [len(s)] *)
Fixpoint len (s : string) : nat :=
  match s with
  | EmptyString => 0
  | String ch rest => if is_continuation ch then len rest else S (len rest)
  end.

(** [s[:n]] *)
Fixpoint take (n : nat) (s : string) : string :=
  match s with
  | EmptyString => EmptyString
  | String ch rest =>
      if is_continuation ch then String ch (take n rest)
      else
        match n with
        | 0 => EmptyString
        | S n' => String ch (take n' rest)
        end
  end.

End PyStr.

(** ** orchestrate_expert.py *)

Module OrchestrateExpert.

(** An entry of [self.conversation_history]. *)
Record history_entry : Type := {
  entry_service : string;
  entry_prompt : string;
  entry_response : string
}.

(** [s[:n] + "..." if len(s) > n else s] *)
Definition clipped (n : nat) (s : string) : string :=
  if n <? PyStr.len s then PyStr.take n s +:+ "..." else s.

(** The [while True] loop of [send_task_and_wait]; [fuel] bounds the number
    of iterations the model follows.  [conversation_history] is the list of
    the orchestrator object when the loop is entered; the list after the
    call is handed back with the result. *)
Fixpoint poll_until_done (fuel : nat)
    (conversation_history : list history_entry) (client : client)
    (prompt service_name task_id : string)
    : prog (string * list history_entry) :=
  match fuel with
  | 0 => Done Diverges
  | S fuel' =>
      reply ← get_task client task_id;
      let state := reply_state reply in
      if String.eqb state "completed" then
        result ← lift (first_artifact_text reply);
        ret (result,
             conversation_history ++
               [ {| entry_service := service_name;
                    entry_prompt := clipped 100 prompt;
                    entry_response := clipped 200 result |} ])
      else if String.eqb state "failed" || String.eqb state "canceled" then
        raise (Exception (service_name +:+ " task " +:+ state))
      else
        sleep 2;;
        poll_until_done fuel' conversation_history client prompt
          service_name task_id
  end.

(** [CollaborativeOrchestrator.send_task_and_wait] *)
Definition send_task_and_wait (fuel : nat)
    (conversation_history : list history_entry) (client : client)
    (prompt service_name : string) : prog (string * list history_entry) :=
  task_id ← send_task client prompt;
  poll_until_done fuel conversation_history client prompt service_name
    task_id.

Definition research_prompt (user_question : string) : string :=
  nl +:+
  "        As a research specialist, please provide a comprehensive technical analysis of:" +:+ nl +:+
  "        " +:+ nl +:+
  "        " +:+ dq +:+ user_question +:+ dq +:+ nl +:+
  "        " +:+ nl +:+
  "        Include:" +:+ nl +:+
  "        - Core concepts and principles" +:+ nl +:+
  "        - Technical details and mechanisms" +:+ nl +:+
  "        - Historical context or background" +:+ nl +:+
  "        - Current understanding and any recent developments" +:+ nl +:+
  "        - Potential areas of complexity or common misconceptions" +:+ nl +:+
  "        " +:+ nl +:+
  "        Focus on accuracy and completeness. This will be used by a communication expert to create an accessible explanation." +:+ nl +:+
  "        ".

Definition comm_strategy_prompt (user_question : string) (research_result : string) : string :=
  nl +:+
  "        As a communication expert, review this technical research about " +:+ dq +:+ user_question +:+ dq +:+ ":" +:+ nl +:+
  "        " +:+ nl +:+
  "        RESEARCH ANALYSIS:" +:+ nl +:+
  "        " +:+ research_result +:+ nl +:+
  "        " +:+ nl +:+
  "        Please develop a communication strategy that:" +:+ nl +:+
  "        1. Identifies the key points that must be conveyed" +:+ nl +:+
  "        2. Suggests analogies, examples, or metaphors that could help understanding" +:+ nl +:+
  "        3. Determines the appropriate level of technical detail" +:+ nl +:+
  "        4. Identifies potential areas where readers might get confused" +:+ nl +:+
  "        5. Recommends the best structure for the explanation" +:+ nl +:+
  "        " +:+ nl +:+
  "        Don't write the final explanation yet - just the communication strategy." +:+ nl +:+
  "        ".

Definition strategy_review_prompt (user_question : string) (research_result : string) (comm_strategy : string) : string :=
  nl +:+
  "        As a research specialist, please review this communication strategy for explaining " +:+ dq +:+ user_question +:+ dq +:+ ":" +:+ nl +:+
  "        " +:+ nl +:+
  "        COMMUNICATION STRATEGY:" +:+ nl +:+
  "        " +:+ comm_strategy +:+ nl +:+
  "        " +:+ nl +:+
  "        ORIGINAL RESEARCH:" +:+ nl +:+
  "        " +:+ research_result +:+ nl +:+
  "        " +:+ nl +:+
  "        Please evaluate:" +:+ nl +:+
  "        1. Are there any scientific inaccuracies in the proposed approach?" +:+ nl +:+
  "        2. Are any critical technical details being oversimplified?" +:+ nl +:+
  "        3. Would any of the suggested analogies be misleading?" +:+ nl +:+
  "        4. What technical caveats or limitations should be mentioned?" +:+ nl +:+
  "        5. Any suggestions for improvement while maintaining accessibility?" +:+ nl +:+
  "        " +:+ nl +:+
  "        Provide feedback to refine the communication approach." +:+ nl +:+
  "        ".

Definition final_explanation_prompt (user_question : string) (research_result : string) (comm_strategy : string) (strategy_feedback : string) : string :=
  nl +:+
  "        As a communication expert, create the final explanation for " +:+ dq +:+ user_question +:+ dq +:+ " using:" +:+ nl +:+
  "        " +:+ nl +:+
  "        RESEARCH FOUNDATION:" +:+ nl +:+
  "        " +:+ research_result +:+ nl +:+
  "        " +:+ nl +:+
  "        COMMUNICATION STRATEGY:" +:+ nl +:+
  "        " +:+ comm_strategy +:+ nl +:+
  "        " +:+ nl +:+
  "        TECHNICAL FEEDBACK:" +:+ nl +:+
  "        " +:+ strategy_feedback +:+ nl +:+
  "        " +:+ nl +:+
  "        Create a response that:" +:+ nl +:+
  "        - Is scientifically accurate (incorporating the technical feedback)" +:+ nl +:+
  "        - Follows your communication strategy" +:+ nl +:+
  "        - Is engaging and accessible" +:+ nl +:+
  "        - Addresses the user's question completely" +:+ nl +:+
  "        - Maintains appropriate technical depth" +:+ nl +:+
  "        " +:+ nl +:+
  "        This is the final answer that will be presented to the user." +:+ nl +:+
  "        ".

Definition final_check_prompt (user_question : string) (final_explanation : string) : string :=
  nl +:+
  "        Please perform a final fact-check on this explanation of " +:+ dq +:+ user_question +:+ dq +:+ ":" +:+ nl +:+
  "        " +:+ nl +:+
  "        FINAL EXPLANATION:" +:+ nl +:+
  "        " +:+ final_explanation +:+ nl +:+
  "        " +:+ nl +:+
  "        Verify:" +:+ nl +:+
  "        1. Scientific accuracy" +:+ nl +:+
  "        2. Completeness of core concepts" +:+ nl +:+
  "        3. Appropriateness of examples/analogies" +:+ nl +:+
  "        4. Any missing important caveats" +:+ nl +:+
  "        " +:+ nl +:+
  "        If the explanation is accurate and complete, endorse it." +:+ nl +:+
  "        If there are issues, provide specific corrections." +:+ nl +:+
  "        ".

(** The dict [expert_consultation_workflow] returns. *)
Record consultation : Type := {
  final_answer : string;
  research_analysis : string;
  communication_strategy : string;
  strategy_feedback_of : string;
  final_validation : string;
  conversation_history_of : list history_entry
}.

(** [CollaborativeOrchestrator.expert_consultation_workflow], from the
    conversation history [history] of the orchestrator object. *)
Definition expert_consultation_workflow (fuel : nat)
    (history : list history_entry) (user_question : string)
    : prog consultation :=
  (* Phase 1 *)
  '(research_result, history) ←
    send_task_and_wait fuel history llama_client
      (research_prompt user_question) "LlamaIndex-Research";
  (* Phase 2 *)
  '(comm_strategy, history) ←
    send_task_and_wait fuel history agno_client
      (comm_strategy_prompt user_question research_result) "Agno-Strategy";
  (* Phase 3 *)
  '(strategy_feedback, history) ←
    send_task_and_wait fuel history llama_client
      (strategy_review_prompt user_question research_result comm_strategy)
      "LlamaIndex-Review";
  (* Phase 4 *)
  '(final_explanation, history) ←
    send_task_and_wait fuel history agno_client
      (final_explanation_prompt user_question research_result comm_strategy
         strategy_feedback) "Agno-Final";
  (* Phase 5 *)
  '(final_validation, history) ←
    send_task_and_wait fuel history llama_client
      (final_check_prompt user_question final_explanation)
      "LlamaIndex-Validation";
  ret {| final_answer := final_explanation;
         research_analysis := research_result;
         communication_strategy := comm_strategy;
         strategy_feedback_of := strategy_feedback;
         final_validation := final_validation;
         conversation_history_of := history |}.

End OrchestrateExpert.

(** ** Vocabulary of the further properties *)

Module MoreProps.

(** Hook [m] leaves every task but [task_id] as it found it. *)
Definition keeps_others {A} (task_id : string) (m : Storage.W A) : Prop :=
  forall (w : Storage.world) (other : string),
    other <> task_id ->
    Storage.tasks (snd (m w)) !! other = Storage.tasks w !! other.

(** The world once a hook has marked task [task_id], stored as [t] in [w],
    as working and nothing more. *)
Definition after_working (w : Storage.world) (task_id : string) (t : Task)
    : Storage.world :=
  {| Storage.tasks :=
       <[task_id := recorded t working (task_artifacts t)]> (Storage.tasks w);
     Storage.updates := Storage.updates w ++ [call task_id working None] |}.

(** A capability result both workers read the same way: a plain [str], or
    an object with a ["text"] attribute. *)
Definition plain_or_text (r : response) : Prop :=
  (exists s, r = RStr s) \/ is_Some (getattr r "text").

Definition text_part (s : string) : TextPart :=
  {| part_type := "text"; part_text := s |}.

Definition is_send {X} (q : request X) : bool :=
  match q with
  | ReqSend _ _ => true
  | _ => false
  end.

(** [sends_at_most n p]: whatever its requests are answered, coroutine [p]
    submits at most [n] tasks. *)
Fixpoint sends_at_most {A} (n : nat) (p : prog A) : Prop :=
  match p with
  | Done _ => Logic.True
  | Await q k =>
      if is_send q then
        match n with
        | 0 => Logic.False
        | S n' => forall x, sends_at_most n' (k x)
        end
      else forall x, sends_at_most n (k x)
  | Append _ k => sends_at_most n k
  end.

(** Whatever its outcome, [m] extends the trace by at most [n]
    submissions. *)
Definition submits_at_most {A} (n : nat) (m : M A) : Prop :=
  forall w : world,
    exists evs,
      trace (snd (m w)) = trace w ++ evs /\ length (submitted evs) <= n.

(** Whatever its outcome, [m] extends the trace by one submission through
    each of the clients [cs], in this order. *)
Definition submits_through {A} (cs : list client) (m : M A) : Prop :=
  forall w : world,
    exists evs,
      trace (snd (m w)) = trace w ++ evs /\ map fst (submitted evs) = cs.

(** Whatever its outcome, [m] extends the trace by submissions through the
    clients [cs] in this order, as far as it gets. *)
Definition submits_along {A} (cs : list client) (m : M A) : Prop :=
  forall w : world,
    exists evs,
      trace (snd (m w)) = trace w ++ evs
      /\ map fst (submitted evs) `prefix_of` cs.

(** The seconds slept along a trace. *)
Definition seconds_slept (tr : list event) : nat := sum_list (slept tr).

(** The clients the sequential workflow submits to, step by step. *)
Definition sequential_clients : list client :=
  [llama_client; agno_client; llama_client; agno_client].

(** The clients the debate workflow submits to, in order. *)
Definition debate_clients : list client :=
  [agno_client; llama_client; agno_client; llama_client].

(** A fetch after which either polling loop without a retry handler goes
    round once more: a reply in a state that is not terminal. *)
Definition polled (o : outcome reply) : bool :=
  match o with
  | Ok r => negb (terminal_literal (reply_state r))
  | Err _ => false
  end.

(** The first [n] fetches of task [task_id] from history [h] on are each
    followed by another iteration of the polling loop of [orchestrate.py]. *)
Definition retried_first (env : remote) (c : client) (task_id : string)
    (n : nat) (h : list event) : Prop :=
  forall i, i < n ->
    retried (get_task_answer env (retry_trace env c task_id i h) c task_id)
    = true.

(** The same for a loop without a retry handler: the first [n] fetches each
    find a state that is not terminal. *)
Definition polled_first (env : remote) (c : client) (task_id : string)
    (n : nat) (h : list event) : Prop :=
  forall i, i < n ->
    polled (get_task_answer env (retry_trace env c task_id i h) c task_id)
    = true.

(** The answer to the fetch that follows [n] such fetches. *)
Definition next_answer (env : remote) (c : client) (task_id : string)
    (n : nat) (h : list event) : outcome reply :=
  get_task_answer env (retry_trace env c task_id n h) c task_id.

(** The world after [n] such fetches and one more. *)
Definition after_fetches (env : remote) (c : client) (task_id : string)
    (n : nat) (w : world) : world :=
  {| trace := retry_trace env c task_id n (trace w) ++ [EvGet c task_id];
     results := results w |}.

(** An environment in which every task completes at its first fetch with
    the text "ok". *)
Definition always_ok : remote :=
  {| send_task_answer := fun _ _ _ => Ok "t1"%string;
     get_task_answer := fun _ _ _ => Ok (reply_with "completed" "ok" None) |}.

(** The task is found working three times, then completed. *)
Definition three_polls_then_completed : remote :=
  {| send_task_answer := fun _ _ _ => Ok "t1"%string;
     get_task_answer := fun h _ _ =>
       if fetches h <? 3 then Ok (reply_with "working" "-" None)
       else Ok (reply_with "completed" "done" None) |}.

(** Every fetch fails with an error the handler does not recognise. *)
Definition connection_refused : remote :=
  {| send_task_answer := fun _ _ _ => Ok "t1"%string;
     get_task_answer := fun _ _ _ => Err (Exception "connection refused") |}.

(** The task is found completed, but without any artifact. *)
Definition completed_without_artifacts : remote :=
  {| send_task_answer := fun _ _ _ => Ok "t1"%string;
     get_task_answer := fun _ _ _ =>
       Ok {| reply_state := "completed"; reply_artifacts := Some [];
             reply_error := None |} |}.

(** The task is found canceled. *)
Definition found_canceled : remote :=
  {| send_task_answer := fun _ _ _ => Ok "t1"%string;
     get_task_answer := fun _ _ _ => Ok (reply_with "canceled" "-" None) |}.

End MoreProps.

Import MoreProps.

(** ** Vocabulary of the answers of the services *)

Module Answers.

(** The value request [q] resumes with when it is made at history [h]. *)
Definition answer {X} (env : remote) (q : request X) (h : list event) : X :=
  fst (perform env q {| trace := h; results := [] |}).

(** [completed_with env base full c task_id text]: along the trace [full],
    somewhere after its first part [base], task [task_id] was fetched
    through client [c], and the reply the service gave there shows the task
    completed, [text] being the text of the first part of its first
    artifact. *)
Definition completed_with (env : remote) (base full : list event)
    (c : client) (task_id text : string) : Prop :=
  exists mid rest reply,
    full = base ++ mid ++ EvGet c task_id :: rest
    /\ get_task_answer env (base ++ mid) c task_id = Ok reply
    /\ reply_state reply = "completed"%string
    /\ first_artifact_text reply = Ok text.

(** [answered env base full c prompt text]: along the trace [full],
    somewhere after [base], [prompt] was submitted through client [c]; the
    service named the new task, and a later fetch of that task found it
    completed with [text]. *)
Definition answered (env : remote) (base full : list event) (c : client)
    (prompt text : string) : Prop :=
  exists mid rest task_id,
    full = base ++ mid ++ EvSend c prompt :: rest
    /\ send_task_answer env (base ++ mid) c prompt = Ok task_id
    /\ completed_with env (base ++ mid ++ [EvSend c prompt]) full c task_id
         text.

(** [path_in env full p base items r]: coroutine [p], resumed after [base],
    appends [items] and ends with [r], each of its requests being made at
    some later point of the trace [full], one after the other, and resumed
    with what the services answer at that point. *)
Fixpoint path_in {A} (env : remote) (full : list event) (p : prog A)
    (base : list event) (items : list (string * string)) (r : result A)
    : Prop :=
  match p with
  | Done r' => items = [] /\ r = r'
  | Await q k =>
      exists mid,
        (exists rest, full = base ++ mid ++ event_of q :: rest)
        /\ path_in env full (k (answer env q (base ++ mid)))
             (base ++ mid ++ [event_of q]) items r
  | Append item k =>
      exists items', items = item :: items' /\ path_in env full k base items' r
  end.

(** [group_ran_in env a b w w']: a task group with the children [a] and [b]
    that ran from [w] to [w'] against the services [env], both children
    returning; the items appended to [results] are those of the two
    children in some interleaving. *)
Definition group_ran_in (env : remote) (a b : prog unit) (w w' : world)
    : Prop :=
  exists items_a items_b evs items,
    path_in env (trace w') a (trace w) items_a (Returns tt)
    /\ path_in env (trace w') b (trace w) items_b (Returns tt)
    /\ trace w' = trace w ++ evs
    /\ results w' = results w ++ items
    /\ items ≡ₚ items_a ++ items_b.

(** Scenario E: every Agno task is found completed with the text "x" and
    every LlamaIndex task with the text "y". *)
Definition x_and_y : remote :=
  {| send_task_answer := fun _ c _ =>
       Ok (match c with agno_client => "a" | llama_client => "l" end)%string;
     get_task_answer := fun _ c _ =>
       Ok (reply_with "completed"
             (match c with agno_client => "x" | llama_client => "y" end)
             None) |}.

(** The first Agno task is found completed and the second failed; the
    LlamaIndex tasks are found completed. *)
Definition agno_fails_late : remote :=
  {| send_task_answer := fun _ c _ =>
       Ok (match c with agno_client => "a" | llama_client => "l" end)%string;
     get_task_answer := fun h c _ =>
       match c with
       | agno_client =>
           if submissions h <? 4
           then Ok (reply_with "completed" "x" None)
           else Ok (reply_with "failed" "-" None)
       | llama_client => Ok (reply_with "completed" "y" None)
       end |}.

End Answers.

Import Answers.

(** * Properties *)

(** ** Workers *)

(** The terminal states are those written as one of the three literals the
    orchestrators test for. *)
Lemma terminal_state_literal (s : TaskState) :
  terminal_literal (state_literal s) = terminal s.
Proof. destruct s; reflexivity. Qed.

Section WorkerFacts.
Import Storage.

Lemma next_text_part_prompt_of (parts : list TextPart) (w : world) :
  next_text_part parts w =
    (match prompt_of parts with
     | Some prompt => Returns prompt
     | None => Raises StopIteration
     end, w).
Proof.
  induction parts as [|p rest IH]; simpl; [reflexivity|].
  destruct (String.eqb (part_type p) "text"); [reflexivity|apply IH].
Qed.

Lemma prompt_of_no_text (parts : list TextPart) :
  Forall (fun p => part_type p <> "text"%string) parts ->
  prompt_of parts = None.
Proof.
  induction 1 as [|p rest Hp _ IH]; simpl; [reflexivity|].
  destruct (String.eqb_spec (part_type p) "text"); [contradiction|exact IH].
Qed.

Lemma update_task_found (task_id : string) (state : TaskState)
    (artifacts : option (list Artifact)) (w : world) (t : Task) :
  tasks w !! task_id = Some t ->
  update_task task_id state artifacts w =
    (Returns tt,
     {| tasks := <[task_id :=
                    recorded t state
                      (task_artifacts t ++ default [] artifacts)]> (tasks w);
        updates := updates w ++ [call task_id state artifacts] |}).
Proof. intros H. unfold update_task. rewrite H. reflexivity. Qed.

End WorkerFacts.
Section WorkerRuns.
Import Storage.

Variables (cap : capability) (params : TaskParams) (w : world) (t : Task).
Variable prompt : string.
Hypothesis stored : tasks w !! params_id params = Some t.
Hypothesis has_text : prompt_of (params_parts params) = Some prompt.

Ltac run_hook :=
  unfold AgnoWorker.run_task, LlamaIndexWorker.run_task, coroutine,
    mbind, W_bind, bind, try_except, await;
  rewrite next_text_part_prompt_of, has_text;
  rewrite (update_task_found _ _ _ _ _ stored); cbn [default];
  rewrite app_nil_r.

Ltac second_update :=
  erewrite update_task_found by (cbn [tasks]; apply lookup_insert_eq);
  cbn [tasks updates recorded task_artifacts task_input task_error default];
  rewrite insert_insert_eq, <- app_assoc; unfold after_run;
  cbn [default]; rewrite ?app_nil_r.

Lemma agno_run_task_raises (e : exn) :
  cap prompt = Err e -> is_Exception e = true ->
  AgnoWorker.run_task cap params w =
    (Returns tt, after_run w (params_id params) t failed None).
Proof.
  intros Hcap He. run_hook. rewrite Hcap. cbn. rewrite He.
  second_update. reflexivity.
Qed.

Lemma llama_run_task_raises (e : exn) :
  cap prompt = Err e -> is_Exception e = true ->
  LlamaIndexWorker.run_task cap params w =
    (Returns tt, after_run w (params_id params) t failed None).
Proof.
  intros Hcap He. run_hook. rewrite Hcap. cbn. rewrite He.
  second_update. reflexivity.
Qed.

Lemma agno_run_task_returns (r : response) :
  cap prompt = Ok r ->
  AgnoWorker.run_task cap params w =
    (Returns tt,
     after_run w (params_id params) t completed
       (Some (answer_artifacts (AgnoWorker.extract_answer r)))).
Proof.
  intros Hcap. run_hook. rewrite Hcap. cbn.
  second_update. reflexivity.
Qed.

Lemma llama_run_task_returns (r : response) :
  cap prompt = Ok r ->
  LlamaIndexWorker.run_task cap params w =
    (Returns tt,
     after_run w (params_id params) t completed
       (Some (answer_artifacts (LlamaIndexWorker.extract_answer r)))).
Proof.
  intros Hcap. run_hook. rewrite Hcap. cbn.
  second_update. reflexivity.
Qed.

End WorkerRuns.

Lemma after_run_stored (w : Storage.world) (task_id : string) (t : Task)
    (state : TaskState) (arts : option (list Artifact)) :
  Storage.tasks (after_run w task_id t state arts) !! task_id =
    Some (recorded t state (task_artifacts t ++ default [] arts)).
Proof. apply lookup_insert_eq. Qed.

Lemma single_stored (task_id : string) (t : Task) :
  Storage.tasks (single task_id t) !! task_id = Some t.
Proof. apply lookup_singleton_eq. Qed.

(** C1, as the code has it.  When the capability call raises an exception
    that derives from [Exception], [run_task] of either worker returns
    having issued two updates, working and then failed, neither with
    artifacts: the stored task is in state failed, its artifacts are those
    it had before (none for a task as submitted) and its error field is the
    one it had before, no diagnostic being attached. *)
Theorem run_task_failure_recorded (cap : capability) (params : TaskParams)
    (w : Storage.world) (t : Task) (prompt : string) (e : exn) :
  Storage.tasks w !! params_id params = Some t ->
  prompt_of (params_parts params) = Some prompt ->
  cap prompt = Err e ->
  is_Exception e = true ->
  let w' := after_run w (params_id params) t failed None in
  AgnoWorker.run_task cap params w = (Returns tt, w')
  /\ LlamaIndexWorker.run_task cap params w = (Returns tt, w')
  /\ Storage.tasks w' !! params_id params
       = Some (recorded t failed (task_artifacts t))
  /\ task_error (recorded t failed (task_artifacts t)) = task_error t.
Proof.
  intros Hst Hp Hcap He w'. split; [|split; [|split]].
  - eapply agno_run_task_raises; eassumption.
  - eapply llama_run_task_raises; eassumption.
  - unfold w'. rewrite after_run_stored. cbn [default].
    rewrite app_nil_r. reflexivity.
  - reflexivity.
Qed.

Lemma run_task_failure_recorded_witness :
  let cap : capability := fun _ => Err (Exception "boom") in
  let w := single "t1" (new_task two_plus_two) in
  let w' := after_run w "t1" (new_task two_plus_two) failed None in
  AgnoWorker.run_task cap (params_t1 two_plus_two) w = (Returns tt, w')
  /\ LlamaIndexWorker.run_task cap (params_t1 two_plus_two) w
       = (Returns tt, w')
  /\ Storage.tasks w' !! "t1"%string
       = Some (recorded (new_task two_plus_two) failed [])
  /\ task_error (recorded (new_task two_plus_two) failed []) = None.
Proof.
  intros cap w w'.
  apply (run_task_failure_recorded cap (params_t1 two_plus_two) w
           (new_task two_plus_two) "2+2" (Exception "boom")).
  - apply single_stored.
  - reflexivity.
  - reflexivity.
  - reflexivity.
Defined.

(** C1 as the specification words it fails: after a capability failure the
    stored task carries no diagnostic string at all. *)
Lemma run_task_failure_attaches_no_error :
  let cap : capability := fun _ => Err (Exception "boom") in
  let w := single "t1" (new_task two_plus_two) in
  let w' := snd (AgnoWorker.run_task cap (params_t1 two_plus_two) w) in
  ~ (exists t' err,
        Storage.tasks w' !! "t1"%string = Some t'
        /\ task_state t' = failed
        /\ task_error t' = Some err
        /\ err <> EmptyString
        /\ task_artifacts t' = []).
Proof.
  intros cap w w' (t' & err & Hst & _ & Herr & _).
  unfold w' in Hst.
  rewrite (agno_run_task_raises cap (params_t1 two_plus_two) w
             (new_task two_plus_two) "2+2" (single_stored _ _) eq_refl
             (Exception "boom") eq_refl eq_refl) in Hst.
  cbn [snd] in Hst. rewrite after_run_stored in Hst.
  injection Hst as <-. discriminate Herr.
Qed.

(** C5, as the code has it.  When the capability call returns [r],
    [run_task] of either worker marks the task working and then completed,
    attaching exactly one artifact (index 0, last chunk) whose single part
    is a text part holding the extracted answer.  [AgnoWorker] probes the
    attributes ["text"], ["content"] and ["message"] in this order, taking
    the first two as they are and the third through [str], and falls back to
    [str] of the result; [LlamaIndexWorker] probes ["text"] only and falls
    back to the result object itself, unconverted. *)
Theorem run_task_success_recorded (cap : capability) (params : TaskParams)
    (w : Storage.world) (t : Task) (prompt : string) (r : response) :
  Storage.tasks w !! params_id params = Some t ->
  prompt_of (params_parts params) = Some prompt ->
  cap prompt = Ok r ->
  let agno_answer :=
    match getattr r "text", getattr r "content", getattr r "message" with
    | Some text, _, _ => text
    | None, Some content, _ => content
    | None, None, Some message => VStr (py_str message)
    | None, None, None => VStr (str r)
    end in
  let llama_answer :=
    match getattr r "text" with
    | Some text => text
    | None => as_value r
    end in
  let artifact_of answer :=
    {| art_index := 0;
       art_parts := [ {| apart_type := "text"; apart_text := answer |} ];
       art_lastChunk := true |} in
  let agno_w' :=
    after_run w (params_id params) t completed (Some [artifact_of agno_answer])
  in
  let llama_w' :=
    after_run w (params_id params) t completed
      (Some [artifact_of llama_answer]) in
  AgnoWorker.run_task cap params w = (Returns tt, agno_w')
  /\ Storage.tasks agno_w' !! params_id params
       = Some (recorded t completed
                 (task_artifacts t ++ [artifact_of agno_answer]))
  /\ LlamaIndexWorker.run_task cap params w = (Returns tt, llama_w')
  /\ Storage.tasks llama_w' !! params_id params
       = Some (recorded t completed
                 (task_artifacts t ++ [artifact_of llama_answer])).
Proof.
  intros Hst Hp Hcap agno_answer llama_answer artifact_of agno_w' llama_w'.
  assert (Ha : AgnoWorker.extract_answer r = agno_answer).
  { unfold AgnoWorker.extract_answer, agno_answer.
    destruct (getattr r "text"), (getattr r "content"),
      (getattr r "message"); reflexivity. }
  assert (Hl : LlamaIndexWorker.extract_answer r = llama_answer) by reflexivity.
  split; [|split; [|split]].
  - rewrite (agno_run_task_returns cap params w t prompt Hst Hp r Hcap).
    rewrite Ha. reflexivity.
  - apply after_run_stored.
  - rewrite (llama_run_task_returns cap params w t prompt Hst Hp r Hcap).
    rewrite Hl. reflexivity.
  - apply after_run_stored.
Qed.

(** Scenario A: input "2+2", capability result with a ["text"] field "4". *)
Lemma run_task_success_recorded_witness :
  let r := RObj {[ "text"%string := VStr "4" ]} "RunResponse" in
  let cap : capability := fun _ => Ok r in
  let w := single "t1" (new_task two_plus_two) in
  let artifact :=
    {| art_index := 0;
       art_parts := [ {| apart_type := "text"; apart_text := VStr "4" |} ];
       art_lastChunk := true |} in
  let w' :=
    after_run w "t1" (new_task two_plus_two) completed (Some [artifact]) in
  AgnoWorker.run_task cap (params_t1 two_plus_two) w = (Returns tt, w')
  /\ Storage.tasks w' !! "t1"%string
       = Some (recorded (new_task two_plus_two) completed [artifact])
  /\ LlamaIndexWorker.run_task cap (params_t1 two_plus_two) w
       = (Returns tt, w')
  /\ Storage.tasks w' !! "t1"%string
       = Some (recorded (new_task two_plus_two) completed [artifact]).
Proof.
  intros r cap w artifact w'.
  apply (run_task_success_recorded cap (params_t1 two_plus_two) w
           (new_task two_plus_two) "2+2" r).
  - vm_compute. reflexivity.
  - reflexivity.
  - reflexivity.
Defined.

(** C5 as the specification words it fails for both workers: a result that
    only has a ["message"] attribute makes [AgnoWorker] store the text of
    the message, not the string conversion of the result, and a result that
    only has a ["content"] attribute makes [LlamaIndexWorker] store the
    result object, not its content. *)
Lemma run_task_extraction_differs_from_spec_order :
  let agno_r := RObj {[ "message"%string := VStr "hello" ]} "RunResponse" in
  let llama_r :=
    RObj {[ "content"%string := VStr "hello" ]} "CompletionResponse" in
  let w := single "t1" (new_task two_plus_two) in
  let agno_w' :=
    snd (AgnoWorker.run_task (fun _ => Ok agno_r) (params_t1 two_plus_two) w)
  in
  let llama_w' :=
    snd (LlamaIndexWorker.run_task (fun _ => Ok llama_r)
           (params_t1 two_plus_two) w) in
  ~ (exists t',
        Storage.tasks agno_w' !! "t1"%string = Some t'
        /\ task_state t' = completed
        /\ task_artifacts t' = answer_artifacts (spec_extract agno_r))
  /\
  ~ (exists t',
        Storage.tasks llama_w' !! "t1"%string = Some t'
        /\ task_state t' = completed
        /\ task_artifacts t' = answer_artifacts (spec_extract llama_r)).
Proof.
  intros agno_r llama_r w agno_w' llama_w'. split.
  - intros (t' & Hst & _ & Harts). unfold agno_w' in Hst.
    rewrite (agno_run_task_returns _ (params_t1 two_plus_two) w
               (new_task two_plus_two) "2+2" (single_stored _ _) eq_refl
               agno_r eq_refl) in Hst.
    cbn [snd] in Hst. rewrite after_run_stored in Hst.
    injection Hst as <-. vm_compute in Harts. discriminate Harts.
  - intros (t' & Hst & _ & Harts). unfold llama_w' in Hst.
    rewrite (llama_run_task_returns _ (params_t1 two_plus_two) w
               (new_task two_plus_two) "2+2" (single_stored _ _) eq_refl
               llama_r eq_refl) in Hst.
    cbn [snd] in Hst. rewrite after_run_stored in Hst.
    injection Hst as <-. vm_compute in Harts. discriminate Harts.
Qed.

Section CancelFacts.
Import Storage.

Lemma cancel_task_found (params : TaskParams) (w : world) (t : Task) :
  tasks w !! params_id params = Some t ->
  AgnoWorker.cancel_task params w
    = (Returns tt, after_cancel w (params_id params) t)
  /\ LlamaIndexWorker.cancel_task params w
    = (Returns tt, after_cancel w (params_id params) t).
Proof.
  intros Hst.
  unfold AgnoWorker.cancel_task, LlamaIndexWorker.cancel_task.
  rewrite (update_task_found _ _ _ _ _ Hst). cbn [default].
  rewrite app_nil_r. split; reflexivity.
Qed.

End CancelFacts.

(** C6, as the code has it.  [cancel_task] of either worker does not look at
    the current state: on every stored task it issues one update that sets
    the state to canceled and leaves input, artifacts and error as they
    were.  So a completed or failed task moves to canceled, and only a task
    that is already canceled keeps its record. *)
Theorem cancel_task_always_cancels (params : TaskParams)
    (w : Storage.world) (t : Task) :
  Storage.tasks w !! params_id params = Some t ->
  let w' := after_cancel w (params_id params) t in
  AgnoWorker.cancel_task params w = (Returns tt, w')
  /\ LlamaIndexWorker.cancel_task params w = (Returns tt, w')
  /\ Storage.tasks w' !! params_id params
       = Some (recorded t canceled (task_artifacts t))
  /\ (task_state t = canceled -> Storage.tasks w' = Storage.tasks w).
Proof.
  intros Hst w'.
  destruct (cancel_task_found params w t Hst) as [Ha Hl].
  split; [exact Ha|]. split; [exact Hl|]. split.
  - apply lookup_insert_eq.
  - intros Hc. unfold w', after_cancel. cbn [Storage.tasks].
    apply insert_id. rewrite Hst. f_equal.
    destruct t as [i s a e]. cbn in Hc. subst s. reflexivity.
Qed.

Lemma cancel_task_always_cancels_witness :
  let done := recorded (new_task two_plus_two) completed
                (answer_artifacts (VStr "4")) in
  let w := single "t1" done in
  let w' := after_cancel w "t1" done in
  AgnoWorker.cancel_task (params_t1 []) w = (Returns tt, w')
  /\ LlamaIndexWorker.cancel_task (params_t1 []) w = (Returns tt, w')
  /\ Storage.tasks w' !! "t1"%string
       = Some (recorded done canceled (answer_artifacts (VStr "4")))
  /\ (completed = canceled -> Storage.tasks w' = Storage.tasks w).
Proof.
  intros done w w'.
  apply (cancel_task_always_cancels (params_t1 []) w done).
  vm_compute. reflexivity.
Defined.

(** C6 as the specification words it fails: a cancellation request for a
    completed task moves it out of its terminal state. *)
Lemma cancel_task_leaves_terminal_state :
  let done := recorded (new_task two_plus_two) completed
                (answer_artifacts (VStr "4")) in
  let w := single "t1" done in
  let w' := snd (AgnoWorker.cancel_task (params_t1 []) w) in
  ~ (forall t t',
        Storage.tasks w !! "t1"%string = Some t ->
        Storage.tasks w' !! "t1"%string = Some t' ->
        terminal (task_state t) = true ->
        task_state t' = task_state t).
Proof.
  intros done w w' H.
  specialize (H done (recorded done canceled (task_artifacts done))).
  assert (Hc : completed = canceled); [|discriminate Hc].
  symmetry. apply H.
  - apply single_stored.
  - unfold w'.
    destruct (cancel_task_found (params_t1 []) w done (single_stored _ _))
      as [-> _].
    apply lookup_insert_eq.
  - reflexivity.
Qed.

(** C9.  When no part of the message has type ["text"], the part-extraction
    expression raises [StopIteration] and [run_task] of either worker ends
    there, before its first storage call: the world is the one it started
    from, so no update was issued and every stored task, the one named by
    the request included, is as it was.  The exception leaves the coroutine
    as the [RuntimeError] Python puts in place of a [StopIteration]. *)
Theorem run_task_without_text_part (cap : capability) (params : TaskParams)
    (w : Storage.world) :
  Forall (fun p => part_type p <> "text"%string) (params_parts params) ->
  next_text_part (params_parts params) w = (Raises StopIteration, w)
  /\ AgnoWorker.run_task cap params w
       = (Raises (RuntimeError "coroutine raised StopIteration"), w)
  /\ LlamaIndexWorker.run_task cap params w
       = (Raises (RuntimeError "coroutine raised StopIteration"), w).
Proof.
  intros Hno. apply prompt_of_no_text in Hno.
  unfold AgnoWorker.run_task, LlamaIndexWorker.run_task, Storage.coroutine,
    mbind, W_bind, Storage.bind.
  rewrite next_text_part_prompt_of, Hno. cbn. auto.
Qed.

Lemma run_task_without_text_part_witness :
  let parts := [ {| part_type := "data"; part_text := "2+2" |} ] in
  let cap : capability := fun _ => Ok (RStr "4") in
  let w := single "t1" (new_task parts) in
  Forall (fun p => part_type p <> "text"%string) parts
  /\ next_text_part parts w = (Raises StopIteration, w)
  /\ AgnoWorker.run_task cap (params_t1 parts) w
       = (Raises (RuntimeError "coroutine raised StopIteration"), w)
  /\ LlamaIndexWorker.run_task cap (params_t1 parts) w
       = (Raises (RuntimeError "coroutine raised StopIteration"), w).
Proof.
  intros parts cap w.
  assert (H : Forall (fun p => part_type p <> "text"%string) parts).
  { repeat constructor. simpl. discriminate. }
  split; [exact H|].
  exact (run_task_without_text_part cap (params_t1 parts) w H).
Defined.

(** ** Running coroutines *)

Lemma run_bind {A B} (env : remote) (p : prog A) (f : A -> prog B)
    (w : world) :
  run env (p ≫= f) w =
    match run env p w with
    | (Returns a, w1) => run env (f a) w1
    | (Raises e, w1) => (Raises e, w1)
    | (Diverges, w1) => (Diverges, w1)
    end.
Proof.
  unfold mbind, prog_bind. revert w.
  induction p as [r|X q k IH|item k IH]; intros w; simpl.
  - destruct r; reflexivity.
  - destruct (perform env q w) as [x w1]. apply IH.
  - apply IH.
Qed.

Lemma run_try_except {A} (env : remote) (p : prog A)
    (handler : exn -> prog A) (w : world) :
  run env (try_except p handler) w =
    match run env p w with
    | (Raises e, w1) =>
        if is_Exception e then run env (handler e) w1 else (Raises e, w1)
    | other => other
    end.
Proof.
  revert w.
  induction p as [r|X q k IH|item k IH]; intros w; simpl.
  - destruct r as [a|e|]; try reflexivity.
    destruct (is_Exception e); reflexivity.
  - destruct (perform env q w) as [x w1]. apply IH.
  - apply IH.
Qed.

Lemma run_get_task (env : remote) (c : client) (task_id : string)
    (w : world) :
  run env (get_task c task_id) w =
    (match get_task_answer env (trace w) c task_id with
     | Ok r => Returns r
     | Err e => Raises e
     end, log (EvGet c task_id) w).
Proof.
  simpl. destruct (get_task_answer env (trace w) c task_id); reflexivity.
Qed.

Lemma run_send_task (env : remote) (c : client) (prompt : string)
    (w : world) :
  run env (send_task c prompt) w =
    (match send_task_answer env (trace w) c prompt with
     | Ok task_id => Returns task_id
     | Err e => Raises e
     end, log (EvSend c prompt) w).
Proof.
  simpl. destruct (send_task_answer env (trace w) c prompt); reflexivity.
Qed.

(** ** The polling loop of orchestrate.py *)

Section PollOnce.
Variables (env : remote) (c : client) (task_id service_name : string).
Variables (attempts : nat) (w : world).

Lemma transport_fault_true (e : exn) :
  transport_fault e = true ->
  is_Exception e = true
  /\ py_in "500" (exn_str e) || py_in "Internal Server Error" (exn_str e)
     = true.
Proof. unfold transport_fault. apply andb_true_iff. Qed.

Lemma terminal_literal_false (state : string) :
  terminal_literal state = false ->
  String.eqb state "completed" = false
  /\ String.eqb state "failed" = false
  /\ String.eqb state "canceled" = false.
Proof.
  unfold terminal_literal. intros H.
  apply orb_false_elim in H as [H H3]. apply orb_false_elim in H as [H1 H2].
  auto.
Qed.

(** A fetch that is a server fault or finds a state that is not terminal
    adds one to the counter, after a pause of 5 or 2 seconds. *)
Lemma poll_once_retried :
  retried (get_task_answer env (trace w) c task_id) = true ->
  run env (Orchestrate.poll_once attempts c task_id service_name) w =
    (Returns (Orchestrate.Continue (attempts + 1)),
     log (EvSleep (pause_after (get_task_answer env (trace w) c task_id)))
       (log (EvGet c task_id) w)).
Proof.
  intros Hr. unfold Orchestrate.poll_once.
  rewrite run_try_except, run_bind, run_get_task.
  destruct (get_task_answer env (trace w) c task_id) as [r|e]; simpl in Hr.
  - apply negb_true_iff, terminal_literal_false in Hr as (H1 & H2 & H3).
    cbv zeta. rewrite H1, H2, H3. reflexivity.
  - apply transport_fault_true in Hr as [He Hin].
    rewrite He, Hin. reflexivity.
Qed.

(** A fetch that finds the task completed, with a first artifact that has a
    first part, ends the wait with the text of that part. *)
Lemma poll_once_completed (r : reply) (text : string) :
  get_task_answer env (trace w) c task_id = Ok r ->
  reply_state r = "completed"%string ->
  first_artifact_text r = Ok text ->
  run env (Orchestrate.poll_once attempts c task_id service_name) w =
    (Returns (Orchestrate.Return_ text), log (EvGet c task_id) w).
Proof.
  intros Ho Hs Ht. unfold Orchestrate.poll_once.
  rewrite run_try_except, run_bind, run_get_task.
  rewrite Ho. cbv zeta. rewrite Hs, String.eqb_refl.
  rewrite run_bind, Ht. reflexivity.
Qed.

End PollOnce.

Lemma log_log (e1 e2 : event) (w : world) :
  log e2 (log e1 w) = {| trace := trace w ++ [e1; e2]; results := results w |}.
Proof. unfold log. simpl. rewrite <- app_assoc. reflexivity. Qed.

Section WaitLoop.
Variables (env : remote) (c : client) (task_id service_name : string).

Lemma wait_loop_exhausted (fuel : nat) (w : world) :
  run env (Orchestrate.wait_loop (S fuel) Orchestrate.max_attempts c task_id
             service_name) w
  = (Raises (timed_out service_name), w).
Proof. reflexivity. Qed.

Lemma wait_loop_retried (fuel attempts : nat) (w : world) :
  attempts < Orchestrate.max_attempts ->
  retried (get_task_answer env (trace w) c task_id) = true ->
  run env (Orchestrate.wait_loop (S fuel) attempts c task_id service_name) w
  = run env
      (Orchestrate.wait_loop fuel (attempts + 1) c task_id service_name)
      {| trace :=
           trace w ++
             [EvGet c task_id;
              EvSleep (pause_after (get_task_answer env (trace w) c task_id))];
         results := results w |}.
Proof.
  intros Hlt Hr. cbn [Orchestrate.wait_loop].
  apply Nat.ltb_lt in Hlt. rewrite Hlt.
  rewrite run_bind, poll_once_retried by exact Hr.
  rewrite log_log. reflexivity.
Qed.

Lemma wait_loop_completed (fuel attempts : nat) (w : world) (r : reply)
    (text : string) :
  attempts < Orchestrate.max_attempts ->
  get_task_answer env (trace w) c task_id = Ok r ->
  reply_state r = "completed"%string ->
  first_artifact_text r = Ok text ->
  run env (Orchestrate.wait_loop (S fuel) attempts c task_id service_name) w
  = (Returns text, log (EvGet c task_id) w).
Proof.
  intros Hlt Ho Hs Ht. cbn [Orchestrate.wait_loop].
  apply Nat.ltb_lt in Hlt. rewrite Hlt.
  rewrite run_bind, (poll_once_completed _ _ _ _ _ _ r text Ho Hs Ht).
  reflexivity.
Qed.

(** [n] fetches in a row that are retried, of either kind, use up [n] of
    the one counter. *)
Lemma wait_loop_runs_out (n : nat) :
  forall (fuel attempts : nat) (w : world),
    attempts + n = Orchestrate.max_attempts ->
    (forall i, i < n ->
       retried (get_task_answer env
                  (retry_trace env c task_id i (trace w)) c task_id) = true) ->
    run env
      (Orchestrate.wait_loop (S n + fuel) attempts c task_id service_name) w
    = (Raises (timed_out service_name),
       {| trace := retry_trace env c task_id n (trace w);
          results := results w |}).
Proof.
  induction n as [|n IH]; intros fuel attempts w Hsum Hall.
  - rewrite Nat.add_0_r in Hsum. subst attempts.
    rewrite wait_loop_exhausted. destruct w; reflexivity.
  - change (S (S n) + fuel) with (S (S n + fuel)).
    rewrite wait_loop_retried.
    + rewrite IH.
      * reflexivity.
      * lia.
      * intros i Hi. apply (Hall (S i)). lia.
    + lia.
    + apply (Hall 0). lia.
Qed.

End WaitLoop.

(** C2, as the code has it.  [wait_for_task_completion] of [orchestrate.py]
    keeps one counter.  A fetch that raises an exception whose text contains
    "500" or "Internal Server Error" adds one to it, as a fetch that finds a
    state that is not terminal does, and is followed by a pause of 5 seconds
    where a poll is followed by 2.  Hence (1) two such faults followed by a
    fetch that finds the task completed make the wait return the text of the
    completed task, and (2) sixty fetches that are faults or polls, in any
    mix, end the wait with the timed-out exception: no fault is ever
    propagated, and there is no budget of its own for faults. *)
Theorem wait_counts_faults_with_polls (env : remote) (c : client)
    (task_id service_name : string) (w : world) :
  (forall (e1 e2 : exn) (r : reply) (text : string),
      get_task_answer env (trace w) c task_id = Err e1 ->
      transport_fault e1 = true ->
      get_task_answer env (trace w ++ [EvGet c task_id; EvSleep 5])
        c task_id = Err e2 ->
      transport_fault e2 = true ->
      get_task_answer env
        (trace w ++ [EvGet c task_id; EvSleep 5; EvGet c task_id; EvSleep 5])
        c task_id = Ok r ->
      reply_state r = "completed"%string ->
      first_artifact_text r = Ok text ->
      run env (Orchestrate.wait_for_task_completion c task_id service_name) w
      = (Returns text,
         {| trace :=
              trace w ++ [EvGet c task_id; EvSleep 5; EvGet c task_id;
                          EvSleep 5; EvGet c task_id];
            results := results w |}))
  /\
  ((forall i, i < Orchestrate.max_attempts ->
      retried (get_task_answer env
                 (retry_trace env c task_id i (trace w)) c task_id) = true) ->
   run env (Orchestrate.wait_for_task_completion c task_id service_name) w
   = (Raises (timed_out service_name),
      {| trace := retry_trace env c task_id Orchestrate.max_attempts (trace w);
         results := results w |})).
Proof.
  split.
  - intros e1 e2 r text H1 F1 H2 F2 H3 Hs Ht.
    unfold Orchestrate.wait_for_task_completion.
    unfold Orchestrate.max_attempts at 1.
    rewrite wait_loop_retried;
      [|unfold Orchestrate.max_attempts; lia|rewrite H1; exact F1].
    rewrite H1. cbn [pause_after].
    rewrite wait_loop_retried;
      [|unfold Orchestrate.max_attempts; lia|cbn [trace]; rewrite H2; exact F2].
    cbn [trace results]. rewrite H2. cbn [pause_after].
    rewrite <- app_assoc. cbn [app].
    erewrite wait_loop_completed;
      [|unfold Orchestrate.max_attempts; lia|cbn [trace]; exact H3|exact Hs
       |exact Ht].
    unfold log. cbn [trace results]. rewrite <- app_assoc. reflexivity.
  - intros Hall. unfold Orchestrate.wait_for_task_completion.
    apply (wait_loop_runs_out env c task_id service_name
             Orchestrate.max_attempts 0 0 w eq_refl Hall).
Qed.

Lemma wait_counts_faults_with_polls_witness :
  run two_faults_then_completed
    (Orchestrate.wait_for_task_completion agno_client "t1" "Agno") start
  = (Returns "done"%string,
     {| trace := [EvGet agno_client "t1"; EvSleep 5; EvGet agno_client "t1";
                  EvSleep 5; EvGet agno_client "t1"];
        results := [] |})
  /\
  run working_then_faults
    (Orchestrate.wait_for_task_completion agno_client "t1" "Agno") start
  = (Raises (timed_out "Agno"),
     {| trace := retry_trace working_then_faults agno_client "t1" 60 [];
        results := [] |}).
Proof.
  split.
  - apply (proj1 (wait_counts_faults_with_polls two_faults_then_completed
                    agno_client "t1" "Agno" start)
             server_error server_error (reply_with "completed" "done" None)
             "done"); reflexivity.
  - apply (proj2 (wait_counts_faults_with_polls working_then_faults
                    agno_client "t1" "Agno" start)).
    intros i _. unfold working_then_faults. cbn [get_task_answer].
    destruct (fetches _ <? 59); reflexivity.
Defined.

(** C2 as the specification words it fails: after fifty-nine polls a single
    server fault uses up what is left of the one counter, and what the wait
    raises is the timed-out exception, not the server fault. *)
Lemma wait_does_not_propagate_transport_error :
  let r :=
    run working_then_faults
      (Orchestrate.wait_for_task_completion agno_client "t1" "Agno") start in
  transport_fault server_error = true
  /\ fetches (trace (snd r)) = 60
  /\ slept (trace (snd r)) = repeat 2 59 ++ [5]
  /\ fst r = Raises (timed_out "Agno")
  /\ fst r <> Raises server_error.
Proof.
  vm_compute. repeat split; discriminate.
Qed.

(** C4, at the failing input.  The first fetch finds the task failed, with
    the diagnostic "upstream returned 500".  The exception raised for the
    failed task is caught by the handler of the same [try] statement, which
    takes it for a server fault because of its text: the wait pauses 5
    seconds, fetches again and returns what a later fetch finds. *)
Theorem wait_retries_failed_task_mentioning_500 :
  run failed_with_500
    (Orchestrate.wait_for_task_completion agno_client "t1" "Agno") start
  = (Returns "late answer"%string,
     {| trace := [EvGet agno_client "t1"; EvSleep 5; EvGet agno_client "t1"];
        results := [] |}).
Proof. vm_compute. reflexivity. Qed.

(** ** The polling loop of orchestrate_parallel.py *)

Lemma parallel_wait_never_terminal (fuel : nat) :
  forall (c : client) (task_id service_name : string) (w : world),
    fst (run never_terminal
           (OrchestrateParallel.wait_for_task_completion fuel c task_id
              service_name) w) = Diverges.
Proof.
  induction fuel as [|fuel IH]; intros c task_id service_name w.
  - reflexivity.
  - cbn [OrchestrateParallel.wait_for_task_completion].
    rewrite run_bind, run_get_task. cbn [never_terminal get_task_answer].
    cbv zeta. cbn [reply_with reply_state String.eqb Ascii.eqb Bool.eqb].
    rewrite run_bind. cbn [sleep run perform]. apply IH.
Qed.

(** C3, at the failing input.  When every fetch finds the task working,
    [wait_for_task_completion] of [orchestrate_parallel.py] neither returns
    nor raises, however many iterations it is followed for: its loop is
    [while True], without a counter or a deadline. *)
Theorem parallel_wait_has_no_deadline (fuel : nat) :
  fst (run never_terminal
         (OrchestrateParallel.wait_for_task_completion fuel agno_client "t1"
            "Agno") start) = Diverges.
Proof. apply parallel_wait_never_terminal. Qed.

(** ** Termination of the polling loop of orchestrate.py *)

(** One pass through the loop body ends, and when it ends in another
    iteration the counter has grown by one. *)
Lemma poll_once_exits (env : remote) (c : client)
    (task_id service_name : string) (attempts : nat) (w : world) :
  match fst (run env (Orchestrate.poll_once attempts c task_id service_name) w)
  with
  | Returns (Orchestrate.Continue attempts') => attempts' = attempts + 1
  | Returns (Orchestrate.Return_ _) => Logic.True
  | Raises _ => Logic.True
  | Diverges => Logic.False
  end.
Proof.
  unfold Orchestrate.poll_once.
  rewrite run_try_except, run_bind, run_get_task.
  destruct (get_task_answer env (trace w) c task_id) as [r|e].
  - cbv zeta. destruct (String.eqb (reply_state r) "completed").
    { rewrite run_bind.
      destruct (first_artifact_text r) as [text|e] eqn:Ht; cbn [lift run ret raise fst].
      - exact I.
      - assert (He : is_Exception e = true).
        { unfold first_artifact_text in Ht.
          destruct (reply_artifacts r) as [[|a l]|];
            [| destruct (wart_parts a) |]; inversion Ht; reflexivity. }
        rewrite He.
        destruct (py_in "500" (exn_str e)
                  || py_in "Internal Server Error" (exn_str e));
          [reflexivity|exact I]. }
    destruct (String.eqb (reply_state r) "failed").
    { cbn [raise run Exception is_Exception exn_str].
      match goal with
      | |- context [if ?b then _ else _] => destruct b
      end; [reflexivity|exact I]. }
    destruct (String.eqb (reply_state r) "canceled").
    { cbn [raise run Exception is_Exception exn_str].
      match goal with
      | |- context [if ?b then _ else _] => destruct b
      end; [reflexivity|exact I]. }
    reflexivity.
  - destruct (is_Exception e); [|exact I].
    destruct (py_in "500" (exn_str e)
              || py_in "Internal Server Error" (exn_str e));
      [reflexivity|exact I].
Qed.

Lemma wait_loop_terminates (env : remote) (c : client)
    (task_id service_name : string) (fuel : nat) :
  forall (attempts : nat) (w : world),
    0 < fuel ->
    Orchestrate.max_attempts < fuel + attempts ->
    fst (run env
           (Orchestrate.wait_loop fuel attempts c task_id service_name) w)
    <> Diverges.
Proof.
  induction fuel as [|fuel IH]; intros attempts w Hpos Hlt; [lia|].
  cbn [Orchestrate.wait_loop].
  destruct (attempts <? Orchestrate.max_attempts) eqn:Hb.
  - apply Nat.ltb_lt in Hb. rewrite run_bind.
    pose proof (poll_once_exits env c task_id service_name attempts w) as H.
    destruct (run env
                (Orchestrate.poll_once attempts c task_id service_name) w)
      as [[[text|attempts']|e|] w1]; cbn [fst] in H |- *.
    + discriminate.
    + subst attempts'. apply IH; lia.
    + discriminate.
    + contradiction.
  - discriminate.
Qed.

(** The wait of [orchestrate.py] always ends: it returns or raises. *)
Lemma wait_for_task_completion_terminates (env : remote) (c : client)
    (task_id service_name : string) (w : world) :
  fst (run env
         (Orchestrate.wait_for_task_completion c task_id service_name) w)
  <> Diverges.
Proof.
  apply wait_loop_terminates; unfold Orchestrate.max_attempts; lia.
Qed.

(** ** The sequential workflow *)

Lemma submitted_app (a b : list event) :
  submitted (a ++ b) = submitted a ++ submitted b.
Proof.
  induction a as [|[c p|c t|n] a IH]; simpl; rewrite ?IH; reflexivity.
Qed.

(** One pass through the loop body submits nothing. *)
Lemma poll_once_submits_nothing (env : remote) (c : client)
    (task_id service_name : string) (attempts : nat) (w : world) :
  submitted
    (trace (snd (run env
                   (Orchestrate.poll_once attempts c task_id service_name) w)))
  = submitted (trace w).
Proof.
  unfold Orchestrate.poll_once.
  rewrite run_try_except, run_bind, run_get_task.
  destruct (get_task_answer env (trace w) c task_id) as [r|e]; cbv zeta.
  - destruct (String.eqb (reply_state r) "completed");
      [rewrite run_bind; destruct (first_artifact_text r) as [text|e]|
       destruct (String.eqb (reply_state r) "failed");
       [|destruct (String.eqb (reply_state r) "canceled")]];
      cbn [lift ret raise run Exception is_Exception exn_str];
      repeat match goal with
        | |- context [if ?b then _ else _] => destruct b
        end;
      cbn; rewrite ?submitted_app; cbn; rewrite ?app_nil_r; reflexivity.
  - repeat match goal with
      | |- context [if ?b then _ else _] => destruct b
      end;
      cbn; rewrite ?submitted_app; cbn; rewrite ?app_nil_r; reflexivity.
Qed.

Lemma wait_loop_submits_nothing (env : remote) (c : client)
    (task_id service_name : string) (fuel : nat) :
  forall (attempts : nat) (w : world),
    submitted
      (trace (snd (run env
                     (Orchestrate.wait_loop fuel attempts c task_id
                        service_name) w)))
    = submitted (trace w).
Proof.
  induction fuel as [|fuel IH]; intros attempts w; [reflexivity|].
  cbn [Orchestrate.wait_loop].
  destruct (attempts <? Orchestrate.max_attempts); [|reflexivity].
  rewrite run_bind.
  pose proof (poll_once_submits_nothing env c task_id service_name attempts w)
    as H.
  destruct (run env (Orchestrate.poll_once attempts c task_id service_name) w)
    as [[[text|attempts']|e|] w1]; cbn [snd] in H |- *; try exact H.
  rewrite IH. exact H.
Qed.

(** A step submits its prompt, once, whatever its outcome. *)
Lemma step_submits_once (env : remote) (c : client)
    (prompt service_name : string) (w : world) :
  submitted (trace (snd (step env c prompt service_name w)))
  = submitted (trace w) ++ [(c, prompt)].
Proof.
  unfold step, Orchestrate.send_task_to_service.
  rewrite run_bind, run_send_task.
  assert (Hlog : submitted (trace (log (EvSend c prompt) w))
                 = submitted (trace w) ++ [(c, prompt)]).
  { cbn. rewrite submitted_app. reflexivity. }
  destruct (send_task_answer env (trace w) c prompt) as [task_id|e].
  - unfold Orchestrate.wait_for_task_completion.
    rewrite wait_loop_submits_nothing. exact Hlog.
  - exact Hlog.
Qed.

(** The workflow is its four steps in a row, each fed what the steps before
    it returned, and it stops at the first step that does not return. *)
Lemma workflow_by_steps (env : remote) (p : string) (w : world) :
  run env (Orchestrate.orchestrate_collaborative_workflow p) w =
    (r1 ← step env llama_client (Orchestrate.llama_prompt p) "LlamaIndex";
     r2 ← step env agno_client (Orchestrate.agno_prompt p r1) "Agno";
     r3 ← step env llama_client (Orchestrate.validation_prompt p r2)
            "LlamaIndex";
     r4 ← step env agno_client (Orchestrate.final_prompt p r3 r2) "Agno";
     mret r4) w.
Proof.
  unfold Orchestrate.orchestrate_collaborative_workflow, step.
  unfold mbind at 9 10 11 12, M_bind, mbind_M.
  repeat (rewrite !run_bind;
          match goal with
          | |- context [run env (Orchestrate.send_task_to_service ?c ?q ?n) ?w0] =>
              destruct (run env (Orchestrate.send_task_to_service c q n) w0)
                as [[?|?|] ?]; try reflexivity
          | |- context [run env (Orchestrate.wait_for_task_completion ?c ?t ?n) ?w0] =>
              destruct (run env (Orchestrate.wait_for_task_completion c t n) w0)
                as [[?|?|] ?]; try reflexivity
          end).
Qed.

Lemma main_by_workflow (env : remote) (w : world) :
  run env Orchestrate.main w =
    match run env
            (Orchestrate.orchestrate_collaborative_workflow
               Orchestrate.initial_question) w with
    | (Returns final_answer, w') =>
        (Returns (Orchestrate.FinalResult final_answer), w')
    | (Raises e, w') => (main_on_failure e, w')
    | (Diverges, w') => (Diverges, w')
    end.
Proof.
  unfold Orchestrate.main. rewrite run_try_except, run_bind.
  destruct (run env _ w) as [[a|e|] w']; try reflexivity.
  unfold main_on_failure. destruct (is_Exception e); reflexivity.
Qed.

Ltac use_step H :=
  let S := fresh "Hsub" in
  match type of H with
  | step ?env ?c ?q ?n ?w0 = _ =>
      pose proof (step_submits_once env c q n w0) as S;
      rewrite H in S; cbn [snd] in S
  end.

(** C8, as the code has it.  When a step of the sequential workflow raises,
    that is, its submission or its wait ends with an exception, be it the
    one built for a task found failed or canceled, the timeout or anything
    else, the workflow raises that very exception.  The submissions made are
    those of the steps up to that one and nothing else, so no later step,
    each of which depends on it, is ever submitted.  [main] then ends with
    the error line built from the text of that exception (for one its
    handler catches) and prints no result: the outcome is made of the
    exception alone and carries no step number. *)
Theorem failed_step_stops_workflow (env : remote) (p : string) (w : world)
    (k : nat) (subs : list (client * string)) (e : exn) (w' : world) :
  fails_at env p w k subs e w' ->
  run env (Orchestrate.orchestrate_collaborative_workflow p) w
    = (Raises e, w')
  /\ submitted (trace w') = submitted (trace w) ++ subs
  /\ length subs = k
  /\ (p = Orchestrate.initial_question ->
      run env Orchestrate.main w = (main_on_failure e, w')).
Proof.
  intros Hfail.
  assert (Hrun : run env (Orchestrate.orchestrate_collaborative_workflow p) w
                 = (Raises e, w')).
  { rewrite workflow_by_steps. unfold mbind, M_bind, mbind_M.
    destruct Hfail;
      repeat match goal with
        | H : step _ _ _ _ _ = _ |- _ => rewrite H; clear H
        end; reflexivity. }
  split; [exact Hrun|]. split; [|split].
  - destruct Hfail;
      repeat match goal with
        | H : step _ _ _ _ _ = _ |- _ => use_step H; clear H
        end;
      repeat match goal with
        | H : submitted _ = _ |- _ => rewrite H; clear H
        end;
      rewrite <- ?app_assoc; reflexivity.
  - destruct Hfail; reflexivity.
  - intros ->. rewrite main_by_workflow, Hrun. reflexivity.
Qed.

(** Scenario F: the second step fails, the third and fourth are never
    submitted. *)
Lemma failed_step_stops_workflow_witness :
  let p := Orchestrate.initial_question in
  let e := Exception "Agno task failed: No error details available" in
  let subs := [(llama_client, Orchestrate.llama_prompt p);
               (agno_client, Orchestrate.agno_prompt p "y")] in
  exists w',
    fails_at agno_fails p start 2 subs e w'
    /\ run agno_fails (Orchestrate.orchestrate_collaborative_workflow p) start
       = (Raises e, w')
    /\ submitted (trace w') = subs
    /\ length subs = 2
    /\ run agno_fails Orchestrate.main start
       = (Returns
            (Orchestrate.ErrorLine
               ("[ORCH] Error in collaborative workflow: "
                +:+ "Agno task failed: No error details available")), w').
Proof.
  intros p e subs.
  assert (Hfail : exists w', fails_at agno_fails p start 2 subs e w').
  { eexists. eapply fails_2; reflexivity. }
  destruct Hfail as [w' Hfail]. exists w'.
  destruct (failed_step_stops_workflow agno_fails p start 2 subs e w' Hfail)
    as (Hrun & Hsub & Hlen & Hmain).
  split; [exact Hfail|]. split; [exact Hrun|]. split; [exact Hsub|].
  split; [exact Hlen|]. exact (Hmain eq_refl).
Defined.

(** C8 as the specification words it fails: the outcome of a failed run
    does not identify the failing step.  In one run the second step fails,
    after two submissions; in another the fourth, after four.  Both runs end
    with the same exception, and [main] with the same error line, which
    names the service and not the step. *)
Lemma outcome_does_not_identify_failing_step :
  let p := Orchestrate.initial_question in
  let e := Exception "Agno task failed: No error details available" in
  let line :=
    Orchestrate.ErrorLine
      ("[ORCH] Error in collaborative workflow: "
       +:+ "Agno task failed: No error details available") in
  exists subs2 w2 subs4 w4,
    fails_at agno_fails p start 2 subs2 e w2
    /\ fails_at agno_fails_late p start 4 subs4 e w4
    /\ fst (run agno_fails
              (Orchestrate.orchestrate_collaborative_workflow p) start)
       = Raises e
    /\ fst (run agno_fails_late
              (Orchestrate.orchestrate_collaborative_workflow p) start)
       = Raises e
    /\ fst (run agno_fails Orchestrate.main start) = Returns line
    /\ fst (run agno_fails_late Orchestrate.main start) = Returns line.
Proof.
  intros p e line. do 4 eexists.
  split; [eapply fails_2; reflexivity|].
  split; [eapply fails_4; reflexivity|].
  repeat split; vm_compute; reflexivity.
Qed.

(** The run that the defect of the polling loop lets through: the task of
    the first step is found failed with a diagnostic that mentions a status
    code, the wait takes the exception it has just built for a server fault
    and polls again, and the workflow goes on to submit all four steps and
    returns. *)
Lemma workflow_goes_on_after_failed_first_task :
  let p := Orchestrate.initial_question in
  let r :=
    run failed_with_500 (Orchestrate.orchestrate_collaborative_workflow p)
      start in
  get_task_answer failed_with_500
    [EvSend llama_client (Orchestrate.llama_prompt p)] llama_client "t1"
  = Ok (reply_with "failed" "-" (Some "upstream returned 500"%string))
  /\ fst r = Returns "late answer"%string
  /\ map fst (submitted (trace (snd r))) = sequential_clients.
Proof. vm_compute. repeat split; reflexivity. Qed.

(** ** Paths of the coroutines of orchestrate_parallel.py *)

Lemma path_bind_returns {A B} (p : prog A) (f : A -> prog B)
    (evs : list event) (items : list (string * string)) (b : B) :
  path (p ≫= f) evs items (Returns b) ->
  exists a evs1 items1 evs2 items2,
    path p evs1 items1 (Returns a)
    /\ path (f a) evs2 items2 (Returns b)
    /\ evs = evs1 ++ evs2
    /\ items = items1 ++ items2.
Proof.
  unfold mbind, prog_bind. revert evs items.
  induction p as [r|X q k IH|item k IH]; intros evs items H.
  - destruct r as [a|e|]; simpl in H.
    + exists a, [], [], evs, items. simpl. auto.
    + destruct H as (_ & _ & H). discriminate H.
    + destruct H as (_ & _ & H). discriminate H.
  - simpl in H. destruct H as (x & evs' & -> & H).
    apply IH in H as (a & evs1 & items1 & evs2 & items2 & H1 & H2 & -> & ->).
    exists a, (event_of q :: evs1), items1, evs2, items2.
    split; [|auto]. simpl. exists x, evs1. auto.
  - simpl in H. destruct H as (items' & -> & H).
    apply IH in H as (a & evs1 & items1 & evs2 & items2 & H1 & H2 & -> & ->).
    exists a, evs1, (item :: items1), evs2, items2.
    split; [|auto]. simpl. exists items1. auto.
Qed.

Lemma path_lift_returns {A} (o : outcome A) (evs : list event)
    (items : list (string * string)) (a : A) :
  path (lift o) evs items (Returns a) ->
  o = Ok a /\ evs = [] /\ items = [].
Proof.
  destruct o as [a'|e]; simpl; intros (-> & -> & H).
  - injection H as ->. auto.
  - discriminate H.
Qed.

Lemma path_raise_returns {A} (e : exn) (evs : list event)
    (items : list (string * string)) (a : A) :
  path (raise e) evs items (Returns a) -> Logic.False.
Proof. simpl. intros (_ & _ & H). discriminate H. Qed.

(** A wait that returns has fetched and slept, and nothing else. *)
Lemma parallel_wait_path (fuel : nat) (c : client)
    (task_id service_name : string) :
  forall (evs : list event) (items : list (string * string)) (text : string),
    path (OrchestrateParallel.wait_for_task_completion fuel c task_id
            service_name) evs items (Returns text) ->
    submitted evs = [] /\ items = [].
Proof.
  induction fuel as [|fuel IH]; intros evs items text H.
  - simpl in H. destruct H as (_ & _ & H). discriminate H.
  - cbn [OrchestrateParallel.wait_for_task_completion] in H.
    apply path_bind_returns in H
      as (reply & evs1 & items1 & evs2 & items2 & Hget & Hrest & -> & ->).
    simpl in Hget. destruct Hget as (o & evs' & -> & Hget).
    apply path_lift_returns in Hget as (-> & -> & ->).
    cbv zeta in Hrest.
    destruct (String.eqb (reply_state reply) "completed").
    { apply path_lift_returns in Hrest as (_ & -> & ->). auto. }
    destruct (String.eqb (reply_state reply) "failed").
    { apply path_raise_returns in Hrest. contradiction. }
    destruct (String.eqb (reply_state reply) "canceled").
    { apply path_raise_returns in Hrest. contradiction. }
    apply path_bind_returns in Hrest
      as (u & evs3 & items3 & evs4 & items4 & Hsleep & Hrest & -> & ->).
    simpl in Hsleep. destruct Hsleep as (x & evs' & -> & -> & -> & _).
    apply IH in Hrest as [Hs ->]. simpl. auto.
Qed.

Lemma process_path (fuel : nat) (c : client) (prompt service_name : string)
    (evs : list event) (items : list (string * string)) (text : string) :
  path (task_id ← OrchestrateParallel.send_task_to_service c prompt
                    service_name;
        OrchestrateParallel.wait_for_task_completion fuel c task_id
          service_name) evs items (Returns text) ->
  submitted evs = [(c, prompt)] /\ items = [].
Proof.
  intros H.
  apply path_bind_returns in H
    as (task_id & evs1 & items1 & evs2 & items2 & Hsend & Hwait & -> & ->).
  simpl in Hsend. destruct Hsend as (o & evs' & -> & Hsend).
  apply path_lift_returns in Hsend as (-> & -> & ->).
  apply parallel_wait_path in Hwait as [Hs ->].
  simpl. rewrite Hs. auto.
Qed.

Lemma start_soon_path {A} (p : prog A) (evs : list event)
    (items : list (string * string)) :
  path (OrchestrateParallel.start_soon p) evs items (Returns tt) ->
  exists a, path p evs items (Returns a).
Proof.
  intros H. unfold OrchestrateParallel.start_soon in H.
  apply path_bind_returns in H
    as (a & evs1 & items1 & evs2 & items2 & Hp & Hret & -> & ->).
  simpl in Hret. destruct Hret as (-> & -> & _).
  exists a. rewrite !app_nil_r. exact Hp.
Qed.

Lemma collect_path (tag : string) (p : prog string) (evs : list event)
    (items : list (string * string)) :
  path (result ← p; results_append (tag, result)) evs items (Returns tt) ->
  exists result evs1 items1,
    path p evs1 items1 (Returns result)
    /\ evs = evs1 /\ items = items1 ++ [(tag, result)].
Proof.
  intros H.
  apply path_bind_returns in H
    as (a & evs1 & items1 & evs2 & items2 & Hp & Happ & -> & ->).
  simpl in Happ. destruct Happ as (items' & -> & -> & -> & _).
  exists a, evs1, items1. rewrite app_nil_r. auto.
Qed.

(** ** Task groups *)

Section TaskGroup.
Variable env : remote.

Lemma perform_world {X} (q : request X) (w : world) :
  snd (perform env q w) = log (event_of q) w.
Proof. destruct q; reflexivity. Qed.

Lemma task_group_raises_l (e : exn) (b : prog unit) (sched : list bool)
    (w : world) :
  task_group env (Done (Raises e)) b sched w = (Raises e, w).
Proof. destruct b; reflexivity. Qed.

Lemma task_group_diverges_l (b : prog unit) (sched : list bool) (w : world) :
  task_group env (Done Diverges) b sched w = (Diverges, w).
Proof. destruct b; reflexivity. Qed.

Lemma task_group_append_l (item : string * string) (ka b : prog unit)
    (sched : list bool) (w : world) :
  task_group env (Append item ka) b sched w
  = task_group env ka b sched (push item w).
Proof. destruct b; reflexivity. Qed.

Lemma group_ran_done (w : world) :
  group_ran (Done (Returns tt)) (Done (Returns tt)) w w.
Proof.
  exists [], [], [], [], [], []. simpl. rewrite !app_nil_r.
  repeat split; reflexivity.
Qed.

Lemma group_ran_append_l (item : string * string) (ka b : prog unit)
    (w w' : world) :
  group_ran ka b (push item w) w' -> group_ran (Append item ka) b w w'.
Proof.
  intros (evs_a & items_a & evs_b & items_b & evs & items
          & Ha & Hb & Ht & Hr & Pe & Pi).
  exists evs_a, (item :: items_a), evs_b, items_b, evs, (item :: items).
  simpl in *. rewrite <- app_assoc in Hr.
  repeat split; eauto; try (constructor; exact Pi).
Qed.

Lemma group_ran_append_r (item : string * string) (a kb : prog unit)
    (w w' : world) :
  group_ran a kb (push item w) w' -> group_ran a (Append item kb) w w'.
Proof.
  intros (evs_a & items_a & evs_b & items_b & evs & items
          & Ha & Hb & Ht & Hr & Pe & Pi).
  exists evs_a, items_a, evs_b, (item :: items_b), evs, (item :: items).
  simpl in *. rewrite <- app_assoc in Hr.
  repeat split; eauto; try (rewrite Pi; apply Permutation_middle).
Qed.

Lemma group_ran_await_l {X} (q : request X) (ka : X -> prog unit)
    (b : prog unit) (x : X) (w w' : world) :
  group_ran (ka x) b (log (event_of q) w) w' ->
  group_ran (Await q ka) b w w'.
Proof.
  intros (evs_a & items_a & evs_b & items_b & evs & items
          & Ha & Hb & Ht & Hr & Pe & Pi).
  exists (event_of q :: evs_a), items_a, evs_b, items_b,
    (event_of q :: evs), items.
  simpl in *. rewrite <- app_assoc in Ht.
  repeat split; eauto; try (constructor; exact Pe).
Qed.

Lemma group_ran_await_r {X} (q : request X) (a : prog unit)
    (kb : X -> prog unit) (x : X) (w w' : world) :
  group_ran a (kb x) (log (event_of q) w) w' ->
  group_ran a (Await q kb) w w'.
Proof.
  intros (evs_a & items_a & evs_b & items_b & evs & items
          & Ha & Hb & Ht & Hr & Pe & Pi).
  exists evs_a, items_a, (event_of q :: evs_b), items_b,
    (event_of q :: evs), items.
  simpl in *. rewrite <- app_assoc in Ht.
  repeat split; eauto; try (rewrite Pe; apply Permutation_middle).
Qed.

(** A task group that returns has run both children to their return, under
    every schedule. *)
Lemma task_group_returns (a : prog unit) :
  forall (b : prog unit) (sched : list bool) (w w' : world),
    task_group env a b sched w = (Returns tt, w') ->
    group_ran a b w w'.
Proof.
  induction a as [ra|X qa ka IHa|item ka IHa]; intros b.
  - (* the first child is done *)
    destruct ra as [[]|e|].
    + induction b as [rb|Y qb kb IHb|item kb IHb]; intros sched w w' H.
      * simpl in H. injection H as -> ->. apply group_ran_done.
      * simpl in H. pose proof (perform_world qb w) as Hw.
        destruct (perform env qb w) as [x w1]. simpl in Hw. subst w1.
        apply (group_ran_await_r qb _ kb x). eapply IHb. exact H.
      * simpl in H. apply group_ran_append_r. eapply IHb. exact H.
    + intros sched w w' H. rewrite task_group_raises_l in H. discriminate H.
    + intros sched w w' H. rewrite task_group_diverges_l in H. discriminate H.
  - (* the first child is suspended *)
    induction b as [rb|Y qb kb IHb|item kb IHb]; intros sched w w' H.
    + destruct rb as [[]|e|]; simpl in H; try discriminate H.
      pose proof (perform_world qa w) as Hw.
      destruct (perform env qa w) as [x w1]. simpl in Hw. subst w1.
      apply (group_ran_await_l qa ka _ x). eapply IHa. exact H.
    + destruct sched as [|[|] sched'].
      * simpl in H. pose proof (perform_world qa w) as Hw.
        destruct (perform env qa w) as [x w1]. simpl in Hw. subst w1.
        apply (group_ran_await_l qa ka _ x). eapply IHa. exact H.
      * simpl in H. pose proof (perform_world qa w) as Hw.
        destruct (perform env qa w) as [x w1]. simpl in Hw. subst w1.
        apply (group_ran_await_l qa ka _ x). eapply IHa. exact H.
      * simpl in H. pose proof (perform_world qb w) as Hw.
        destruct (perform env qb w) as [x w1]. simpl in Hw. subst w1.
        apply (group_ran_await_r qb _ kb x). eapply IHb. exact H.
    + simpl in H. apply group_ran_append_r. eapply IHb. exact H.
  - (* the first child is about to append *)
    intros sched w w' H. rewrite task_group_append_l in H.
    apply group_ran_append_l. eapply IHa. exact H.
Qed.

End TaskGroup.

(** ** The parallel workflow *)

Lemma run_path {A} (env : remote) (p : prog A) :
  forall (w w' : world) (r : result A),
    run env p w = (r, w') ->
    exists evs items,
      path p evs items r
      /\ trace w' = trace w ++ evs
      /\ results w' = results w ++ items.
Proof.
  induction p as [r0|X q k IH|item k IH]; intros w w' r H; simpl in H.
  - injection H as -> ->. exists [], []. simpl. rewrite !app_nil_r. auto.
  - pose proof (perform_world env q w) as Hw.
    destruct (perform env q w) as [x w1]. simpl in Hw. subst w1.
    apply IH in H as (evs & items & Hp & Ht & Hr).
    exists (event_of q :: evs), items. simpl in *.
    rewrite <- app_assoc in Ht. eauto 7.
  - apply IH in H as (evs & items & Hp & Ht & Hr).
    exists evs, (item :: items). simpl in *.
    rewrite <- app_assoc in Hr. eauto 7.
Qed.

Lemma submitted_Permutation (l l' : list event) :
  l ≡ₚ l' -> submitted l ≡ₚ submitted l'.
Proof.
  induction 1 as [|e l l' _ IH|e1 e2 l|l l' l'' _ IH1 _ IH2].
  - reflexivity.
  - destruct e; simpl; [constructor|..]; exact IH.
  - destruct e1, e2; simpl; try reflexivity. apply perm_swap.
  - etransitivity; eassumption.
Qed.

Lemma prompts_for_Permutation (c : client) (l l' : list (client * string)) :
  l ≡ₚ l' -> prompts_for c l ≡ₚ prompts_for c l'.
Proof.
  induction 1 as [|[c1 p1] l l' _ IH|[c1 p1] [c2 p2] l|l l' l'' _ IH1 _ IH2].
  - reflexivity.
  - simpl. destruct (client_eqb c c1); [constructor|]; exact IH.
  - simpl. destruct (client_eqb c c1), (client_eqb c c2);
      try reflexivity. apply perm_swap.
  - etransitivity; eassumption.
Qed.

Lemma prompts_for_app (c : client) (l l' : list (client * string)) :
  prompts_for c (l ++ l') = prompts_for c l ++ prompts_for c l'.
Proof.
  induction l as [|[c1 p1] l IH]; simpl; [reflexivity|].
  destruct (client_eqb c c1); simpl; rewrite IH; reflexivity.
Qed.

Lemma sent_to_app (c : client) (l l' : list event) :
  sent_to c (l ++ l') = sent_to c l ++ sent_to c l'.
Proof. unfold sent_to. rewrite submitted_app. apply prompts_for_app. Qed.

(** What one child of either group submits. *)
Lemma group_sends (evs evs_a evs_b : list event) (pa pb : string) :
  evs ≡ₚ evs_a ++ evs_b ->
  submitted evs_a = [(agno_client, pa)] ->
  submitted evs_b = [(llama_client, pb)] ->
  sent_to agno_client evs = [pa] /\ sent_to llama_client evs = [pb].
Proof.
  intros P Ha Hb. apply submitted_Permutation in P.
  rewrite submitted_app, Ha, Hb in P. unfold sent_to. split.
  - apply (prompts_for_Permutation agno_client) in P. simpl in P.
    apply Permutation_singleton_r in P. exact P.
  - apply (prompts_for_Permutation llama_client) in P. simpl in P.
    apply Permutation_singleton_r in P. exact P.
Qed.

Section Groups.
Variables (env : remote) (fuel : nat) (p : string) (sched : list bool).

(** The first task group: each prompt is submitted once and nothing is kept
    of what the children return. *)
Lemma first_group_returns (w w1 : world) :
  task_group env
    (OrchestrateParallel.start_soon
       (OrchestrateParallel.process_with_agno fuel p))
    (OrchestrateParallel.start_soon
       (OrchestrateParallel.process_with_llama fuel p)) sched w
  = (Returns tt, w1) ->
  exists evs,
    trace w1 = trace w ++ evs
    /\ sent_to agno_client evs = [OrchestrateParallel.agno_prompt p]
    /\ sent_to llama_client evs = [OrchestrateParallel.llama_prompt p]
    /\ results w1 = results w.
Proof.
  intros H. apply task_group_returns in H
    as (evs_a & items_a & evs_b & items_b & evs & items
        & Ha & Hb & Ht & Hr & Pe & Pi).
  apply start_soon_path in Ha as [xa Ha]. apply process_path in Ha as [Sa ->].
  apply start_soon_path in Hb as [xb Hb]. apply process_path in Hb as [Sb ->].
  apply Permutation_nil_r in Pi. subst items. rewrite app_nil_r in Hr.
  destruct (group_sends evs evs_a evs_b _ _ Pe Sa Sb) as [Hagno Hllama].
  exists evs. auto.
Qed.

(** The second task group: each prompt is submitted once more, and what the
    two children return is appended to [results] under their tags, in the
    order in which they finish. *)
Lemma second_group_returns (w w2 : world) :
  task_group env
    (OrchestrateParallel.collect_agno fuel p)
    (OrchestrateParallel.collect_llama fuel p) sched w
  = (Returns tt, w2) ->
  exists evs items x y,
    trace w2 = trace w ++ evs
    /\ sent_to agno_client evs = [OrchestrateParallel.agno_prompt p]
    /\ sent_to llama_client evs = [OrchestrateParallel.llama_prompt p]
    /\ results w2 = results w ++ items
    /\ items ≡ₚ [("agno"%string, x); ("llama"%string, y)].
Proof.
  intros H. apply task_group_returns in H
    as (evs_a & items_a & evs_b & items_b & evs & items
        & Ha & Hb & Ht & Hr & Pe & Pi).
  apply collect_path in Ha as (x & evs_a' & items_a' & Ha & -> & ->).
  apply process_path in Ha as [Sa ->].
  apply collect_path in Hb as (y & evs_b' & items_b' & Hb & -> & ->).
  apply process_path in Hb as [Sb ->].
  destruct (group_sends evs evs_a' evs_b' _ _ Pe Sa Sb) as [Hagno Hllama].
  exists evs, items, x, y. simpl in Pi. auto 6.
Qed.

End Groups.

Lemma extract_results_two (results : list (string * string)) (x y : string) :
  results ≡ₚ [("agno"%string, x); ("llama"%string, y)] ->
  OrchestrateParallel.extract_results results None None = (Some x, Some y).
Proof.
  intros P. symmetry in P.
  apply Permutation_length_2_inv in P as [-> | ->]; reflexivity.
Qed.

Lemma mbind_M_returns {A B} (m : M A) (k : A -> M B) (w w' : world) (b : B) :
  (m ≫= k) w = (Returns b, w') ->
  exists a w1, m w = (Returns a, w1) /\ k a w1 = (Returns b, w').
Proof.
  unfold mbind, M_bind, mbind_M.
  destruct (m w) as [[a|e|] w1]; intros H; try discriminate H.
  exists a, w1. auto.
Qed.




(** ** What the children of a task group were answered *)

Lemma perform_answer {X} (env : remote) (q : request X) (w : world) :
  fst (perform env q w) = answer env q (trace w).
Proof. destruct q; reflexivity. Qed.

Lemma completed_with_base (env : remote) (base l full : list event)
    (c : client) (task_id text : string) :
  completed_with env (base ++ l) full c task_id text ->
  completed_with env base full c task_id text.
Proof.
  intros (mid & rest & reply & Hf & Ho & Hs & Ht).
  exists (l ++ mid), rest, reply. rewrite <- !app_assoc in *. auto.
Qed.

Lemma completed_with_later (env : remote) (base full more : list event)
    (c : client) (task_id text : string) :
  completed_with env base full c task_id text ->
  completed_with env base (full ++ more) c task_id text.
Proof.
  intros (mid & rest & reply & -> & Ho & Hs & Ht).
  exists mid, (rest ++ more), reply. rewrite <- !app_assoc. auto.
Qed.

Lemma answered_later (env : remote) (base full more : list event)
    (c : client) (prompt text : string) :
  answered env base full c prompt text ->
  answered env base (full ++ more) c prompt text.
Proof.
  intros (mid & rest & task_id & Hf & Ho & Hc).
  exists mid, (rest ++ more), task_id.
  split; [rewrite Hf, <- !app_assoc; reflexivity|]. split; [exact Ho|].
  apply completed_with_later. exact Hc.
Qed.

Section PathIn.
Variables (env : remote) (full : list event).

Lemma path_in_base {A} (p : prog A) :
  forall (base l : list event) (items : list (string * string))
         (r : result A),
    path_in env full p (base ++ l) items r ->
    path_in env full p base items r.
Proof.
  induction p as [r0|X q k _|item k IH]; intros base l items r H.
  - exact H.
  - simpl in H |- *. destruct H as (mid & (rest & Hf) & H).
    rewrite <- !app_assoc in Hf. rewrite <- !app_assoc in H.
    exists (l ++ mid). split; [exists rest|]; rewrite <- !app_assoc;
      assumption.
  - simpl in H |- *. destruct H as (items' & -> & H).
    exists items'. split; [reflexivity|]. eapply IH. exact H.
Qed.

Lemma path_in_bind_returns {A B} (p : prog A) (f : A -> prog B) :
  forall (base : list event) (items : list (string * string)) (b : B),
    path_in env full (p ≫= f) base items (Returns b) ->
    exists a items1 items2 l,
      path_in env full p base items1 (Returns a)
      /\ path_in env full (f a) (base ++ l) items2 (Returns b)
      /\ items = items1 ++ items2.
Proof.
  unfold mbind, prog_bind.
  induction p as [r|X q k IH|item k IH]; intros base items b H.
  - destruct r as [a|e|]; simpl in H.
    + exists a, [], items, []. rewrite app_nil_r. simpl. auto.
    + destruct H as (_ & H). discriminate H.
    + destruct H as (_ & H). discriminate H.
  - simpl in H. destruct H as (mid & Hf & H).
    apply IH in H as (a & items1 & items2 & l & H1 & H2 & ->).
    exists a, items1, items2, (mid ++ [event_of q] ++ l).
    split; [simpl; exists mid; auto|].
    split; [|reflexivity]. rewrite <- !app_assoc in H2. exact H2.
  - simpl in H. destruct H as (items' & -> & H).
    apply IH in H as (a & items1 & items2 & l & H1 & H2 & ->).
    exists a, (item :: items1), items2, l.
    split; [simpl; exists items1; auto|]. auto.
Qed.

(** A wait that returns was told by the service that the task is
    completed, and returns the text of that reply. *)
Lemma parallel_wait_path_in (c : client) (task_id service_name : string)
    (fuel : nat) :
  forall (base : list event) (items : list (string * string))
         (text : string),
    path_in env full
      (OrchestrateParallel.wait_for_task_completion fuel c task_id
         service_name) base items (Returns text) ->
    items = [] /\ completed_with env base full c task_id text.
Proof.
  induction fuel as [|fuel IH]; intros base items text H.
  - simpl in H. destruct H as (_ & H). discriminate H.
  - cbn [OrchestrateParallel.wait_for_task_completion] in H.
    unfold mbind, prog_bind, get_task in H. cbn [bind] in H.
    cbn [path_in] in H. destruct H as (mid & (rest & Hf) & H).
    unfold answer in H. cbn [perform fst trace event_of] in H.
    destruct (get_task_answer env (base ++ mid) c task_id) as [reply|e]
      eqn:Ho; cbn [lift ret raise bind] in H;
      [|destruct H as (_ & H); discriminate H].
    cbv zeta in H.
    destruct (String.eqb_spec (reply_state reply) "completed") as [Hs|_].
    { destruct (first_artifact_text reply) as [t|e] eqn:Ht;
        cbn [lift ret raise path_in] in H; destruct H as (-> & H);
        [|discriminate H].
      injection H as ->. split; [reflexivity|].
      exists mid, rest, reply. auto. }
    destruct (String.eqb (reply_state reply) "failed").
    { cbn [raise path_in] in H. destruct H as (_ & H). discriminate H. }
    destruct (String.eqb (reply_state reply) "canceled").
    { cbn [raise path_in] in H. destruct H as (_ & H). discriminate H. }
    unfold mbind, prog_bind, sleep in H. cbn [bind ret path_in] in H.
    destruct H as (mid2 & _ & H).
    apply IH in H as [-> H]. split; [reflexivity|].
    apply completed_with_base in H. apply completed_with_base in H.
    exact H.
Qed.


Lemma collect_path_in (tag : string) (p : prog string) (base : list event)
    (items : list (string * string)) :
  path_in env full (result ← p; results_append (tag, result)) base items
    (Returns tt) ->
  exists result items1,
    path_in env full p base items1 (Returns result)
    /\ items = items1 ++ [(tag, result)].
Proof.
  intros H. apply path_in_bind_returns in H
    as (a & items1 & items2 & l & Hp & Happ & ->).
  simpl in Happ. destruct Happ as (items' & -> & -> & _).
  exists a, items1. auto.
Qed.

End PathIn.

Section TaskGroupAnswers.
Variable env : remote.

Lemma group_ran_in_done (w : world) :
  group_ran_in env (Done (Returns tt)) (Done (Returns tt)) w w.
Proof.
  exists [], [], [], []. simpl. rewrite !app_nil_r. auto 6.
Qed.

Lemma group_ran_in_append_l (item : string * string) (ka b : prog unit)
    (w w' : world) :
  group_ran_in env ka b (push item w) w' ->
  group_ran_in env (Append item ka) b w w'.
Proof.
  intros (items_a & items_b & evs & items & Ha & Hb & Ht & Hr & Pi).
  exists (item :: items_a), items_b, evs, (item :: items).
  simpl in *. rewrite <- app_assoc in Hr.
  repeat split; eauto; try (constructor; exact Pi).
Qed.

Lemma group_ran_in_append_r (item : string * string) (a kb : prog unit)
    (w w' : world) :
  group_ran_in env a kb (push item w) w' ->
  group_ran_in env a (Append item kb) w w'.
Proof.
  intros (items_a & items_b & evs & items & Ha & Hb & Ht & Hr & Pi).
  exists items_a, (item :: items_b), evs, (item :: items).
  simpl in *. rewrite <- app_assoc in Hr.
  repeat split; eauto; try (rewrite Pi; apply Permutation_middle).
Qed.

Lemma group_ran_in_await_l {X} (q : request X) (ka : X -> prog unit)
    (b : prog unit) (w w' : world) :
  group_ran_in env (ka (answer env q (trace w))) b (log (event_of q) w) w' ->
  group_ran_in env (Await q ka) b w w'.
Proof.
  intros (items_a & items_b & evs & items & Ha & Hb & Ht & Hr & Pi).
  cbn [log trace results] in *.
  exists items_a, items_b, (event_of q :: evs), items.
  rewrite <- app_assoc in Ht.
  split; [|split; [|auto]].
  - cbn [path_in]. exists []. rewrite app_nil_r.
    split; [exists evs; exact Ht|exact Ha].
  - apply path_in_base in Hb. exact Hb.
Qed.

Lemma group_ran_in_await_r {X} (q : request X) (a : prog unit)
    (kb : X -> prog unit) (w w' : world) :
  group_ran_in env a (kb (answer env q (trace w))) (log (event_of q) w) w' ->
  group_ran_in env a (Await q kb) w w'.
Proof.
  intros (items_a & items_b & evs & items & Ha & Hb & Ht & Hr & Pi).
  cbn [log trace results] in *.
  exists items_a, items_b, (event_of q :: evs), items.
  rewrite <- app_assoc in Ht.
  split; [|split; [|auto]].
  - apply path_in_base in Ha. exact Ha.
  - cbn [path_in]. exists []. rewrite app_nil_r.
    split; [exists evs; exact Ht|exact Hb].
Qed.

Ltac resume q w :=
  let Hw := fresh "Hw" in
  let Hx := fresh "Hx" in
  let x := fresh "x" in
  let w1 := fresh "w1" in
  pose proof (perform_world env q w) as Hw;
  pose proof (perform_answer env q w) as Hx;
  destruct (perform env q w) as [x w1];
  cbn [fst snd] in Hw, Hx; subst x w1.

(** A task group that returns has run both children to their return, under
    every schedule, each request of either child answered by the services
    from the history of the whole group before it. *)
Lemma task_group_answers (a : prog unit) :
  forall (b : prog unit) (sched : list bool) (w w' : world),
    task_group env a b sched w = (Returns tt, w') ->
    group_ran_in env a b w w'.
Proof.
  induction a as [ra|X qa ka IHa|item ka IHa]; intros b.
  - destruct ra as [[]|e|].
    + induction b as [rb|Y qb kb IHb|item kb IHb]; intros sched w w' H.
      * simpl in H. injection H as -> ->. apply group_ran_in_done.
      * simpl in H. resume qb w.
        apply group_ran_in_await_r. eapply IHb. exact H.
      * simpl in H. apply group_ran_in_append_r. eapply IHb. exact H.
    + intros sched w w' H. rewrite task_group_raises_l in H. discriminate H.
    + intros sched w w' H. rewrite task_group_diverges_l in H. discriminate H.
  - induction b as [rb|Y qb kb IHb|item kb IHb]; intros sched w w' H.
    + destruct rb as [[]|e|]; simpl in H; try discriminate H.
      resume qa w. apply group_ran_in_await_l. eapply IHa. exact H.
    + destruct sched as [|[|] sched'].
      * simpl in H. resume qa w.
        apply group_ran_in_await_l. eapply IHa. exact H.
      * simpl in H. resume qa w.
        apply group_ran_in_await_l. eapply IHa. exact H.
      * simpl in H. resume qb w.
        apply group_ran_in_await_r. eapply IHb. exact H.
    + simpl in H. apply group_ran_in_append_r. eapply IHb. exact H.
  - intros sched w w' H. rewrite task_group_append_l in H.
    apply group_ran_in_append_l. eapply IHa. exact H.
Qed.


End TaskGroupAnswers.



(** C10, as the code has it.  In every invocation of
    [parallel_processing_workflow] that returns, under every interleaving of
    the two task groups: the first group returned, having submitted each
    fan-out prompt once and kept nothing of what its children returned; the
    second group, started on an empty [results], returned, having submitted
    each of the two prompts once more and appended what its children
    returned; those two values are the ones returned and the ones in the
    synthesis prompt.  Over the whole run the Agno client submitted its
    fan-out prompt twice and then the synthesis prompt, the LlamaIndex
    client its fan-out prompt twice, and nothing else. *)
Theorem parallel_workflow_submits_each_prompt_twice (env : remote)
    (fuel : nat) (sched1 sched2 : list bool) (p : string) (w w' : world)
    (final : string) (agno_result llama_result : option string) :
  OrchestrateParallel.parallel_processing_workflow env fuel sched1 sched2 p w
  = (Returns (final, agno_result, llama_result), w') ->
  exists (w1 w2 : world) (evs : list event) (x y : string),
    task_group env
      (OrchestrateParallel.start_soon
         (OrchestrateParallel.process_with_agno fuel p))
      (OrchestrateParallel.start_soon
         (OrchestrateParallel.process_with_llama fuel p)) sched1 w
    = (Returns tt, w1)
    /\ results w1 = results w
    /\ task_group env
         (OrchestrateParallel.collect_agno fuel p)
         (OrchestrateParallel.collect_llama fuel p) sched2
         {| trace := trace w1; results := [] |}
       = (Returns tt, w2)
    /\ results w2 ≡ₚ [("agno"%string, x); ("llama"%string, y)]
    /\ agno_result = Some x
    /\ llama_result = Some y
    /\ trace w' = trace w ++ evs
    /\ sent_to agno_client evs
       = [OrchestrateParallel.agno_prompt p;
          OrchestrateParallel.agno_prompt p;
          OrchestrateParallel.synthesis_prompt p (Some x) (Some y)]
    /\ sent_to llama_client evs
       = [OrchestrateParallel.llama_prompt p;
          OrchestrateParallel.llama_prompt p].
Proof.
  intros H. unfold OrchestrateParallel.parallel_processing_workflow in H.
  apply mbind_M_returns in H as ([] & w1 & G1 & H).
  apply mbind_M_returns in H as ([] & w1' & N & H).
  unfold new_results in N. injection N as <-.
  apply mbind_M_returns in H as ([] & w2 & G2 & H).
  apply mbind_M_returns in H as (res & w2' & R & H).
  unfold read_results in R. injection R as <- <-.
  destruct (first_group_returns env fuel p sched1 w w1 G1)
    as (evs1 & T1 & A1 & L1 & R1).
  destruct (second_group_returns env fuel p sched2 _ w2 G2)
    as (evs2 & items & x & y & T2 & A2 & L2 & R2 & P2).
  cbn [trace results app] in T2, R2. rewrite R2 in H.
  rewrite (extract_results_two items x y P2) in H.
  apply mbind_M_returns in H as (task_id & w3 & S3 & H).
  apply mbind_M_returns in H as (final' & w4 & W4 & H).
  unfold mret, M_ret, mret_M in H. injection H as <- <- <- <-.
  unfold OrchestrateParallel.send_task_to_service in S3.
  rewrite run_send_task in S3. injection S3 as _ <-.
  apply run_path in W4 as (evs4 & items4 & P4 & T4 & _).
  apply parallel_wait_path in P4 as [S4 _].
  exists w1, w2,
    (evs1 ++ evs2
       ++ EvSend agno_client
            (OrchestrateParallel.synthesis_prompt p (Some x) (Some y))
       :: evs4), x, y.
  split; [exact G1|]. split; [exact R1|]. split; [exact G2|].
  split; [rewrite R2; exact P2|]. split; [reflexivity|].
  split; [reflexivity|]. split.
  - rewrite T4. cbn [log trace]. rewrite T2, T1.
    rewrite <- !app_assoc. reflexivity.
  - rewrite !sent_to_app, A1, A2, L1, L2.
    unfold sent_to. cbn [submitted]. rewrite S4. split; reflexivity.
Qed.

(** A run in which the first pair of answers ("x1", "y2") differs from the
    second ("x4", "y3"), and the LlamaIndex child of the second group
    finishes first. *)
Lemma parallel_workflow_submits_each_prompt_twice_witness :
  let p := "Q"%string in
  let r :=
    OrchestrateParallel.parallel_processing_workflow answers_by_round 2 []
      [false; false] p start in
  r = (Returns ("x5"%string, Some "x4"%string, Some "y3"%string), snd r)
  /\ exists (w1 w2 : world) (evs : list event) (x y : string),
      task_group answers_by_round
        (OrchestrateParallel.start_soon
           (OrchestrateParallel.process_with_agno 2 p))
        (OrchestrateParallel.start_soon
           (OrchestrateParallel.process_with_llama 2 p)) [] start
      = (Returns tt, w1)
      /\ results w1 = results start
      /\ task_group answers_by_round
           (OrchestrateParallel.collect_agno 2 p)
           (OrchestrateParallel.collect_llama 2 p) [false; false]
           {| trace := trace w1; results := [] |}
         = (Returns tt, w2)
      /\ results w2 ≡ₚ [("agno"%string, x); ("llama"%string, y)]
      /\ Some "x4"%string = Some x
      /\ Some "y3"%string = Some y
      /\ trace (snd r) = trace start ++ evs
      /\ sent_to agno_client evs
         = [OrchestrateParallel.agno_prompt p;
            OrchestrateParallel.agno_prompt p;
            OrchestrateParallel.synthesis_prompt p (Some x) (Some y)]
      /\ sent_to llama_client evs
         = [OrchestrateParallel.llama_prompt p;
            OrchestrateParallel.llama_prompt p].
Proof.
  intros p r.
  assert (E : r = (Returns ("x5"%string, Some "x4"%string, Some "y3"%string),
                   snd r)) by (vm_compute; reflexivity).
  split; [exact E|].
  exact (parallel_workflow_submits_each_prompt_twice answers_by_round 2 []
           [false; false] p start (snd r) "x5" (Some "x4"%string)
           (Some "y3"%string) E).
Defined.

(** C10 as it is worded fails: in an invocation whose first task group
    finds the Agno task failed, the workflow raises out of that group, the
    second group never starts, and each fan-out prompt has been submitted
    once. *)
Lemma parallel_workflow_failure_submits_once :
  let r :=
    OrchestrateParallel.parallel_processing_workflow agno_fails 3
      [false; false] [] "Q" start in
  fst r = Raises (Exception "Agno task failed")
  /\ sent_to agno_client (trace (snd r)) = [OrchestrateParallel.agno_prompt "Q"]
  /\ sent_to llama_client (trace (snd r))
     = [OrchestrateParallel.llama_prompt "Q"]
  /\ sent_to agno_client (trace (snd r))
     <> [OrchestrateParallel.agno_prompt "Q";
         OrchestrateParallel.agno_prompt "Q"].
Proof.
  vm_compute. repeat split; discriminate.
Qed.

(** * Further properties *)

(** ** Workers: what a hook reads and what it leaves alone *)

Lemma prompt_of_first_text (pre post : list TextPart) (s : string) :
  Forall (fun p => part_type p <> "text"%string) pre ->
  prompt_of (pre ++ text_part s :: post) = Some s.
Proof.
  induction 1 as [|p pre Hp _ IH]; simpl; [reflexivity|].
  destruct (String.eqb_spec (part_type p) "text"); [contradiction|exact IH].
Qed.

Lemma run_task_by_prompt (cap : capability) (task_id : string)
    (parts parts' : list TextPart) (w : Storage.world) :
  prompt_of parts = prompt_of parts' ->
  AgnoWorker.run_task cap
    {| params_id := task_id; params_parts := parts |} w
  = AgnoWorker.run_task cap
      {| params_id := task_id; params_parts := parts' |} w
  /\ LlamaIndexWorker.run_task cap
       {| params_id := task_id; params_parts := parts |} w
     = LlamaIndexWorker.run_task cap
         {| params_id := task_id; params_parts := parts' |} w.
Proof.
  intros H.
  unfold AgnoWorker.run_task, LlamaIndexWorker.run_task, Storage.coroutine,
    mbind, W_bind, Storage.bind.
  cbn [params_id params_parts].
  rewrite !next_text_part_prompt_of, H. split; reflexivity.
Qed.

(** X1.  [run_task] of either worker reads the message through its first
    part of type ["text"] only: parts of other types before it and every
    part after it, text or not, make no difference to what the hook does. *)
Theorem run_task_reads_first_text_part (cap : capability) (task_id : string)
    (pre post : list TextPart) (s : string) (w : Storage.world) :
  Forall (fun p => part_type p <> "text"%string) pre ->
  AgnoWorker.run_task cap
    {| params_id := task_id; params_parts := pre ++ text_part s :: post |} w
  = AgnoWorker.run_task cap
      {| params_id := task_id; params_parts := [text_part s] |} w
  /\ LlamaIndexWorker.run_task cap
       {| params_id := task_id;
          params_parts := pre ++ text_part s :: post |} w
     = LlamaIndexWorker.run_task cap
         {| params_id := task_id; params_parts := [text_part s] |} w.
Proof.
  intros Hpre. apply run_task_by_prompt.
  rewrite (prompt_of_first_text pre post s Hpre). reflexivity.
Qed.

Lemma run_task_reads_first_text_part_witness :
  let cap : capability := fun prompt => Ok (RStr prompt) in
  let pre := [ {| part_type := "data"; part_text := "ignored" |} ] in
  let post := [ text_part "also ignored" ] in
  let w := single "t1" (new_task [text_part "2+2"]) in
  Forall (fun p => part_type p <> "text"%string) pre
  /\ AgnoWorker.run_task cap
       {| params_id := "t1"; params_parts := pre ++ text_part "2+2" :: post |}
       w
     = AgnoWorker.run_task cap
         {| params_id := "t1"; params_parts := [text_part "2+2"] |} w
  /\ LlamaIndexWorker.run_task cap
       {| params_id := "t1"; params_parts := pre ++ text_part "2+2" :: post |}
       w
     = LlamaIndexWorker.run_task cap
         {| params_id := "t1"; params_parts := [text_part "2+2"] |} w.
Proof.
  intros cap pre post w.
  assert (H : Forall (fun p => part_type p <> "text"%string) pre).
  { repeat constructor. simpl. discriminate. }
  split; [exact H|].
  exact (run_task_reads_first_text_part cap "t1" pre post "2+2" w H).
Defined.

Section KeepsOthers.
Import Storage.
Variable task_id : string.

Lemma keeps_ret {A} (a : A) : keeps_others task_id (ret a).
Proof. intros w other _. reflexivity. Qed.

Lemma keeps_raise {A} (e : exn) : keeps_others task_id (@raise A e).
Proof. intros w other _. reflexivity. Qed.

Lemma keeps_await {A} (o : outcome A) : keeps_others task_id (await o).
Proof. destruct o; [apply keeps_ret|apply keeps_raise]. Qed.

Lemma keeps_bind {A B} (m : W A) (k : A -> W B) :
  keeps_others task_id m ->
  (forall a, keeps_others task_id (k a)) ->
  keeps_others task_id (m ≫= k).
Proof.
  intros Hm Hk w other Hne. unfold mbind, W_bind, bind.
  specialize (Hm w other Hne).
  destruct (m w) as [[a|e|] w1]; cbn [snd] in Hm |- *; try exact Hm.
  rewrite (Hk a w1 other Hne). exact Hm.
Qed.

Lemma keeps_try_except {A} (body : W A) (handler : exn -> W A) :
  keeps_others task_id body ->
  (forall e, keeps_others task_id (handler e)) ->
  keeps_others task_id (try_except body handler).
Proof.
  intros Hb Hh w other Hne. unfold try_except.
  specialize (Hb w other Hne).
  destruct (body w) as [[a|e|] w1]; cbn [snd] in Hb |- *; try exact Hb.
  destruct (is_Exception e); cbn [snd]; [|exact Hb].
  rewrite (Hh e w1 other Hne). exact Hb.
Qed.

Lemma keeps_coroutine {A} (body : W A) :
  keeps_others task_id body -> keeps_others task_id (coroutine body).
Proof.
  intros Hb w other Hne. unfold coroutine.
  specialize (Hb w other Hne).
  destruct (body w) as [[a|e|] w1]; cbn [snd] in Hb |- *; try exact Hb.
  destruct (String.eqb (exn_class e) "StopIteration"); exact Hb.
Qed.

Lemma keeps_update_task (state : TaskState)
    (artifacts : option (list Artifact)) :
  keeps_others task_id (update_task task_id state artifacts).
Proof.
  intros w other Hne. unfold update_task.
  destruct (tasks w !! task_id); cbn [snd tasks]; [|reflexivity].
  apply lookup_insert_ne. congruence.
Qed.

Lemma keeps_next_text_part (parts : list TextPart) :
  keeps_others task_id (next_text_part parts).
Proof.
  intros w other _. rewrite next_text_part_prompt_of. reflexivity.
Qed.

End KeepsOthers.

(** X2.  No hook of either worker touches a task other than the one its
    request names: whatever the capability does and whatever is stored,
    after [run_task] or [cancel_task] every other task record is the one
    that was there before. *)
Theorem hooks_keep_other_tasks (cap : capability) (params : TaskParams)
    (w : Storage.world) (other : string) :
  other <> params_id params ->
  Storage.tasks (snd (AgnoWorker.run_task cap params w)) !! other
    = Storage.tasks w !! other
  /\ Storage.tasks (snd (LlamaIndexWorker.run_task cap params w)) !! other
     = Storage.tasks w !! other
  /\ Storage.tasks (snd (AgnoWorker.cancel_task params w)) !! other
     = Storage.tasks w !! other
  /\ Storage.tasks (snd (LlamaIndexWorker.cancel_task params w)) !! other
     = Storage.tasks w !! other.
Proof.
  intros Hne.
  assert (Hrun : forall extract : response -> value,
    keeps_others (params_id params)
      (Storage.coroutine
         (prompt ← next_text_part (params_parts params);
          Storage.update_task (params_id params) working None;;
          answer ← Storage.try_except
                     (response ← Storage.await (cap prompt);
                      Storage.ret (Some (extract response)))
                     (fun e =>
                        Storage.update_task (params_id params) failed None;;
                        Storage.ret None);
          match answer with
          | None => Storage.ret tt
          | Some answer =>
              Storage.update_task (params_id params) completed
                (Some (answer_artifacts answer))
          end))).
  { intros extract. apply keeps_coroutine.
    apply keeps_bind; [apply keeps_next_text_part|]. intros prompt.
    apply keeps_bind; [apply keeps_update_task|]. intros _.
    apply keeps_bind.
    - apply keeps_try_except.
      + apply keeps_bind; [apply keeps_await|]. intros r. apply keeps_ret.
      + intros e. apply keeps_bind; [apply keeps_update_task|].
        intros _. apply keeps_ret.
    - intros [answer|]; [apply keeps_update_task|apply keeps_ret]. }
  split; [exact (Hrun AgnoWorker.extract_answer w other Hne)|].
  split; [exact (Hrun LlamaIndexWorker.extract_answer w other Hne)|].
  split; exact (keeps_update_task (params_id params) canceled None w other Hne).
Qed.

Lemma hooks_keep_other_tasks_witness :
  let cap : capability := fun prompt => Ok (RStr prompt) in
  let params := params_t1 [text_part "2+2"] in
  let w :=
    {| Storage.tasks :=
         <["t2"%string := new_task [text_part "3+3"]]>
           {[ "t1"%string := new_task [text_part "2+2"] ]};
       Storage.updates := [] |} in
  "t2"%string <> params_id params
  /\ Storage.tasks (snd (AgnoWorker.run_task cap params w)) !! "t2"%string
     = Storage.tasks w !! "t2"%string
  /\ Storage.tasks (snd (LlamaIndexWorker.run_task cap params w))
       !! "t2"%string
     = Storage.tasks w !! "t2"%string
  /\ Storage.tasks (snd (AgnoWorker.cancel_task params w)) !! "t2"%string
     = Storage.tasks w !! "t2"%string
  /\ Storage.tasks (snd (LlamaIndexWorker.cancel_task params w))
       !! "t2"%string
     = Storage.tasks w !! "t2"%string.
Proof.
  intros cap params w.
  assert (H : "t2"%string <> params_id params) by discriminate.
  split; [exact H|].
  exact (hooks_keep_other_tasks cap params w "t2" H).
Defined.

(** ** Workers: failures the handler does not catch, and agreement *)

(** X3.  The handler of [run_task] is [except Exception]: when the
    capability call ends with an exception that does not derive from
    [Exception] (a cancellation, an interrupt), the hook does not mark the
    task failed.  The exception leaves the hook and the stored task stays in
    state working, the only update issued. *)
Theorem run_task_uncaught_leaves_working (cap : capability)
    (params : TaskParams) (w : Storage.world) (t : Task) (prompt : string)
    (e : exn) :
  Storage.tasks w !! params_id params = Some t ->
  prompt_of (params_parts params) = Some prompt ->
  cap prompt = Err e ->
  is_Exception e = false ->
  String.eqb (exn_class e) "StopIteration" = false ->
  let w' := after_working w (params_id params) t in
  AgnoWorker.run_task cap params w = (Raises e, w')
  /\ LlamaIndexWorker.run_task cap params w = (Raises e, w')
  /\ Storage.tasks w' !! params_id params
     = Some (recorded t working (task_artifacts t)).
Proof.
  intros Hst Hp Hcap He Hc w'.
  assert (Hw : Storage.tasks w' !! params_id params
               = Some (recorded t working (task_artifacts t)))
    by apply lookup_insert_eq.
  split; [|split; [|exact Hw]];
    unfold AgnoWorker.run_task, LlamaIndexWorker.run_task, Storage.coroutine,
      mbind, W_bind, Storage.bind, Storage.try_except, Storage.await;
    rewrite next_text_part_prompt_of, Hp;
    rewrite (update_task_found _ _ _ _ _ Hst); cbn [default];
    rewrite app_nil_r, Hcap; cbn; rewrite He, Hc; reflexivity.
Qed.

Lemma run_task_uncaught_leaves_working_witness :
  let cancelled :=
    {| exn_class := "CancelledError"; is_Exception := false;
       exn_str := EmptyString |} in
  let cap : capability := fun _ => Err cancelled in
  let params := params_t1 two_plus_two in
  let w := single "t1" (new_task two_plus_two) in
  let w' := after_working w "t1" (new_task two_plus_two) in
  AgnoWorker.run_task cap params w = (Raises cancelled, w')
  /\ LlamaIndexWorker.run_task cap params w = (Raises cancelled, w')
  /\ Storage.tasks w' !! "t1"%string
     = Some (recorded (new_task two_plus_two) working []).
Proof.
  intros cancelled cap params w w'.
  apply (run_task_uncaught_leaves_working cap params w
           (new_task two_plus_two) "2+2" cancelled).
  - vm_compute. reflexivity.
  - reflexivity.
  - reflexivity.
  - reflexivity.
  - reflexivity.
Defined.

Lemma extract_answer_agree (r : response) :
  plain_or_text r ->
  AgnoWorker.extract_answer r = LlamaIndexWorker.extract_answer r.
Proof.
  unfold AgnoWorker.extract_answer, LlamaIndexWorker.extract_answer.
  intros [[s ->]|[v Hv]].
  - reflexivity.
  - rewrite Hv. reflexivity.
Qed.

(** X4.  The two workers differ in how they read a capability result and in
    nothing else: with a capability whose results are plain strings or
    objects with a ["text"] attribute, [AgnoWorker.run_task] and
    [LlamaIndexWorker.run_task] do the same to the store on every request,
    in every world, also where the request has no text part, the task is
    unknown or the capability raises. *)
Theorem workers_agree_on_text_results (cap : capability)
    (params : TaskParams) (w : Storage.world) :
  (forall prompt r, cap prompt = Ok r -> plain_or_text r) ->
  AgnoWorker.run_task cap params w = LlamaIndexWorker.run_task cap params w.
Proof.
  intros Hcap.
  unfold AgnoWorker.run_task, LlamaIndexWorker.run_task, Storage.coroutine,
    mbind, W_bind, Storage.bind, Storage.try_except, Storage.await.
  rewrite next_text_part_prompt_of.
  destruct (prompt_of (params_parts params)) as [prompt|]; [|reflexivity].
  destruct (Storage.update_task (params_id params) working None w)
    as [[[]|e|] w1]; try reflexivity.
  destruct (cap prompt) as [r|e] eqn:Hr; [|reflexivity].
  cbn [Storage.ret Storage.raise].
  rewrite (extract_answer_agree r (Hcap prompt r Hr)). reflexivity.
Qed.

Lemma workers_agree_on_text_results_witness :
  let cap : capability :=
    fun prompt => Ok (RObj {[ "text"%string := VStr prompt ]} "Response") in
  let params := params_t1 two_plus_two in
  let w := single "t1" (new_task two_plus_two) in
  (forall prompt r, cap prompt = Ok r -> plain_or_text r)
  /\ AgnoWorker.run_task cap params w
     = LlamaIndexWorker.run_task cap params w.
Proof.
  intros cap params w.
  assert (H : forall prompt r, cap prompt = Ok r -> plain_or_text r).
  { intros prompt r Hr. injection Hr as <-. right.
    exists (VStr prompt). apply lookup_singleton_eq. }
  split; [exact H|].
  exact (workers_agree_on_text_results cap params w H).
Defined.

(** ** orchestrate.py: the wait, case by case *)

Lemma first_artifact_text_error (r : reply) (e : exn) :
  first_artifact_text r = Err e ->
  is_Exception e = true /\ transport_fault e = false.
Proof.
  unfold first_artifact_text.
  destruct (reply_artifacts r) as [[|a l]|]; [|destruct (wart_parts a)|];
    intros H; inversion H; split; reflexivity.
Qed.

Lemma transport_fault_false (e : exn) :
  transport_fault e = false ->
  is_Exception e = false
  \/ is_Exception e = true
     /\ py_in "500" (exn_str e) || py_in "Internal Server Error" (exn_str e)
        = false.
Proof.
  unfold transport_fault. destruct (is_Exception e); simpl; auto.
Qed.

Section PollOnceCases.
Variables (env : remote) (c : client) (task_id service_name : string).
Variables (attempts : nat) (w : world).

(** What the [except] clause makes of an exception raised in the [try]
    block, in the world [w1] reached there. *)
Lemma poll_once_raised (e : exn) (w1 : world) :
  transport_fault e = false ->
  (if is_Exception e
   then run env
          (if py_in "500" (exn_str e)
              || py_in "Internal Server Error" (exn_str e)
           then sleep 5;; ret (Orchestrate.Continue (attempts + 1))
           else raise e) w1
   else (Raises e, w1)) = (Raises e, w1).
Proof.
  intros H. apply transport_fault_false in H as [->|[-> ->]]; reflexivity.
Qed.

(** An exception of the fetch that is not taken for a server fault leaves
    the loop at once. *)
Lemma poll_once_fetch_error (e : exn) :
  get_task_answer env (trace w) c task_id = Err e ->
  transport_fault e = false ->
  run env (Orchestrate.poll_once attempts c task_id service_name) w
  = (Raises e, log (EvGet c task_id) w).
Proof.
  intros Ho Hf. unfold Orchestrate.poll_once.
  rewrite run_try_except, run_bind, run_get_task, Ho.
  apply poll_once_raised. exact Hf.
Qed.

(** A completed task whose text cannot be read leaves the loop at once with
    the exception of the indexing. *)
Lemma poll_once_unreadable (r : reply) (e : exn) :
  get_task_answer env (trace w) c task_id = Ok r ->
  reply_state r = "completed"%string ->
  first_artifact_text r = Err e ->
  run env (Orchestrate.poll_once attempts c task_id service_name) w
  = (Raises e, log (EvGet c task_id) w).
Proof.
  intros Ho Hs Ht. unfold Orchestrate.poll_once.
  rewrite run_try_except, run_bind, run_get_task, Ho.
  cbv zeta. rewrite Hs, String.eqb_refl, run_bind, Ht.
  cbn [lift raise run].
  apply poll_once_raised.
  apply (first_artifact_text_error r e Ht).
Qed.

Lemma poll_once_failed (r : reply) :
  get_task_answer env (trace w) c task_id = Ok r ->
  reply_state r = "failed"%string ->
  let e :=
    Exception
      (service_name +:+ " task failed: " +:+
       default "No error details available"%string (reply_error r)) in
  transport_fault e = false ->
  run env (Orchestrate.poll_once attempts c task_id service_name) w
  = (Raises e, log (EvGet c task_id) w).
Proof.
  intros Ho Hs e Hf. unfold Orchestrate.poll_once.
  rewrite run_try_except, run_bind, run_get_task, Ho.
  cbv zeta. rewrite Hs. cbn [String.eqb Ascii.eqb Bool.eqb raise run].
  apply (poll_once_raised e). exact Hf.
Qed.

Lemma poll_once_canceled (r : reply) :
  get_task_answer env (trace w) c task_id = Ok r ->
  reply_state r = "canceled"%string ->
  let e := Exception (service_name +:+ " task was canceled") in
  transport_fault e = false ->
  run env (Orchestrate.poll_once attempts c task_id service_name) w
  = (Raises e, log (EvGet c task_id) w).
Proof.
  intros Ho Hs e Hf. unfold Orchestrate.poll_once.
  rewrite run_try_except, run_bind, run_get_task, Ho.
  cbv zeta. rewrite Hs. cbn [String.eqb Ascii.eqb Bool.eqb raise run].
  apply (poll_once_raised e). exact Hf.
Qed.

(** Every way one pass through the loop body can end. *)
Lemma poll_once_cases :
  let r := run env (Orchestrate.poll_once attempts c task_id service_name) w
  in
  (exists reply text,
      get_task_answer env (trace w) c task_id = Ok reply
      /\ reply_state reply = "completed"%string
      /\ first_artifact_text reply = Ok text
      /\ r = (Returns (Orchestrate.Return_ text), log (EvGet c task_id) w))
  \/ (exists secs,
         (secs = 2 \/ secs = 5)
         /\ r = (Returns (Orchestrate.Continue (attempts + 1)),
                 log (EvSleep secs) (log (EvGet c task_id) w)))
  \/ (exists e, r = (Raises e, log (EvGet c task_id) w)).
Proof.
  intros r. subst r. unfold Orchestrate.poll_once.
  rewrite run_try_except, run_bind, run_get_task.
  destruct (get_task_answer env (trace w) c task_id) as [reply|e] eqn:Ho.
  - cbv zeta.
    destruct (String.eqb_spec (reply_state reply) "completed") as [Hs|_].
    { rewrite run_bind.
      destruct (first_artifact_text reply) as [text|e] eqn:Ht.
      - left. exists reply, text. auto.
      - right. right. exists e. cbn [lift raise run].
        apply poll_once_raised. apply (first_artifact_text_error _ _ Ht). }
    right.
    assert (Hexc : forall msg,
      let e := Exception msg in
      (exists secs, (secs = 2 \/ secs = 5)
         /\ (if is_Exception e
             then run env
                    (if py_in "500" (exn_str e)
                        || py_in "Internal Server Error" (exn_str e)
                     then sleep 5;; ret (Orchestrate.Continue (attempts + 1))
                     else raise e) (log (EvGet c task_id) w)
             else (Raises e, log (EvGet c task_id) w))
            = (Returns (Orchestrate.Continue (attempts + 1)),
               log (EvSleep secs) (log (EvGet c task_id) w)))
      \/ (exists e', (if is_Exception e
             then run env
                    (if py_in "500" (exn_str e)
                        || py_in "Internal Server Error" (exn_str e)
                     then sleep 5;; ret (Orchestrate.Continue (attempts + 1))
                     else raise e) (log (EvGet c task_id) w)
             else (Raises e, log (EvGet c task_id) w))
            = (Raises e', log (EvGet c task_id) w))).
    { intros msg e. cbn [e Exception is_Exception exn_str].
      destruct (py_in "500" msg || py_in "Internal Server Error" msg).
      - left. exists 5. auto.
      - right. exists (Exception msg). reflexivity. }
    destruct (String.eqb (reply_state reply) "failed"); [apply Hexc|].
    destruct (String.eqb (reply_state reply) "canceled"); [apply Hexc|].
    left. exists 2. auto.
  - right.
    destruct (transport_fault e) eqn:Hf.
    + left. exists 5. apply transport_fault_true in Hf as [-> ->]. auto.
    + right. exists e. apply poll_once_raised. exact Hf.
Qed.

End PollOnceCases.

(** ** orchestrate.py: the wait as a whole *)

Lemma fetches_app (a b : list event) :
  fetches (a ++ b) = fetches a + fetches b.
Proof.
  induction a as [|[c p|c t|n] a IH]; simpl; rewrite ?IH; reflexivity.
Qed.

Lemma seconds_slept_app (a b : list event) :
  seconds_slept (a ++ b) = seconds_slept a + seconds_slept b.
Proof.
  unfold seconds_slept.
  induction a as [|[c p|c t|n] a IH]; simpl; rewrite ?IH; lia.
Qed.

Section WaitAsAWhole.
Variables (env : remote) (c : client) (task_id service_name : string).

Lemma wait_loop_after_retries (n : nat) :
  forall (fuel attempts : nat) (w : world),
    attempts + n <= Orchestrate.max_attempts ->
    retried_first env c task_id n (trace w) ->
    run env
      (Orchestrate.wait_loop (n + fuel) attempts c task_id service_name) w
    = run env
        (Orchestrate.wait_loop fuel (attempts + n) c task_id service_name)
        {| trace := retry_trace env c task_id n (trace w);
           results := results w |}.
Proof.
  induction n as [|n IH]; intros fuel attempts w Hle Hall.
  - rewrite Nat.add_0_r. destruct w; reflexivity.
  - change (S n + fuel) with (S (n + fuel)).
    rewrite wait_loop_retried; [|lia|apply (Hall 0); lia].
    rewrite IH.
    + cbn [trace results retry_trace]. f_equal. f_equal. lia.
    + lia.
    + intros i Hi. apply (Hall (S i)). lia.
Qed.

(** After [n] retried fetches the wait is in the loop with counter [n]. *)
Lemma wait_after_retries (n : nat) (w : world) :
  n < Orchestrate.max_attempts ->
  retried_first env c task_id n (trace w) ->
  run env (Orchestrate.wait_for_task_completion c task_id service_name) w
  = (let (exit, w1) :=
       run env (Orchestrate.poll_once n c task_id service_name)
         {| trace := retry_trace env c task_id n (trace w);
            results := results w |} in
     match exit with
     | Returns (Orchestrate.Return_ text) => (Returns text, w1)
     | Returns (Orchestrate.Continue attempts') =>
         run env
           (Orchestrate.wait_loop (Orchestrate.max_attempts - n - 1 + 1)
              attempts' c task_id service_name) w1
     | Raises e => (Raises e, w1)
     | Diverges => (Diverges, w1)
     end).
Proof.
  intros Hlt Hall. unfold Orchestrate.wait_for_task_completion.
  replace (S Orchestrate.max_attempts)
    with (n + S (Orchestrate.max_attempts - n - 1 + 1)) by lia.
  rewrite wait_loop_after_retries; [|lia|exact Hall].
  cbn [Orchestrate.wait_loop]. rewrite Nat.add_0_l.
  apply Nat.ltb_lt in Hlt. rewrite Hlt. rewrite run_bind.
  destruct (run env (Orchestrate.poll_once n c task_id service_name) _)
    as [[[text|attempts']|e|] w1]; reflexivity.
Qed.

End WaitAsAWhole.

(** X5.  A fetch that raises an exception the handler does not take for a
    server fault (its text contains neither "500" nor "Internal Server
    Error", or it does not derive from [Exception]) ends the wait of
    [orchestrate.py] at once with that exception, also after earlier
    fetches were retried: it is not counted, not followed by a pause and not
    turned into a timeout. *)
Theorem wait_propagates_other_fetch_errors (env : remote) (c : client)
    (task_id service_name : string) (n : nat) (w : world) (e : exn) :
  n < Orchestrate.max_attempts ->
  retried_first env c task_id n (trace w) ->
  next_answer env c task_id n (trace w) = Err e ->
  transport_fault e = false ->
  run env (Orchestrate.wait_for_task_completion c task_id service_name) w
  = (Raises e, after_fetches env c task_id n w).
Proof.
  intros Hlt Hall Ho Hf.
  rewrite (wait_after_retries env c task_id service_name n w Hlt Hall).
  rewrite (poll_once_fetch_error env c task_id service_name n
            {| trace := retry_trace env c task_id n (trace w);
               results := results w |} e Ho Hf).
  reflexivity.
Qed.

Lemma wait_propagates_other_fetch_errors_witness :
  retried_first connection_refused agno_client "t1" 0 (trace start)
  /\ run connection_refused
       (Orchestrate.wait_for_task_completion agno_client "t1" "Agno") start
     = (Raises (Exception "connection refused"),
        {| trace := [EvGet agno_client "t1"]; results := [] |}).
Proof.
  assert (H : retried_first connection_refused agno_client "t1" 0
                (trace start)) by (intros i Hi; lia).
  split; [exact H|].
  apply (wait_propagates_other_fetch_errors connection_refused agno_client
           "t1" "Agno" 0 start (Exception "connection refused")).
  - unfold Orchestrate.max_attempts. lia.
  - exact H.
  - reflexivity.
  - reflexivity.
Defined.

(** X6.  A task found completed whose text cannot be read, because the
    reply has no ["artifacts"] entry, no artifact or no part in the first
    artifact, ends the wait of [orchestrate.py] at once with the [KeyError]
    or [IndexError] of the indexing expression: the handler re-raises it and
    no default text is returned. *)
Theorem wait_raises_on_unreadable_result (env : remote) (c : client)
    (task_id service_name : string) (n : nat) (w : world) (r : reply)
    (e : exn) :
  n < Orchestrate.max_attempts ->
  retried_first env c task_id n (trace w) ->
  next_answer env c task_id n (trace w) = Ok r ->
  reply_state r = "completed"%string ->
  first_artifact_text r = Err e ->
  run env (Orchestrate.wait_for_task_completion c task_id service_name) w
  = (Raises e, after_fetches env c task_id n w)
  /\ (e = KeyError "artifacts" \/ e = IndexError).
Proof.
  intros Hlt Hall Ho Hs Ht. split.
  - rewrite (wait_after_retries env c task_id service_name n w Hlt Hall).
    rewrite (poll_once_unreadable env c task_id service_name n
            {| trace := retry_trace env c task_id n (trace w);
               results := results w |} r e Ho Hs Ht).
    reflexivity.
  - unfold first_artifact_text in Ht.
    destruct (reply_artifacts r) as [[|a l]|]; [|destruct (wart_parts a)|];
      inversion Ht; auto.
Qed.

Lemma wait_raises_on_unreadable_result_witness :
  retried_first completed_without_artifacts agno_client "t1" 0 (trace start)
  /\ run completed_without_artifacts
       (Orchestrate.wait_for_task_completion agno_client "t1" "Agno") start
     = (Raises IndexError,
        {| trace := [EvGet agno_client "t1"]; results := [] |})
  /\ (IndexError = KeyError "artifacts" \/ IndexError = IndexError).
Proof.
  assert (H : retried_first completed_without_artifacts agno_client "t1" 0
                (trace start)) by (intros i Hi; lia).
  split; [exact H|].
  apply (wait_raises_on_unreadable_result completed_without_artifacts
           agno_client "t1" "Agno" 0 start
           {| reply_state := "completed"; reply_artifacts := Some [];
              reply_error := None |} IndexError).
  - unfold Orchestrate.max_attempts. lia.
  - exact H.
  - reflexivity.
  - reflexivity.
  - reflexivity.
Defined.

(** X7.  A task found failed or canceled ends the wait of [orchestrate.py]
    at once, provided the text of the exception built for it contains
    neither "500" nor "Internal Server Error".  For a failed task the
    exception carries the service name and the reply's ["error"] entry, or
    "No error details available" when the reply has none; for a canceled
    task it carries the service name. *)
Theorem wait_raises_on_failed_or_canceled (env : remote) (c : client)
    (task_id service_name : string) (n : nat) (w : world) (r : reply) :
  n < Orchestrate.max_attempts ->
  retried_first env c task_id n (trace w) ->
  next_answer env c task_id n (trace w) = Ok r ->
  let failure :=
    Exception
      (service_name +:+ " task failed: " +:+
       default "No error details available"%string (reply_error r)) in
  let cancellation := Exception (service_name +:+ " task was canceled") in
  (reply_state r = "failed"%string ->
   transport_fault failure = false ->
   run env (Orchestrate.wait_for_task_completion c task_id service_name) w
   = (Raises failure, after_fetches env c task_id n w))
  /\
  (reply_state r = "canceled"%string ->
   transport_fault cancellation = false ->
   run env (Orchestrate.wait_for_task_completion c task_id service_name) w
   = (Raises cancellation, after_fetches env c task_id n w)).
Proof.
  intros Hlt Hall Ho failure cancellation. split; intros Hs Hf.
  - rewrite (wait_after_retries env c task_id service_name n w Hlt Hall).
    rewrite (poll_once_failed env c task_id service_name n
            {| trace := retry_trace env c task_id n (trace w);
               results := results w |} r Ho Hs Hf).
    reflexivity.
  - rewrite (wait_after_retries env c task_id service_name n w Hlt Hall).
    rewrite (poll_once_canceled env c task_id service_name n
            {| trace := retry_trace env c task_id n (trace w);
               results := results w |} r Ho Hs Hf).
    reflexivity.
Qed.

Lemma wait_raises_on_failed_or_canceled_witness :
  run agno_fails
    (Orchestrate.wait_for_task_completion agno_client "a" "Agno") start
  = (Raises (Exception "Agno task failed: No error details available"),
     {| trace := [EvGet agno_client "a"]; results := [] |})
  /\
  run found_canceled
    (Orchestrate.wait_for_task_completion llama_client "t1" "LlamaIndex")
    start
  = (Raises (Exception "LlamaIndex task was canceled"),
     {| trace := [EvGet llama_client "t1"]; results := [] |}).
Proof.
  split.
  - apply (proj1 (wait_raises_on_failed_or_canceled agno_fails agno_client
                    "a" "Agno" 0 start (reply_with "failed" "-" None)
                    ltac:(unfold Orchestrate.max_attempts; lia)
                    ltac:(intros i Hi; lia) eq_refl)); reflexivity.
  - apply (proj2 (wait_raises_on_failed_or_canceled found_canceled
                    llama_client "t1" "LlamaIndex" 0 start
                    (reply_with "canceled" "-" None)
                    ltac:(unfold Orchestrate.max_attempts; lia)
                    ltac:(intros i Hi; lia) eq_refl)); reflexivity.
Defined.

(** X8.  Scenario C in general: after any number below sixty of fetches
    that are server faults or find a state that is not terminal, a fetch
    that finds the task completed makes the wait of [orchestrate.py] return
    the text of the first part of the first artifact; the pauses before it
    were of 5 seconds after each fault and of 2 seconds after each poll. *)
Theorem wait_returns_after_retries (env : remote) (c : client)
    (task_id service_name : string) (n : nat) (w : world) (r : reply)
    (text : string) :
  n < Orchestrate.max_attempts ->
  retried_first env c task_id n (trace w) ->
  next_answer env c task_id n (trace w) = Ok r ->
  reply_state r = "completed"%string ->
  first_artifact_text r = Ok text ->
  run env (Orchestrate.wait_for_task_completion c task_id service_name) w
  = (Returns text, after_fetches env c task_id n w).
Proof.
  intros Hlt Hall Ho Hs Ht.
  rewrite (wait_after_retries env c task_id service_name n w Hlt Hall).
  rewrite (poll_once_completed env c task_id service_name n
            {| trace := retry_trace env c task_id n (trace w);
               results := results w |} r text Ho Hs Ht).
  reflexivity.
Qed.

Lemma wait_returns_after_retries_witness :
  retried_first three_polls_then_completed agno_client "t1" 3 (trace start)
  /\ run three_polls_then_completed
       (Orchestrate.wait_for_task_completion agno_client "t1" "Agno") start
     = (Returns "done"%string,
        {| trace := [EvGet agno_client "t1"; EvSleep 2;
                     EvGet agno_client "t1"; EvSleep 2;
                     EvGet agno_client "t1"; EvSleep 2;
                     EvGet agno_client "t1"];
           results := [] |}).
Proof.
  assert (H : retried_first three_polls_then_completed agno_client "t1" 3
                (trace start)).
  { intros [|[|[|i]]] Hi; try reflexivity. lia. }
  split; [exact H|].
  apply (wait_returns_after_retries three_polls_then_completed agno_client
           "t1" "Agno" 3 start (reply_with "completed" "done" None) "done").
  - unfold Orchestrate.max_attempts. lia.
  - exact H.
  - reflexivity.
  - reflexivity.
  - reflexivity.
Defined.

(** ** orchestrate.py: bounds of the wait *)

Lemma wait_loop_bounded (env : remote) (c : client)
    (task_id service_name : string) (fuel : nat) :
  forall (attempts : nat) (w : world),
    exists evs,
      let w' :=
        snd (run env
               (Orchestrate.wait_loop fuel attempts c task_id service_name) w)
      in
      trace w' = trace w ++ evs
      /\ results w' = results w
      /\ submitted evs = []
      /\ fetches evs <= Orchestrate.max_attempts - attempts
      /\ seconds_slept evs <= 5 * fetches evs.
Proof.
  induction fuel as [|fuel IH]; intros attempts w.
  - exists []. cbn. rewrite app_nil_r. repeat split; lia.
  - cbn [Orchestrate.wait_loop].
    destruct (attempts <? Orchestrate.max_attempts) eqn:Hb.
    + apply Nat.ltb_lt in Hb. unfold Orchestrate.max_attempts in Hb.
      rewrite run_bind.
      destruct (poll_once_cases env c task_id service_name attempts w)
        as [(reply & text & _ & _ & _ & ->)
           |[(secs & Hsecs & ->)|(e & ->)]].
      * exists [EvGet c task_id]. cbn. repeat split; lia.
      * destruct (IH (attempts + 1)
                    (log (EvSleep secs) (log (EvGet c task_id) w)))
          as (evs & Ht & Hr & Hs & Hf & Hz).
        exists (EvGet c task_id :: EvSleep secs :: evs).
        cbv zeta in *. rewrite Ht, Hr. cbn [log trace results].
        rewrite <- !app_assoc. cbn [app submitted fetches].
        split; [reflexivity|]. split; [reflexivity|]. split; [exact Hs|].
        split; [unfold Orchestrate.max_attempts in *; lia|].
        change (EvGet c task_id :: EvSleep secs :: evs)
          with ([EvGet c task_id; EvSleep secs] ++ evs).
        rewrite seconds_slept_app. unfold seconds_slept at 1. cbn.
        destruct Hsecs as [-> | ->]; lia.
      * exists [EvGet c task_id]. cbn. repeat split; lia.
    + exists []. cbn. rewrite app_nil_r. repeat split; lia.
Qed.

Lemma wait_ends_within_bounds (env : remote) (c : client)
    (task_id service_name : string) (w : world) :
  let r :=
    run env (Orchestrate.wait_for_task_completion c task_id service_name) w
  in
  fst r <> Diverges
  /\ exists evs,
       trace (snd r) = trace w ++ evs
       /\ results (snd r) = results w
       /\ submitted evs = []
       /\ fetches evs <= 60
       /\ seconds_slept evs <= 300.
Proof.
  intros r. split.
  - apply wait_for_task_completion_terminates.
  - destruct (wait_loop_bounded env c task_id service_name
                (S Orchestrate.max_attempts) 0 w)
      as (evs & Ht & Hr & Hs & Hf & Hz).
    exists evs. cbv zeta in *. unfold Orchestrate.max_attempts in Hf.
    repeat split; try assumption; lia.
Qed.

(** X9.  The wait of [orchestrate.py] always ends, whatever the service
    answers: it returns or raises after at most 60 fetches and at most 300
    seconds of pauses, and it submits nothing. *)
Theorem wait_is_bounded (env : remote) (c : client)
    (task_id service_name : string) (w : world) :
  let r :=
    run env (Orchestrate.wait_for_task_completion c task_id service_name) w
  in
  fst r <> Diverges
  /\ exists evs,
       trace (snd r) = trace w ++ evs
       /\ results (snd r) = results w
       /\ submitted evs = []
       /\ fetches evs <= 60
       /\ seconds_slept evs <= 300.
Proof. apply wait_ends_within_bounds. Qed.

(** ** orchestrate.py: the wait returns for completed tasks only *)

Lemma wait_loop_returns_completed (env : remote) (c : client)
    (task_id service_name : string) (fuel : nat) :
  forall (attempts : nat) (w w' : world) (text : string),
    run env (Orchestrate.wait_loop fuel attempts c task_id service_name) w
    = (Returns text, w') ->
    exists h reply,
      trace w' = h ++ [EvGet c task_id]
      /\ get_task_answer env h c task_id = Ok reply
      /\ reply_state reply = "completed"%string
      /\ first_artifact_text reply = Ok text.
Proof.
  induction fuel as [|fuel IH]; intros attempts w w' text H.
  - discriminate H.
  - cbn [Orchestrate.wait_loop] in H.
    destruct (attempts <? Orchestrate.max_attempts); [|discriminate H].
    rewrite run_bind in H.
    destruct (poll_once_cases env c task_id service_name attempts w)
      as [(reply & text' & Ho & Hs & Ht & E)
         |[(secs & Hsecs & E)|(e & E)]];
      rewrite E in H.
    + injection H as <- <-. exists (trace w), reply. auto.
    + apply IH in H. exact H.
    + discriminate H.
Qed.

(** X10.  The wait of [orchestrate.py] never returns for a task that is not
    completed: when it returns a text, its last act was a fetch that found
    the task in state ["completed"], and the text is that of the first part
    of the first artifact of that reply. *)
Theorem wait_returns_only_when_completed (env : remote) (c : client)
    (task_id service_name : string) (w w' : world) (text : string) :
  run env (Orchestrate.wait_for_task_completion c task_id service_name) w
  = (Returns text, w') ->
  exists h reply,
    trace w' = h ++ [EvGet c task_id]
    /\ get_task_answer env h c task_id = Ok reply
    /\ reply_state reply = "completed"%string
    /\ first_artifact_text reply = Ok text.
Proof. apply wait_loop_returns_completed. Qed.

Lemma wait_returns_only_when_completed_witness :
  let w' :=
    {| trace := [EvGet agno_client "t1"; EvSleep 5; EvGet agno_client "t1";
                 EvSleep 5; EvGet agno_client "t1"];
       results := [] |} in
  run two_faults_then_completed
    (Orchestrate.wait_for_task_completion agno_client "t1" "Agno") start
  = (Returns "done"%string, w')
  /\ exists h reply,
       trace w' = h ++ [EvGet agno_client "t1"]
       /\ get_task_answer two_faults_then_completed h agno_client "t1"
          = Ok reply
       /\ reply_state reply = "completed"%string
       /\ first_artifact_text reply = Ok "done"%string.
Proof.
  intros w'.
  assert (E : run two_faults_then_completed
                (Orchestrate.wait_for_task_completion agno_client "t1" "Agno")
                start = (Returns "done"%string, w'))
    by (vm_compute; reflexivity).
  split; [exact E|].
  exact (wait_returns_only_when_completed two_faults_then_completed
           agno_client "t1" "Agno" start w' "done" E).
Defined.

(** ** orchestrate.py: the workflow and [main] as a whole *)

Lemma step_bounded (env : remote) (c : client) (prompt service_name : string)
    (w : world) :
  let r := step env c prompt service_name w in
  fst r <> Diverges
  /\ exists evs,
       trace (snd r) = trace w ++ evs
       /\ submitted evs = [(c, prompt)]
       /\ fetches evs <= 60
       /\ seconds_slept evs <= 300.
Proof.
  unfold step, Orchestrate.send_task_to_service.
  rewrite run_bind, run_send_task.
  destruct (send_task_answer env (trace w) c prompt) as [task_id|e].
  - destruct (wait_ends_within_bounds env c task_id service_name
                (log (EvSend c prompt) w))
      as (Hd & evs & Ht & _ & Hs & Hf & Hz).
    cbv zeta in *. split; [exact Hd|].
    exists (EvSend c prompt :: evs). rewrite Ht. cbn [log trace].
    rewrite <- app_assoc. cbn [app submitted fetches]. rewrite Hs.
    change (EvSend c prompt :: evs) with ([EvSend c prompt] ++ evs).
    rewrite seconds_slept_app. cbn. auto.
  - cbn. split; [discriminate|]. exists [EvSend c prompt]. cbn.
    repeat split; lia.
Qed.

Lemma wait_loop_completed_with (env : remote) (c : client)
    (task_id service_name : string) (fuel : nat) :
  forall (attempts : nat) (w w' : world) (text : string),
    run env (Orchestrate.wait_loop fuel attempts c task_id service_name) w
    = (Returns text, w') ->
    completed_with env (trace w) (trace w') c task_id text.
Proof.
  induction fuel as [|fuel IH]; intros attempts w w' text H.
  - discriminate H.
  - cbn [Orchestrate.wait_loop] in H.
    destruct (attempts <? Orchestrate.max_attempts); [|discriminate H].
    rewrite run_bind in H.
    destruct (poll_once_cases env c task_id service_name attempts w)
      as [(reply & text' & Ho & Hs & Ht & E)
         |[(secs & Hsecs & E)|(e & E)]];
      rewrite E in H.
    + injection H as <- <-. exists [], [], reply.
      rewrite app_nil_r. auto.
    + apply IH in H. cbn [log trace] in H.
      apply completed_with_base in H. apply completed_with_base in H.
      exact H.
    + discriminate H.
Qed.

(** A step that returns has submitted its prompt, and returns what the
    service answered for the task so created. *)
Lemma step_answered (env : remote) (c : client)
    (prompt service_name : string) (w w' : world) (text : string) :
  step env c prompt service_name w = (Returns text, w') ->
  answered env (trace w) (trace w') c prompt text.
Proof.
  unfold step, Orchestrate.send_task_to_service,
    Orchestrate.wait_for_task_completion.
  rewrite run_bind, run_send_task.
  destruct (send_task_answer env (trace w) c prompt) as [task_id|e] eqn:Ho;
    [|discriminate].
  intros H. apply wait_loop_completed_with in H as Hc.
  cbn [log trace] in Hc.
  destruct Hc as (mid & rest & reply & Hf & Hc).
  exists [], (mid ++ EvGet c task_id :: rest), task_id.
  rewrite app_nil_r. cbn [app].
  split; [rewrite Hf, <- app_assoc; reflexivity|]. split; [exact Ho|].
  exists mid, rest, reply. auto.
Qed.

(** X11.  Every run of the sequential workflow that returns has gone
    through its four steps, each of which returned: the prompt of each step
    was submitted, to LlamaIndex, Agno, LlamaIndex and Agno in this order
    and nothing else, and the step returned what its service answered for
    that task.  Each prompt after the first embeds the answers of earlier
    steps (the final prompt both the validation and the first Agno answer),
    and the value returned is the answer to the fourth. *)
Theorem workflow_returns_after_four_steps (env : remote) (p : string)
    (w w' : world) (final : string) :
  run env (Orchestrate.orchestrate_collaborative_workflow p) w
  = (Returns final, w') ->
  exists r1 w1 r2 w2 r3 w3,
    step env llama_client (Orchestrate.llama_prompt p) "LlamaIndex" w
    = (Returns r1, w1)
    /\ step env agno_client (Orchestrate.agno_prompt p r1) "Agno" w1
       = (Returns r2, w2)
    /\ step env llama_client (Orchestrate.validation_prompt p r2)
         "LlamaIndex" w2
       = (Returns r3, w3)
    /\ step env agno_client (Orchestrate.final_prompt p r3 r2) "Agno" w3
       = (Returns final, w')
    /\ answered env (trace w) (trace w1) llama_client
         (Orchestrate.llama_prompt p) r1
    /\ answered env (trace w1) (trace w2) agno_client
         (Orchestrate.agno_prompt p r1) r2
    /\ answered env (trace w2) (trace w3) llama_client
         (Orchestrate.validation_prompt p r2) r3
    /\ answered env (trace w3) (trace w') agno_client
         (Orchestrate.final_prompt p r3 r2) final
    /\ submitted (trace w') =
         submitted (trace w) ++
           [(llama_client, Orchestrate.llama_prompt p);
            (agno_client, Orchestrate.agno_prompt p r1);
            (llama_client, Orchestrate.validation_prompt p r2);
            (agno_client, Orchestrate.final_prompt p r3 r2)].
Proof.
  intros H. rewrite workflow_by_steps in H.
  unfold mbind, M_bind, mbind_M in H.
  destruct (step env llama_client _ _ w) as [[r1|e|] w1] eqn:S1;
    try discriminate H.
  destruct (step env agno_client _ _ w1) as [[r2|e|] w2] eqn:S2;
    try discriminate H.
  destruct (step env llama_client _ _ w2) as [[r3|e|] w3] eqn:S3;
    try discriminate H.
  destruct (step env agno_client _ _ w3) as [[r4|e|] w4] eqn:S4;
    try discriminate H.
  unfold mret, M_ret, mret_M in H. injection H as <- <-.
  exists r1, w1, r2, w2, r3, w3.
  split; [first [exact S1|reflexivity]|].
  split; [first [exact S2|reflexivity]|].
  split; [first [exact S3|reflexivity]|].
  split; [first [exact S4|reflexivity]|].
  split; [exact (step_answered _ _ _ _ _ _ _ S1)|].
  split; [exact (step_answered _ _ _ _ _ _ _ S2)|].
  split; [exact (step_answered _ _ _ _ _ _ _ S3)|].
  split; [exact (step_answered _ _ _ _ _ _ _ S4)|].
  use_step S1. use_step S2. use_step S3. use_step S4.
  rewrite Hsub2, Hsub1, Hsub0, Hsub. rewrite <- !app_assoc. reflexivity.
Qed.

(** A run in which the four answers differ: "y1", "x2", "y3" and "x4". *)
Lemma workflow_returns_after_four_steps_witness :
  let p := Orchestrate.initial_question in
  let env := answers_by_round in
  let r := run env (Orchestrate.orchestrate_collaborative_workflow p) start in
  r = (Returns "x4"%string, snd r)
  /\ exists r1 w1 r2 w2 r3 w3,
       step env llama_client (Orchestrate.llama_prompt p) "LlamaIndex" start
       = (Returns r1, w1)
       /\ step env agno_client (Orchestrate.agno_prompt p r1) "Agno" w1
          = (Returns r2, w2)
       /\ step env llama_client (Orchestrate.validation_prompt p r2)
            "LlamaIndex" w2
          = (Returns r3, w3)
       /\ step env agno_client (Orchestrate.final_prompt p r3 r2) "Agno" w3
          = (Returns "x4"%string, snd r)
       /\ answered env (trace start) (trace w1) llama_client
            (Orchestrate.llama_prompt p) r1
       /\ answered env (trace w1) (trace w2) agno_client
            (Orchestrate.agno_prompt p r1) r2
       /\ answered env (trace w2) (trace w3) llama_client
            (Orchestrate.validation_prompt p r2) r3
       /\ answered env (trace w3) (trace (snd r)) agno_client
            (Orchestrate.final_prompt p r3 r2) "x4"
       /\ submitted (trace (snd r)) =
            submitted (trace start) ++
              [(llama_client, Orchestrate.llama_prompt p);
               (agno_client, Orchestrate.agno_prompt p r1);
               (llama_client, Orchestrate.validation_prompt p r2);
               (agno_client, Orchestrate.final_prompt p r3 r2)].
Proof.
  intros p env r.
  assert (E : r = (Returns "x4"%string, snd r)) by (vm_compute; reflexivity).
  split; [exact E|].
  exact (workflow_returns_after_four_steps env p start (snd r) "x4" E).
Defined.

Lemma workflow_ends_within_bounds (env : remote) (p : string) (w : world) :
  let r := run env (Orchestrate.orchestrate_collaborative_workflow p) w in
  fst r <> Diverges
  /\ exists evs,
       trace (snd r) = trace w ++ evs
       /\ submitted evs <> []
       /\ map fst (submitted evs) `prefix_of` sequential_clients
       /\ fetches evs <= 240
       /\ seconds_slept evs <= 1200.
Proof.
  cbv zeta. rewrite workflow_by_steps.
  unfold mbind, M_bind, mbind_M, mret, M_ret, mret_M.
  pose proof (step_bounded env llama_client (Orchestrate.llama_prompt p)
                "LlamaIndex" w) as B1.
  destruct (step env llama_client _ _ w) as [[r1|e|] w1];
    cbv zeta in B1; cbn [fst snd] in B1;
    destruct B1 as (D1 & evs1 & T1 & S1 & F1 & Z1); [| |contradiction].
  2: { cbn [fst snd]. split; [discriminate|]. exists evs1.
       rewrite S1. repeat split; try assumption; try lia; try discriminate.
       exists [agno_client; llama_client; agno_client]. reflexivity. }
  pose proof (step_bounded env agno_client (Orchestrate.agno_prompt p r1)
                "Agno" w1) as B2.
  destruct (step env agno_client _ _ w1) as [[r2|e|] w2];
    cbv zeta in B2; cbn [fst snd] in B2;
    destruct B2 as (D2 & evs2 & T2 & S2 & F2 & Z2); [| |contradiction].
  2: { cbn [fst snd]. split; [discriminate|]. exists (evs1 ++ evs2).
       rewrite T2, T1, <- app_assoc, submitted_app, fetches_app,
         seconds_slept_app, S1, S2.
       repeat split; try lia; try discriminate.
       exists [llama_client; agno_client]. reflexivity. }
  pose proof (step_bounded env llama_client
                (Orchestrate.validation_prompt p r2) "LlamaIndex" w2) as B3.
  destruct (step env llama_client _ _ w2) as [[r3|e|] w3];
    cbv zeta in B3; cbn [fst snd] in B3;
    destruct B3 as (D3 & evs3 & T3 & S3 & F3 & Z3); [| |contradiction].
  2: { cbn [fst snd]. split; [discriminate|]. exists (evs1 ++ evs2 ++ evs3).
       rewrite T3, T2, T1, <- !app_assoc, !submitted_app, !fetches_app,
         !seconds_slept_app, S1, S2, S3.
       repeat split; try lia; try discriminate.
       exists [agno_client]. reflexivity. }
  pose proof (step_bounded env agno_client
                (Orchestrate.final_prompt p r3 r2) "Agno" w3) as B4.
  destruct (step env agno_client _ _ w3) as [[r4|e|] w4];
    cbv zeta in B4; cbn [fst snd] in B4;
    destruct B4 as (D4 & evs4 & T4 & S4 & F4 & Z4); [| |contradiction];
    (cbn [fst snd]; split; [discriminate|];
     exists (evs1 ++ evs2 ++ evs3 ++ evs4);
     rewrite T4, T3, T2, T1, <- !app_assoc, !submitted_app, !fetches_app,
       !seconds_slept_app, S1, S2, S3, S4;
     repeat split; try lia; try discriminate;
     exists []; reflexivity).
Qed.

(** X12.  Every run of the sequential workflow ends, whatever the services
    answer.  It makes at least one and at most four submissions, to the
    clients LlamaIndex, Agno, LlamaIndex, Agno in this order as far as it
    gets, at most 240 fetches, and pauses 1200 seconds at most. *)
Theorem workflow_is_bounded (env : remote) (p : string) (w : world) :
  let r := run env (Orchestrate.orchestrate_collaborative_workflow p) w in
  fst r <> Diverges
  /\ exists evs,
       trace (snd r) = trace w ++ evs
       /\ submitted evs <> []
       /\ map fst (submitted evs) `prefix_of` sequential_clients
       /\ fetches evs <= 240
       /\ seconds_slept evs <= 1200.
Proof. apply workflow_ends_within_bounds. Qed.

(** X13.  [main] of [orchestrate.py] always ends and lets no exception that
    derives from [Exception] escape: it ends with the banner around the
    workflow's answer, with the error line built from the exception the
    workflow raised, or, for an exception its handler does not catch, with
    that exception. *)
Theorem main_reports_every_failure (env : remote) (w : world) :
  let r := run env Orchestrate.main w in
  fst r <> Diverges
  /\ (forall e, fst r = Raises e -> is_Exception e = false)
  /\ (forall final w',
        run env
          (Orchestrate.orchestrate_collaborative_workflow
             Orchestrate.initial_question) w = (Returns final, w') ->
        r = (Returns (Orchestrate.FinalResult final), w'))
  /\ (forall e w',
        run env
          (Orchestrate.orchestrate_collaborative_workflow
             Orchestrate.initial_question) w = (Raises e, w') ->
        is_Exception e = true ->
        r = (Returns
               (Orchestrate.ErrorLine
                  ("[ORCH] Error in collaborative workflow: " +:+ exn_str e)),
             w')).
Proof.
  cbv zeta. rewrite main_by_workflow.
  destruct (workflow_ends_within_bounds env Orchestrate.initial_question w)
    as (Hd & _).
  cbv zeta in Hd.
  destruct (run env
              (Orchestrate.orchestrate_collaborative_workflow
                 Orchestrate.initial_question) w)
    as [[final|e|] w1]; cbn [fst] in Hd |- *.
  - split; [discriminate|]. split; [discriminate|].
    split; [|discriminate]. intros f w' H. injection H as <- <-. reflexivity.
  - unfold main_on_failure. split; [|split; [|split]].
    + destruct (is_Exception e); discriminate.
    + intros e'. destruct (is_Exception e) eqn:He; [discriminate|].
      intros H. injection H as <-. exact He.
    + discriminate.
    + intros e' w' H He. injection H as <- <-. rewrite He. reflexivity.
  - contradiction.
Qed.

Lemma main_reports_every_failure_witness :
  let e := Exception "Agno task failed: No error details available" in
  let r := run agno_fails Orchestrate.main start in
  is_Exception e = true
  /\ r = (Returns
            (Orchestrate.ErrorLine
               ("[ORCH] Error in collaborative workflow: " +:+ exn_str e)),
          snd r).
Proof.
  intros e r. split; [reflexivity|].
  apply (proj2 (proj2 (proj2 (main_reports_every_failure agno_fails start)))
           e (snd r)).
  - vm_compute. reflexivity.
  - reflexivity.
Defined.

(** ** orchestrate_parallel.py: the wait *)

Section ParallelWait.
Variables (env : remote) (c : client) (task_id service_name : string).

Lemma polled_true (o : outcome reply) :
  polled o = true ->
  exists r, o = Ok r /\ terminal_literal (reply_state r) = false.
Proof.
  destruct o as [r|e]; simpl; intros H; [|discriminate H].
  exists r. split; [reflexivity|]. apply negb_true_iff. exact H.
Qed.

Lemma parallel_wait_polled (fuel : nat) (w : world) :
  polled (get_task_answer env (trace w) c task_id) = true ->
  run env
    (OrchestrateParallel.wait_for_task_completion (S fuel) c task_id
       service_name) w
  = run env
      (OrchestrateParallel.wait_for_task_completion fuel c task_id
         service_name)
      {| trace := retry_trace env c task_id 1 (trace w);
         results := results w |}.
Proof.
  intros Hp. cbn [OrchestrateParallel.wait_for_task_completion retry_trace].
  rewrite run_bind, run_get_task.
  apply polled_true in Hp as (r & -> & Hr).
  apply terminal_literal_false in Hr as (H1 & H2 & H3).
  cbv zeta. rewrite H1, H2, H3, run_bind. cbn [sleep run perform pause_after].
  rewrite log_log. reflexivity.
Qed.

Lemma parallel_wait_after_polls (n : nat) :
  forall (fuel : nat) (w : world),
    polled_first env c task_id n (trace w) ->
    run env
      (OrchestrateParallel.wait_for_task_completion (n + fuel) c task_id
         service_name) w
    = run env
        (OrchestrateParallel.wait_for_task_completion fuel c task_id
           service_name)
        {| trace := retry_trace env c task_id n (trace w);
           results := results w |}.
Proof.
  induction n as [|n IH]; intros fuel w Hall.
  - destruct w; reflexivity.
  - change (S n + fuel) with (S (n + fuel)).
    rewrite parallel_wait_polled by (apply (Hall 0); lia).
    rewrite IH; [reflexivity|].
    intros i Hi. apply (Hall (S i)). lia.
Qed.

(** What the first pass through the loop does with an answer that does not
    send it round again. *)
Lemma parallel_wait_ends (fuel : nat) (w : world) :
  run env
    (OrchestrateParallel.wait_for_task_completion (S fuel) c task_id
       service_name) w
  = match get_task_answer env (trace w) c task_id with
    | Err e => (Raises e, log (EvGet c task_id) w)
    | Ok r =>
        if String.eqb (reply_state r) "completed" then
          (match first_artifact_text r with
           | Ok text => Returns text
           | Err e => Raises e
           end, log (EvGet c task_id) w)
        else if String.eqb (reply_state r) "failed" then
          (Raises (Exception (service_name +:+ " task failed")),
           log (EvGet c task_id) w)
        else if String.eqb (reply_state r) "canceled" then
          (Raises (Exception (service_name +:+ " task was canceled")),
           log (EvGet c task_id) w)
        else
          run env
            (OrchestrateParallel.wait_for_task_completion fuel c task_id
               service_name)
            (log (EvSleep 2) (log (EvGet c task_id) w))
    end.
Proof.
  cbn [OrchestrateParallel.wait_for_task_completion].
  rewrite run_bind, run_get_task.
  destruct (get_task_answer env (trace w) c task_id) as [r|e];
    [|reflexivity].
  cbv zeta.
  destruct (String.eqb (reply_state r) "completed").
  { destruct (first_artifact_text r); reflexivity. }
  destruct (String.eqb (reply_state r) "failed"); [reflexivity|].
  destruct (String.eqb (reply_state r) "canceled"); [reflexivity|].
  rewrite run_bind. reflexivity.
Qed.

End ParallelWait.

Lemma slept_app (a b : list event) : slept (a ++ b) = slept a ++ slept b.
Proof.
  induction a as [|[c p|c t|n] a IH]; simpl; rewrite ?IH; reflexivity.
Qed.

Lemma slept_after_polls (env : remote) (c : client) (task_id : string)
    (n : nat) :
  forall h : list event,
    polled_first env c task_id n h ->
    slept (retry_trace env c task_id n h) = slept h ++ repeat 2 n.
Proof.
  induction n as [|n IH]; intros h Hall.
  - cbn. rewrite app_nil_r. reflexivity.
  - cbn [retry_trace].
    destruct (polled_true _ (Hall 0 ltac:(lia))) as (r0 & Hr0 & _).
    cbn [retry_trace] in Hr0. rewrite Hr0. cbn [pause_after].
    rewrite IH.
    + rewrite slept_app. cbn. rewrite <- app_assoc. reflexivity.
    + intros i Hi. specialize (Hall (S i) ltac:(lia)).
      cbn [retry_trace] in Hall. rewrite Hr0 in Hall. exact Hall.
Qed.

(** X14.  The wait of [orchestrate_parallel.py] has no bound of its own:
    however many fetches find the task in a state that is not terminal, it
    pauses 2 seconds after each and goes on, and when a fetch then finds the
    task completed it returns the text of the first part of the first
    artifact. *)
Theorem parallel_wait_returns_after_polls (env : remote) (c : client)
    (task_id service_name : string) (n fuel : nat) (w : world) (r : reply)
    (text : string) :
  n < fuel ->
  polled_first env c task_id n (trace w) ->
  next_answer env c task_id n (trace w) = Ok r ->
  reply_state r = "completed"%string ->
  first_artifact_text r = Ok text ->
  run env
    (OrchestrateParallel.wait_for_task_completion fuel c task_id
       service_name) w
  = (Returns text, after_fetches env c task_id n w)
  /\ slept (trace (after_fetches env c task_id n w))
     = slept (trace w) ++ repeat 2 n.
Proof.
  intros Hlt Hall Ho Hs Ht. split.
  - replace fuel with (n + S (fuel - n - 1)) by lia.
    rewrite parallel_wait_after_polls by exact Hall.
    rewrite parallel_wait_ends. cbn [trace]. unfold next_answer in Ho.
    rewrite Ho, Hs, String.eqb_refl, Ht. reflexivity.
  - unfold after_fetches. cbn [trace].
    rewrite slept_app, (slept_after_polls env c task_id n _ Hall).
    cbn. rewrite app_nil_r. reflexivity.
Qed.

Lemma parallel_wait_returns_after_polls_witness :
  polled_first three_polls_then_completed agno_client "t1" 3 (trace start)
  /\ run three_polls_then_completed
       (OrchestrateParallel.wait_for_task_completion 4 agno_client "t1"
          "Agno") start
     = (Returns "done"%string,
        after_fetches three_polls_then_completed agno_client "t1" 3 start)
  /\ slept
       (trace
          (after_fetches three_polls_then_completed agno_client "t1" 3 start))
     = slept (trace start) ++ repeat 2 3.
Proof.
  assert (H : polled_first three_polls_then_completed agno_client "t1" 3
                (trace start)).
  { intros [|[|[|i]]] Hi; try reflexivity. lia. }
  split; [exact H|].
  apply (parallel_wait_returns_after_polls three_polls_then_completed
           agno_client "t1" "Agno" 3 4 start
           (reply_with "completed" "done" None) "done").
  - lia.
  - exact H.
  - reflexivity.
  - reflexivity.
  - reflexivity.
Defined.

(** X15.  The wait of [orchestrate_parallel.py] retries nothing: after any
    number of polls, a fetch that raises ends the wait with that exception,
    whatever its text, and a task found failed or canceled ends it with an
    exception that names the service only; the reply's ["error"] entry is
    not read. *)
Theorem parallel_wait_never_retries (env : remote) (c : client)
    (task_id service_name : string) (n fuel : nat) (w : world) :
  n < fuel ->
  polled_first env c task_id n (trace w) ->
  let wait :=
    run env
      (OrchestrateParallel.wait_for_task_completion fuel c task_id
         service_name) w in
  (forall e,
      next_answer env c task_id n (trace w) = Err e ->
      wait = (Raises e, after_fetches env c task_id n w))
  /\ (forall r,
        next_answer env c task_id n (trace w) = Ok r ->
        reply_state r = "failed"%string ->
        wait = (Raises (Exception (service_name +:+ " task failed")),
                after_fetches env c task_id n w))
  /\ (forall r,
        next_answer env c task_id n (trace w) = Ok r ->
        reply_state r = "canceled"%string ->
        wait = (Raises (Exception (service_name +:+ " task was canceled")),
                after_fetches env c task_id n w)).
Proof.
  intros Hlt Hall wait. subst wait.
  replace fuel with (n + S (fuel - n - 1)) by lia.
  rewrite parallel_wait_after_polls by exact Hall.
  rewrite parallel_wait_ends. cbn [trace]. unfold next_answer.
  split; [|split].
  - intros e ->. reflexivity.
  - intros r -> ->. reflexivity.
  - intros r -> ->. reflexivity.
Qed.

Lemma parallel_wait_never_retries_witness :
  run failed_with_500
    (OrchestrateParallel.wait_for_task_completion 3 agno_client "t1" "Agno")
    start
  = (Raises (Exception "Agno task failed"),
     {| trace := [EvGet agno_client "t1"]; results := [] |})
  /\
  run two_faults_then_completed
    (OrchestrateParallel.wait_for_task_completion 3 agno_client "t1" "Agno")
    start
  = (Raises server_error,
     {| trace := [EvGet agno_client "t1"]; results := [] |}).
Proof.
  split.
  - apply (proj1 (proj2 (parallel_wait_never_retries failed_with_500
                           agno_client "t1" "Agno" 0 3 start
                           ltac:(lia) ltac:(intros i Hi; lia)))
             (reply_with "failed" "-" (Some "upstream returned 500"%string)));
      reflexivity.
  - apply (proj1 (parallel_wait_never_retries two_faults_then_completed
                    agno_client "t1" "Agno" 0 3 start
                    ltac:(lia) ltac:(intros i Hi; lia)) server_error).
    reflexivity.
Defined.

Lemma parallel_wait_returns_completed (env : remote) (c : client)
    (task_id service_name : string) (fuel : nat) :
  forall (w w' : world) (text : string),
    run env
      (OrchestrateParallel.wait_for_task_completion fuel c task_id
         service_name) w = (Returns text, w') ->
    exists h reply,
      trace w' = h ++ [EvGet c task_id]
      /\ get_task_answer env h c task_id = Ok reply
      /\ reply_state reply = "completed"%string
      /\ first_artifact_text reply = Ok text.
Proof.
  induction fuel as [|fuel IH]; intros w w' text H.
  - discriminate H.
  - rewrite parallel_wait_ends in H.
    destruct (get_task_answer env (trace w) c task_id) as [r|e] eqn:Ho;
      [|discriminate H].
    destruct (String.eqb_spec (reply_state r) "completed") as [Hs|_].
    { destruct (first_artifact_text r) as [t|e] eqn:Ht; [|discriminate H].
      injection H as <- <-. exists (trace w), r. auto. }
    destruct (String.eqb (reply_state r) "failed"); [discriminate H|].
    destruct (String.eqb (reply_state r) "canceled"); [discriminate H|].
    apply IH in H. exact H.
Qed.

(** X16.  The wait of [orchestrate_parallel.py] never returns for a task
    that is not completed: when it returns a text, its last act was a fetch
    that found the task in state ["completed"], and the text is that of the
    first part of the first artifact of that reply. *)
Theorem parallel_wait_returns_only_when_completed (env : remote)
    (c : client) (task_id service_name : string) (fuel : nat) (w w' : world)
    (text : string) :
  run env
    (OrchestrateParallel.wait_for_task_completion fuel c task_id
       service_name) w = (Returns text, w') ->
  exists h reply,
    trace w' = h ++ [EvGet c task_id]
    /\ get_task_answer env h c task_id = Ok reply
    /\ reply_state reply = "completed"%string
    /\ first_artifact_text reply = Ok text.
Proof. apply parallel_wait_returns_completed. Qed.

Lemma parallel_wait_returns_only_when_completed_witness :
  let w' :=
    after_fetches three_polls_then_completed agno_client "t1" 3 start in
  run three_polls_then_completed
    (OrchestrateParallel.wait_for_task_completion 5 agno_client "t1" "Agno")
    start = (Returns "done"%string, w')
  /\ exists h reply,
       trace w' = h ++ [EvGet agno_client "t1"]
       /\ get_task_answer three_polls_then_completed h agno_client "t1"
          = Ok reply
       /\ reply_state reply = "completed"%string
       /\ first_artifact_text reply = Ok "done"%string.
Proof.
  intros w'.
  assert (E : run three_polls_then_completed
                (OrchestrateParallel.wait_for_task_completion 5 agno_client
                   "t1" "Agno") start = (Returns "done"%string, w'))
    by (vm_compute; reflexivity).
  split; [exact E|].
  exact (parallel_wait_returns_only_when_completed
           three_polls_then_completed agno_client "t1" "Agno" 5 start w'
           "done" E).
Defined.

(** ** Submissions of coroutines and task groups, whatever the outcome *)

Lemma sends_at_most_mono {A} (p : prog A) :
  forall n m, n <= m -> sends_at_most n p -> sends_at_most m p.
Proof.
  induction p as [r|X q k IH|item k IH]; intros n m Hle H; simpl in *.
  - exact I.
  - destruct (is_send q).
    + destruct n as [|n]; [contradiction|].
      destruct m as [|m]; [lia|].
      intros x. apply (IH x n m); [lia|apply H].
    + intros x. apply (IH x n m Hle). apply H.
  - apply (IH n m Hle H).
Qed.

Lemma sends_at_most_bind {A B} (p : prog A) (f : A -> prog B) (m : nat) :
  (forall a, sends_at_most m (f a)) ->
  forall n, sends_at_most n p -> sends_at_most (n + m) (p ≫= f).
Proof.
  intros Hf. unfold mbind, prog_bind.
  induction p as [r|X q k IH|item k IH]; intros n H; simpl in *.
  - destruct r as [a|e|]; try exact I.
    apply (sends_at_most_mono (f a) m); [lia|apply Hf].
  - destruct (is_send q).
    + destruct n as [|n]; [contradiction|].
      intros x. apply (IH x n). apply H.
    + intros x. apply (IH x n). apply H.
  - apply (IH n H).
Qed.

Lemma sends_nothing_bind {A B} (p : prog A) (f : A -> prog B) :
  sends_at_most 0 p ->
  (forall a, sends_at_most 0 (f a)) ->
  sends_at_most 0 (p ≫= f).
Proof. intros Hp Hf. exact (sends_at_most_bind p f 0 Hf 0 Hp). Qed.

Lemma sends_send_task (c : client) (prompt : string) :
  sends_at_most 1 (send_task c prompt).
Proof. simpl. intros [task_id|e]; exact I. Qed.

Lemma sends_get_task (c : client) (task_id : string) :
  sends_at_most 0 (get_task c task_id).
Proof. simpl. intros [r|e]; exact I. Qed.

Lemma sends_lift {A} (o : outcome A) : sends_at_most 0 (lift o).
Proof. destruct o; exact I. Qed.

Lemma sends_parallel_wait (fuel : nat) (c : client)
    (task_id service_name : string) :
  sends_at_most 0
    (OrchestrateParallel.wait_for_task_completion fuel c task_id
       service_name).
Proof.
  induction fuel as [|fuel IH]; [exact I|].
  cbn [OrchestrateParallel.wait_for_task_completion].
  apply sends_nothing_bind; [apply sends_get_task|].
  intros reply. cbv zeta.
  destruct (String.eqb (reply_state reply) "completed"); [apply sends_lift|].
  destruct (String.eqb (reply_state reply) "failed"); [exact I|].
  destruct (String.eqb (reply_state reply) "canceled"); [exact I|].
  apply sends_nothing_bind; [simpl; intros []; exact I|].
  intros _. exact IH.
Qed.

Lemma submitted_event_of {X} (q : request X) (evs : list event) :
  length (submitted (event_of q :: evs))
  = (if is_send q then 1 else 0) + length (submitted evs).
Proof. destruct q; reflexivity. Qed.

Lemma run_sends {A} (env : remote) (p : prog A) :
  forall (n : nat) (w : world),
    sends_at_most n p ->
    exists evs,
      trace (snd (run env p w)) = trace w ++ evs
      /\ length (submitted evs) <= n.
Proof.
  induction p as [r|X q k IH|item k IH]; intros n w H; simpl in *.
  - exists []. rewrite app_nil_r. split; [reflexivity|simpl; lia].
  - pose proof (perform_world env q w) as Hw.
    destruct (perform env q w) as [x w1]. simpl in Hw. subst w1.
    destruct (is_send q) eqn:Hq.
    + destruct n as [|n]; [contradiction|].
      destruct (IH x n (log (event_of q) w) (H x)) as (evs & Ht & Hl).
      exists (event_of q :: evs). rewrite Ht. cbn [log trace].
      rewrite <- app_assoc. split; [reflexivity|].
      rewrite submitted_event_of, Hq. lia.
    + destruct (IH x n (log (event_of q) w) (H x)) as (evs & Ht & Hl).
      exists (event_of q :: evs). rewrite Ht. cbn [log trace].
      rewrite <- app_assoc. split; [reflexivity|].
      rewrite submitted_event_of, Hq. lia.
  - destruct (IH n (push item w) H) as (evs & Ht & Hl).
    exists evs. auto.
Qed.

Section GroupSends.
Variable env : remote.

(** One step of a child that is suspended, in a group that goes on. *)
Lemma group_step {X} (q : request X) (n : nat) (w w' : world)
    (rest : list event) (bound : nat) :
  trace w' = trace (log (event_of q) w) ++ rest ->
  length (submitted rest) + (if is_send q then 1 else 0) <= bound ->
  exists evs,
    trace w' = trace w ++ evs /\ length (submitted evs) <= bound.
Proof.
  intros Ht Hl. exists (event_of q :: rest). rewrite Ht. cbn [log trace].
  rewrite <- app_assoc. split; [reflexivity|].
  rewrite submitted_event_of. lia.
Qed.

(** A task group submits no more than its two children can, whatever its
    outcome and under every schedule. *)
Lemma task_group_sends (a : prog unit) :
  forall (na : nat) (b : prog unit) (nb : nat) (sched : list bool)
         (w : world),
    sends_at_most na a ->
    sends_at_most nb b ->
    exists evs,
      trace (snd (task_group env a b sched w)) = trace w ++ evs
      /\ length (submitted evs) <= na + nb.
Proof.
  assert (Hnil : forall w : world, exists evs : list event,
            trace w = trace w ++ evs /\ length (submitted evs) <= 0).
  { intros w. exists []. rewrite app_nil_r. auto. }
  assert (Hweak : forall (w w' : world) n m, n <= m ->
            (exists evs, trace w' = trace w ++ evs
                         /\ length (submitted evs) <= n) ->
            exists evs, trace w' = trace w ++ evs
                        /\ length (submitted evs) <= m).
  { intros w w' n m Hle (evs & Ht & Hl). exists evs. split; [exact Ht|lia]. }
  induction a as [ra|X qa ka IHa|item ka IHa]; intros na b.
  - (* the first child is done *)
    destruct ra as [[]|e|].
    + induction b as [rb|Y qb kb IHb|item kb IHb];
        intros nb sched w Ha Hb.
      * simpl. apply (Hweak w w 0); [lia|apply Hnil].
      * simpl. pose proof (perform_world env qb w) as Hw.
        destruct (perform env qb w) as [x w1]. simpl in Hw. subst w1.
        simpl in Hb. destruct (is_send qb) eqn:Hq.
        -- destruct nb as [|nb]; [contradiction|].
           destruct (IHb x nb sched (log (event_of qb) w) Ha (Hb x))
             as (evs & Ht & Hl).
           apply (group_step qb 0 w _ evs); [exact Ht|rewrite Hq; lia].
        -- destruct (IHb x nb sched (log (event_of qb) w) Ha (Hb x))
             as (evs & Ht & Hl).
           apply (group_step qb 0 w _ evs); [exact Ht|rewrite Hq; lia].
      * simpl. simpl in Hb.
        destruct (IHb nb sched (push item w) Ha Hb) as (evs & Ht & Hl).
        exists evs. auto.
    + intros nb sched w _ _. rewrite task_group_raises_l.
      apply (Hweak w w 0); [lia|apply Hnil].
    + intros nb sched w _ _. rewrite task_group_diverges_l.
      apply (Hweak w w 0); [lia|apply Hnil].
  - (* the first child is suspended *)
    assert (StepA : forall (b' : prog unit) nb sched (w : world),
              sends_at_most na (Await qa ka) ->
              sends_at_most nb b' ->
              exists evs,
                trace (snd (let (x, w') := perform env qa w in
                            task_group env (ka x) b' sched w'))
                = trace w ++ evs
                /\ length (submitted evs) <= na + nb).
    { intros b' nb sched w Ha Hb.
      pose proof (perform_world env qa w) as Hw.
      destruct (perform env qa w) as [x w1]. simpl in Hw. subst w1.
      simpl in Ha. destruct (is_send qa) eqn:Hq.
      - destruct na as [|na']; [contradiction|].
        destruct (IHa x na' b' nb sched (log (event_of qa) w) (Ha x) Hb)
          as (evs & Ht & Hl).
        apply (group_step qa 0 w _ evs); [exact Ht|rewrite Hq; lia].
      - destruct (IHa x na b' nb sched (log (event_of qa) w) (Ha x) Hb)
          as (evs & Ht & Hl).
        apply (group_step qa 0 w _ evs); [exact Ht|rewrite Hq; lia]. }
    induction b as [rb|Y qb kb IHb|item kb IHb]; intros nb sched w Ha Hb.
    + destruct rb as [[]|e|]; simpl.
      * apply (StepA (Done (Returns tt))); assumption.
      * apply (Hweak w w 0); [lia|apply Hnil].
      * apply (Hweak w w 0); [lia|apply Hnil].
    + assert (StepB :
        exists evs,
          trace (snd (let (x, w') := perform env qb w in
                      task_group env (Await qa ka) (kb x) (tail sched) w'))
          = trace w ++ evs
          /\ length (submitted evs) <= na + nb).
      { pose proof (perform_world env qb w) as Hw.
        destruct (perform env qb w) as [x w1]. simpl in Hw. subst w1.
        simpl in Hb. destruct (is_send qb) eqn:Hq.
        - destruct nb as [|nb']; [contradiction|].
          destruct (IHb x nb' (tail sched) (log (event_of qb) w) Ha (Hb x))
            as (evs & Ht & Hl).
          apply (group_step qb 0 w _ evs); [exact Ht|rewrite Hq; lia].
        - destruct (IHb x nb (tail sched) (log (event_of qb) w) Ha (Hb x))
            as (evs & Ht & Hl).
          apply (group_step qb 0 w _ evs); [exact Ht|rewrite Hq; lia]. }
      destruct sched as [|[|] sched'].
      * apply (StepA (Await qb kb)); assumption.
      * apply (StepA (Await qb kb) nb sched' w); assumption.
      * exact StepB.
    + simpl. simpl in Hb.
      destruct (IHb nb sched (push item w) Ha Hb) as (evs & Ht & Hl).
      exists evs. auto.
  - (* the first child is about to append *)
    intros nb sched w Ha Hb. rewrite task_group_append_l. simpl in Ha.
    destruct (IHa na b nb sched (push item w) Ha Hb) as (evs & Ht & Hl).
    exists evs. auto.
Qed.

End GroupSends.

(** ** orchestrate_parallel.py: how much the workflows submit *)

Section Submits.
Variable env : remote.

Lemma submits_at_most_bind {A B} (m : M A) (k : A -> M B) (n n' : nat) :
  submits_at_most n m ->
  (forall a, submits_at_most n' (k a)) ->
  submits_at_most (n + n') (m ≫= k).
Proof.
  intros Hm Hk w. unfold mbind, M_bind, mbind_M.
  destruct (Hm w) as (evs & Ht & Hl).
  destruct (m w) as [[a|e|] w1]; cbn [snd] in Ht |- *;
    try (exists evs; split; [exact Ht|lia]).
  destruct (Hk a w1) as (evs' & Ht' & Hl').
  exists (evs ++ evs'). rewrite Ht', Ht, <- app_assoc, submitted_app.
  rewrite length_app. split; [reflexivity|lia].
Qed.

Lemma submits_at_most_ret {A} (a : A) : submits_at_most 0 (mret a : M A).
Proof. intros w. exists []. cbn. rewrite app_nil_r. auto. Qed.

Lemma submits_at_most_new_results : submits_at_most 0 new_results.
Proof. intros w. exists []. cbn. rewrite app_nil_r. auto. Qed.

Lemma submits_at_most_read_results : submits_at_most 0 read_results.
Proof. intros w. exists []. cbn. rewrite app_nil_r. auto. Qed.

Lemma submits_at_most_run {A} (p : prog A) (n : nat) :
  sends_at_most n p -> submits_at_most n (run env p).
Proof. intros H w. apply run_sends. exact H. Qed.

Lemma submits_at_most_group (a b : prog unit) (na nb : nat)
    (sched : list bool) :
  sends_at_most na a -> sends_at_most nb b ->
  submits_at_most (na + nb) (task_group env a b sched).
Proof. intros Ha Hb w. apply task_group_sends; assumption. Qed.

Lemma sends_process (fuel : nat) (c : client) (prompt service_name : string) :
  sends_at_most 1
    (task_id ← OrchestrateParallel.send_task_to_service c prompt
                 service_name;
     OrchestrateParallel.wait_for_task_completion fuel c task_id
       service_name).
Proof.
  apply (sends_at_most_bind _ _ 0 (fun task_id =>
           sends_parallel_wait fuel c task_id service_name) 1).
  apply sends_send_task.
Qed.

Lemma sends_then {A B} (p : prog A) (f : A -> prog B) (n : nat) :
  sends_at_most n p ->
  (forall a, sends_at_most 0 (f a)) ->
  sends_at_most n (p ≫= f).
Proof.
  intros Hp Hf. rewrite <- (Nat.add_0_r n).
  exact (sends_at_most_bind p f 0 Hf n Hp).
Qed.

End Submits.

(** X17.  No run of [parallel_processing_workflow] submits more than five
    tasks, whatever the services answer, however the two task groups are
    interleaved and however the run ends. *)
Theorem parallel_workflow_submits_at_most_five (env : remote) (fuel : nat)
    (sched1 sched2 : list bool) (p : string) (w : world) :
  exists evs,
    trace
      (snd (OrchestrateParallel.parallel_processing_workflow env fuel sched1
              sched2 p w))
    = trace w ++ evs
    /\ length (submitted evs) <= 5.
Proof.
  revert w.
  change (submits_at_most (2 + (0 + (2 + (0 + (1 + (0 + 0))))))
            (OrchestrateParallel.parallel_processing_workflow env fuel sched1
               sched2 p)).
  unfold OrchestrateParallel.parallel_processing_workflow.
  apply submits_at_most_bind.
  { apply (submits_at_most_group env _ _ 1 1);
      apply sends_then; try apply sends_process; intros; exact I. }
  intros _. apply submits_at_most_bind; [apply submits_at_most_new_results|].
  intros _. apply submits_at_most_bind.
  { apply (submits_at_most_group env _ _ 1 1);
      apply sends_then; try apply sends_process; intros; exact I. }
  intros _. apply submits_at_most_bind; [apply submits_at_most_read_results|].
  intros results.
  destruct (OrchestrateParallel.extract_results results None None)
    as [agno_result llama_result].
  apply submits_at_most_bind.
  { apply submits_at_most_run. apply sends_send_task. }
  intros task_id. apply submits_at_most_bind.
  { apply submits_at_most_run. apply sends_parallel_wait. }
  intros final. apply submits_at_most_ret.
Qed.

(** ** orchestrate_parallel.py: the debate workflow *)

Section DebateGroups.
Variables (env : remote) (fuel : nat).

(** A task group of the debate: its children only wait, so it submits
    nothing, and when it returns it has appended what the two waits
    returned, under their tags, in the order in which they finished. *)
Lemma debate_group_returns (agno_task llama_task : string)
    (sched : list bool) (w w' : world) :
  task_group env
    (result ←
       OrchestrateParallel.wait_for_task_completion fuel agno_client
         agno_task "Agno";
     results_append ("agno", result))
    (result ←
       OrchestrateParallel.wait_for_task_completion fuel llama_client
         llama_task "LlamaIndex";
     results_append ("llama", result)) sched w
  = (Returns tt, w') ->
  exists evs items x y,
    trace w' = trace w ++ evs
    /\ submitted evs = []
    /\ results w' = results w ++ items
    /\ items ≡ₚ [("agno"%string, x); ("llama"%string, y)].
Proof.
  intros H. apply task_group_returns in H
    as (evs_a & items_a & evs_b & items_b & evs & items
        & Ha & Hb & Ht & Hr & Pe & Pi).
  apply collect_path in Ha as (x & evs_a' & items_a' & Ha & -> & ->).
  apply parallel_wait_path in Ha as [Sa ->].
  apply collect_path in Hb as (y & evs_b' & items_b' & Hb & -> & ->).
  apply parallel_wait_path in Hb as [Sb ->].
  exists evs, items, x, y. repeat split; try assumption.
  apply submitted_Permutation in Pe.
  rewrite submitted_app, Sa, Sb in Pe. apply Permutation_nil_r in Pe.
  exact Pe.
Qed.

Lemma debate_group_submits_nothing (agno_task llama_task : string)
    (tag_a tag_b : string) (sched : list bool) :
  submits_through []
    (task_group env
       (result ←
          OrchestrateParallel.wait_for_task_completion fuel agno_client
            agno_task "Agno";
        results_append (tag_a, result))
       (result ←
          OrchestrateParallel.wait_for_task_completion fuel llama_client
            llama_task "LlamaIndex";
        results_append (tag_b, result)) sched).
Proof.
  intros w.
  assert (Ha : sends_at_most 0
                 (result ←
                    OrchestrateParallel.wait_for_task_completion fuel
                      agno_client agno_task "Agno";
                  results_append (tag_a, result))).
  { apply sends_nothing_bind; [apply sends_parallel_wait|].
    intros result. exact I. }
  assert (Hb : sends_at_most 0
                 (result ←
                    OrchestrateParallel.wait_for_task_completion fuel
                      llama_client llama_task "LlamaIndex";
                  results_append (tag_b, result))).
  { apply sends_nothing_bind; [apply sends_parallel_wait|].
    intros result. exact I. }
  destruct (task_group_sends env _ 0 _ 0 sched w Ha Hb) as (evs & Ht & Hl).
  exists evs. split; [exact Ht|].
  destruct (submitted evs); [reflexivity|simpl in Hl; lia].
Qed.

End DebateGroups.

Lemma run_send_returns (env : remote) (c : client)
    (prompt service_name task_id : string) (w w' : world) :
  run env (OrchestrateParallel.send_task_to_service c prompt service_name) w
  = (Returns task_id, w') ->
  w' = log (EvSend c prompt) w.
Proof.
  unfold OrchestrateParallel.send_task_to_service.
  rewrite run_send_task. intros H. injection H as _ <-. reflexivity.
Qed.

(** A task group of the debate, seen from the services: what its two
    children append is the text the services gave for the two tasks, in the
    order in which the children finish. *)
Lemma debate_group_answers (env : remote) (fuel : nat)
    (agno_task llama_task : string) (sched : list bool) (w w' : world) :
  task_group env
    (result ←
       OrchestrateParallel.wait_for_task_completion fuel agno_client
         agno_task "Agno";
     results_append ("agno", result))
    (result ←
       OrchestrateParallel.wait_for_task_completion fuel llama_client
         llama_task "LlamaIndex";
     results_append ("llama", result)) sched w
  = (Returns tt, w') ->
  exists x y,
    completed_with env (trace w) (trace w') agno_client agno_task x
    /\ completed_with env (trace w) (trace w') llama_client llama_task y
    /\ (results w' = results w ++ [("agno"%string, x); ("llama"%string, y)]
        \/ results w'
           = results w ++ [("llama"%string, y); ("agno"%string, x)]).
Proof.
  intros H. apply task_group_answers in H
    as (items_a & items_b & evs & items & Ha & Hb & Ht & Hr & Pi).
  apply collect_path_in in Ha as (x & items_a' & Ha & ->).
  apply parallel_wait_path_in in Ha as [-> Ha].
  apply collect_path_in in Hb as (y & items_b' & Hb & ->).
  apply parallel_wait_path_in in Hb as [-> Hb].
  exists x, y. split; [exact Ha|]. split; [exact Hb|].
  rewrite Hr. simpl in Pi. symmetry in Pi.
  apply Permutation_length_2_inv in Pi as [-> | ->]; auto.
Qed.

Lemma run_send_answer (env : remote) (c : client)
    (prompt service_name task_id : string) (w w' : world) :
  run env (OrchestrateParallel.send_task_to_service c prompt service_name) w
  = (Returns task_id, w') ->
  send_task_answer env (trace w) c prompt = Ok task_id.
Proof.
  unfold OrchestrateParallel.send_task_to_service.
  rewrite run_send_task.
  destruct (send_task_answer env (trace w) c prompt); intros H;
    [injection H as -> _; reflexivity|discriminate H].
Qed.

Ltac flat_in H := repeat (rewrite <- app_assoc in H); cbn [app] in H.

(** X18.  Every run of [debate_workflow] that returns, under every
    interleaving of its two task groups, has made exactly four submissions,
    in this order: the two opening prompts, to Agno and to LlamaIndex, and,
    once the first task group is over, the two refinement prompts, to Agno
    and to LlamaIndex.  Each task group only fetches: the first found the
    two opening tasks completed with [x1] and [y1], and both refinement
    prompts embed these two answers; the second found the two refinement
    tasks completed with [x2] and [y2], appended in the order in which the
    waits finished, and the pair returned holds [x2] for Agno and [y2] for
    LlamaIndex whichever finished first. *)
Theorem debate_returns_after_two_rounds (env : remote) (fuel : nat)
    (sched1 sched2 : list bool) (p : string) (w w' : world)
    (agno_round2 llama_round2 : option string) :
  OrchestrateParallelDebate.debate_workflow env fuel sched1 sched2 p w
  = (Returns (agno_round2, llama_round2), w') ->
  exists (agno_task1 llama_task1 x1 y1 agno_task2 llama_task2 x2 y2 : string)
         (evs1 evs2 : list event),
    let agno1 :=
      EvSend agno_client (OrchestrateParallelDebate.agno_prompt1 p) in
    let llama1 :=
      EvSend llama_client (OrchestrateParallelDebate.llama_prompt1 p) in
    let agno2 :=
      EvSend agno_client
        (OrchestrateParallelDebate.agno_prompt2 p (Some x1) (Some y1)) in
    let llama2 :=
      EvSend llama_client
        (OrchestrateParallelDebate.llama_prompt2 p (Some x1) (Some y1)) in
    let h1 := trace w ++ [agno1; llama1] in
    let h2 := h1 ++ evs1 ++ [agno2; llama2] in
    trace w' = h2 ++ evs2
    /\ submitted evs1 = []
    /\ submitted evs2 = []
    /\ send_task_answer env (trace w) agno_client
         (OrchestrateParallelDebate.agno_prompt1 p) = Ok agno_task1
    /\ send_task_answer env (trace w ++ [agno1]) llama_client
         (OrchestrateParallelDebate.llama_prompt1 p) = Ok llama_task1
    /\ completed_with env h1 (h1 ++ evs1) agno_client agno_task1 x1
    /\ completed_with env h1 (h1 ++ evs1) llama_client llama_task1 y1
    /\ send_task_answer env (h1 ++ evs1) agno_client
         (OrchestrateParallelDebate.agno_prompt2 p (Some x1) (Some y1))
       = Ok agno_task2
    /\ send_task_answer env (h1 ++ evs1 ++ [agno2]) llama_client
         (OrchestrateParallelDebate.llama_prompt2 p (Some x1) (Some y1))
       = Ok llama_task2
    /\ completed_with env h2 (trace w') agno_client agno_task2 x2
    /\ completed_with env h2 (trace w') llama_client llama_task2 y2
    /\ (results w' = [("agno"%string, x2); ("llama"%string, y2)]
        \/ results w' = [("llama"%string, y2); ("agno"%string, x2)])
    /\ agno_round2 = Some x2
    /\ llama_round2 = Some y2
    /\ submitted (trace w')
       = submitted (trace w)
           ++ [(agno_client, OrchestrateParallelDebate.agno_prompt1 p);
               (llama_client, OrchestrateParallelDebate.llama_prompt1 p);
               (agno_client,
                OrchestrateParallelDebate.agno_prompt2 p (Some x1) (Some y1));
               (llama_client,
                OrchestrateParallelDebate.llama_prompt2 p (Some x1)
                  (Some y1))].
Proof.
  intros H. unfold OrchestrateParallelDebate.debate_workflow in H.
  apply mbind_M_returns in H as (ta1 & wa & Sa1 & H).
  pose proof (run_send_answer _ _ _ _ _ _ _ Sa1) as Aa1.
  apply run_send_returns in Sa1. subst wa.
  apply mbind_M_returns in H as (tl1 & wb & Sl1 & H).
  pose proof (run_send_answer _ _ _ _ _ _ _ Sl1) as Al1.
  apply run_send_returns in Sl1. subst wb.
  apply mbind_M_returns in H as ([] & wc & N1 & H).
  unfold new_results in N1. injection N1 as <-.
  apply mbind_M_returns in H as ([] & w1 & G1 & H).
  destruct (debate_group_answers _ _ _ _ _ _ _ G1)
    as (x1 & y1 & Cx1 & Cy1 & R1).
  apply debate_group_returns in G1
    as (evs1 & items1 & x1' & y1' & T1 & S1 & _ & _).
  assert (P1 : results w1 ≡ₚ [("agno"%string, x1); ("llama"%string, y1)]).
  { destruct R1 as [-> | ->]; [reflexivity|apply perm_swap]. }
  apply mbind_M_returns in H as (res1 & w1' & Rd1 & H).
  unfold read_results in Rd1. injection Rd1 as <- <-.
  rewrite (extract_results_two _ x1 y1 P1) in H.
  apply mbind_M_returns in H as (ta2 & wd & Sa2 & H).
  pose proof (run_send_answer _ _ _ _ _ _ _ Sa2) as Aa2.
  apply run_send_returns in Sa2. subst wd.
  apply mbind_M_returns in H as (tl2 & we & Sl2 & H).
  pose proof (run_send_answer _ _ _ _ _ _ _ Sl2) as Al2.
  apply run_send_returns in Sl2. subst we.
  apply mbind_M_returns in H as ([] & wf & N2 & H).
  unfold new_results in N2. injection N2 as <-.
  apply mbind_M_returns in H as ([] & w2 & G2 & H).
  destruct (debate_group_answers _ _ _ _ _ _ _ G2)
    as (x2 & y2 & Cx2 & Cy2 & R2).
  apply debate_group_returns in G2
    as (evs2 & items2 & x2' & y2' & T2 & S2 & _ & _).
  assert (P2 : results w2 ≡ₚ [("agno"%string, x2); ("llama"%string, y2)]).
  { destruct R2 as [-> | ->]; [reflexivity|apply perm_swap]. }
  apply mbind_M_returns in H as (res2 & w2' & Rd2 & H).
  unfold read_results in Rd2. injection Rd2 as <- <-.
  rewrite (extract_results_two _ x2 y2 P2) in H.
  unfold mret, M_ret, mret_M in H. injection H as <- <- <-.
  cbn [trace results log app] in *.
  flat_in T1. rewrite T1 in *.
  flat_in T2. flat_in Cx1. flat_in Cy1. flat_in Aa2. flat_in Al2.
  flat_in Cx2. flat_in Cy2.
  exists ta1, tl1, x1, y1, ta2, tl2, x2, y2, evs1, evs2. cbv zeta.
  repeat rewrite <- app_assoc. cbn [app].
  split; [exact T2|]. split; [exact S1|]. split; [exact S2|].
  split; [exact Aa1|]. split; [exact Al1|].
  split; [exact Cx1|]. split; [exact Cy1|].
  split; [exact Aa2|]. split; [exact Al2|].
  split; [exact Cx2|]. split; [exact Cy2|].
  split; [exact R2|]. split; [reflexivity|]. split; [reflexivity|].
  rewrite T2, submitted_app. cbn [submitted].
  rewrite submitted_app. cbn [submitted]. rewrite S1, S2. reflexivity.
Qed.

(** A run in which the answers of the two rounds differ ("x2" and "y2",
    then "x4" and "y4") and the LlamaIndex wait of the first round finishes
    first. *)
Lemma debate_returns_after_two_rounds_witness :
  let p := "Q"%string in
  let env := answers_by_round in
  let w := start in
  let r :=
    OrchestrateParallelDebate.debate_workflow env 2 [false] [] p w in
  let w' := snd r in
  r = (Returns (Some "x4"%string, Some "y4"%string), w')
  /\ exists (agno_task1 llama_task1 x1 y1 agno_task2 llama_task2 x2 y2
               : string) (evs1 evs2 : list event),
    let agno1 :=
      EvSend agno_client (OrchestrateParallelDebate.agno_prompt1 p) in
    let llama1 :=
      EvSend llama_client (OrchestrateParallelDebate.llama_prompt1 p) in
    let agno2 :=
      EvSend agno_client
        (OrchestrateParallelDebate.agno_prompt2 p (Some x1) (Some y1)) in
    let llama2 :=
      EvSend llama_client
        (OrchestrateParallelDebate.llama_prompt2 p (Some x1) (Some y1)) in
    let h1 := trace w ++ [agno1; llama1] in
    let h2 := h1 ++ evs1 ++ [agno2; llama2] in
    trace w' = h2 ++ evs2
    /\ submitted evs1 = []
    /\ submitted evs2 = []
    /\ send_task_answer env (trace w) agno_client
         (OrchestrateParallelDebate.agno_prompt1 p) = Ok agno_task1
    /\ send_task_answer env (trace w ++ [agno1]) llama_client
         (OrchestrateParallelDebate.llama_prompt1 p) = Ok llama_task1
    /\ completed_with env h1 (h1 ++ evs1) agno_client agno_task1 x1
    /\ completed_with env h1 (h1 ++ evs1) llama_client llama_task1 y1
    /\ send_task_answer env (h1 ++ evs1) agno_client
         (OrchestrateParallelDebate.agno_prompt2 p (Some x1) (Some y1))
       = Ok agno_task2
    /\ send_task_answer env (h1 ++ evs1 ++ [agno2]) llama_client
         (OrchestrateParallelDebate.llama_prompt2 p (Some x1) (Some y1))
       = Ok llama_task2
    /\ completed_with env h2 (trace w') agno_client agno_task2 x2
    /\ completed_with env h2 (trace w') llama_client llama_task2 y2
    /\ (results w' = [("agno"%string, x2); ("llama"%string, y2)]
        \/ results w' = [("llama"%string, y2); ("agno"%string, x2)])
    /\ Some "x4"%string = Some x2
    /\ Some "y4"%string = Some y2
    /\ submitted (trace w')
       = submitted (trace w)
           ++ [(agno_client, OrchestrateParallelDebate.agno_prompt1 p);
               (llama_client, OrchestrateParallelDebate.llama_prompt1 p);
               (agno_client,
                OrchestrateParallelDebate.agno_prompt2 p (Some x1) (Some y1));
               (llama_client,
                OrchestrateParallelDebate.llama_prompt2 p (Some x1)
                  (Some y1))].
Proof.
  intros p env w r w'.
  assert (E : r = (Returns (Some "x4"%string, Some "y4"%string), w'))
    by (vm_compute; reflexivity).
  split; [exact E|].
  exact (debate_returns_after_two_rounds env 2 [false] [] p w w'
           (Some "x4"%string) (Some "y4"%string) E).
Defined.

Section Along.
Variable env : remote.

Lemma submits_along_bind {A B} (m : M A) (k : A -> M B)
    (cs1 cs2 : list client) :
  submits_through cs1 m ->
  (forall a, submits_along cs2 (k a)) ->
  submits_along (cs1 ++ cs2) (m ≫= k).
Proof.
  intros Hm Hk w. unfold mbind, M_bind, mbind_M.
  destruct (Hm w) as (evs & Ht & Hc).
  destruct (m w) as [[a|e|] w1]; cbn [snd] in Ht |- *;
    try (exists evs; split; [exact Ht|]; rewrite Hc;
         apply prefix_app_r; reflexivity).
  destruct (Hk a w1) as (evs' & Ht' & Hp').
  exists (evs ++ evs'). rewrite Ht', Ht, <- app_assoc, submitted_app.
  split; [reflexivity|]. rewrite map_app, Hc. apply prefix_app. exact Hp'.
Qed.

Lemma submits_along_ret {A} (a : A) (cs : list client) :
  submits_along cs (mret a : M A).
Proof.
  intros w. exists []. cbn. rewrite app_nil_r. split; [reflexivity|].
  apply prefix_nil.
Qed.

Lemma submits_through_send (c : client) (prompt service_name : string) :
  submits_through [c]
    (run env (OrchestrateParallel.send_task_to_service c prompt service_name)).
Proof.
  intros w. unfold OrchestrateParallel.send_task_to_service.
  rewrite run_send_task. exists [EvSend c prompt]. cbn. auto.
Qed.

Lemma submits_through_new_results : submits_through [] new_results.
Proof. intros w. exists []. cbn. rewrite app_nil_r. auto. Qed.

Lemma submits_through_read_results : submits_through [] read_results.
Proof. intros w. exists []. cbn. rewrite app_nil_r. auto. Qed.

End Along.

(** X19.  In [debate_workflow] every submission is made by the workflow
    itself, outside its task groups, which only wait.  So in every run,
    however it ends and however the groups are interleaved, the submissions
    go to Agno, LlamaIndex, Agno, LlamaIndex in this order as far as the run
    gets, never more than four, and the opening prompt for Agno is always
    the first. *)
Theorem debate_submits_in_fixed_order (env : remote) (fuel : nat)
    (sched1 sched2 : list bool) (p : string) (w : world) :
  exists rest,
    trace
      (snd (OrchestrateParallelDebate.debate_workflow env fuel sched1 sched2
              p w))
    = trace w
        ++ EvSend agno_client (OrchestrateParallelDebate.agno_prompt1 p)
        :: rest
    /\ map fst (submitted rest)
         `prefix_of` [llama_client; agno_client; llama_client].
Proof.
  unfold OrchestrateParallelDebate.debate_workflow.
  unfold mbind at 1, M_bind at 1, mbind_M at 1.
  unfold OrchestrateParallel.send_task_to_service at 1.
  rewrite run_send_task.
  destruct (send_task_answer env (trace w) agno_client _) as [agno_task1|e].
  2: { exists []. cbn. split; [reflexivity|apply prefix_nil]. }
  match goal with
  | |- context [snd (?m (log ?ev w))] =>
      assert (H : submits_along
                    ([llama_client] ++ [] ++ [] ++ [] ++ [agno_client]
                     ++ [llama_client] ++ [] ++ [] ++ [] ++ []) m)
  end.
  { apply submits_along_bind; [apply submits_through_send|].
    intros llama_task1.
    apply submits_along_bind; [apply submits_through_new_results|].
    intros _.
    apply submits_along_bind; [apply debate_group_submits_nothing|].
    intros _.
    apply submits_along_bind; [apply submits_through_read_results|].
    intros round1.
    destruct (OrchestrateParallel.extract_results round1 None None)
      as [agno_round1 llama_round1].
    apply submits_along_bind; [apply submits_through_send|].
    intros agno_task2.
    apply submits_along_bind; [apply submits_through_send|].
    intros llama_task2.
    apply submits_along_bind; [apply submits_through_new_results|].
    intros _.
    apply submits_along_bind; [apply debate_group_submits_nothing|].
    intros _.
    apply submits_along_bind; [apply submits_through_read_results|].
    intros round2.
    destruct (OrchestrateParallel.extract_results round2 None None)
      as [agno_round2 llama_round2].
    apply submits_along_ret. }
  destruct (H (log (EvSend agno_client
                      (OrchestrateParallelDebate.agno_prompt1 p)) w))
    as (rest & Ht & Hp).
  exists rest. rewrite Ht. cbn [log trace]. rewrite <- app_assoc.
  split; [reflexivity|exact Hp].
Qed.

(** ** orchestrate_expert.py *)

Lemma len_append (a b : string) :
  PyStr.len (a +:+ b) = PyStr.len a + PyStr.len b.
Proof.
  induction a as [|ch a IH]; [reflexivity|].
  change (PyStr.len (String ch (a +:+ b))
          = PyStr.len (String ch a) + PyStr.len b).
  cbn [PyStr.len]. destruct (PyStr.is_continuation ch); rewrite IH;
    reflexivity.
Qed.

(** A slice is a prefix of the string, cut at a character boundary. *)
Lemma take_prefix (s : string) :
  forall n : nat, exists rest, s = PyStr.take n s +:+ rest.
Proof.
  induction s as [|ch s IH]; intros n; [exists EmptyString; reflexivity|].
  cbn [PyStr.take]. destruct (PyStr.is_continuation ch).
  - destruct (IH n) as [rest Hr]. exists rest.
    exact (f_equal (String ch) Hr).
  - destruct n as [|n]; [exists (String ch s); reflexivity|].
    destruct (IH n) as [rest Hr]. exists rest.
    exact (f_equal (String ch) Hr).
Qed.

Lemma take_len_le (s : string) :
  forall n : nat, PyStr.len (PyStr.take n s) <= n.
Proof.
  induction s as [|ch s IH]; intros n; [cbn; lia|].
  cbn [PyStr.take]. destruct (PyStr.is_continuation ch) eqn:Hc.
  - cbn [PyStr.len]. rewrite Hc. apply IH.
  - destruct n as [|n]; [cbn; lia|].
    cbn [PyStr.len]. rewrite Hc. specialize (IH n). lia.
Qed.

(** It holds as many characters as were asked for when the string has
    them. *)
Lemma take_len (s : string) :
  forall n : nat, n <= PyStr.len s -> PyStr.len (PyStr.take n s) = n.
Proof.
  induction s as [|ch s IH]; intros n Hn; [cbn in *; lia|].
  cbn [PyStr.take PyStr.len] in *.
  destruct (PyStr.is_continuation ch) eqn:Hc.
  - cbn [PyStr.len]. rewrite Hc. apply IH. exact Hn.
  - destruct n as [|n]; [reflexivity|].
    cbn [PyStr.len]. rewrite Hc. rewrite IH; lia.
Qed.

Lemma clipped_length (n : nat) (s : string) :
  PyStr.len (OrchestrateExpert.clipped n s) <= n + 3.
Proof.
  unfold OrchestrateExpert.clipped.
  destruct (n <? PyStr.len s) eqn:Hlt.
  - rewrite len_append. pose proof (take_len_le s n).
    change (PyStr.len "...") with 3. lia.
  - apply Nat.ltb_ge in Hlt. lia.
Qed.

Lemma clipped_short (n : nat) (s : string) :
  PyStr.len s <= n -> OrchestrateExpert.clipped n s = s.
Proof.
  intros H. unfold OrchestrateExpert.clipped.
  apply Nat.ltb_ge in H. rewrite H. reflexivity.
Qed.

Lemma clipped_long (n : nat) (s : string) :
  n < PyStr.len s ->
  OrchestrateExpert.clipped n s = PyStr.take n s +:+ "...".
Proof.
  intros H. unfold OrchestrateExpert.clipped.
  apply Nat.ltb_lt in H. rewrite H. reflexivity.
Qed.

(** Characters, not bytes, are counted: a text of eight characters that
    takes twenty-four bytes is kept whole at a limit of eight, and cut after
    its third character at a limit of three. *)
Lemma clipped_counts_characters :
  let s := "日本語のテキスト"%string in
  String.length s = 24
  /\ PyStr.len s = 8
  /\ OrchestrateExpert.clipped 8 s = s
  /\ OrchestrateExpert.clipped 3 s = "日本語..."%string.
Proof. vm_compute. repeat split; reflexivity. Qed.

Lemma run_bind_returns {A B} (env : remote) (p : prog A) (f : A -> prog B)
    (w w' : world) (b : B) :
  run env (p ≫= f) w = (Returns b, w') ->
  exists a w1, run env p w = (Returns a, w1)
               /\ run env (f a) w1 = (Returns b, w').
Proof.
  rewrite run_bind. destruct (run env p w) as [[a|e|] w1]; intros H;
    try discriminate H.
  exists a, w1. auto.
Qed.

Lemma poll_until_done_returns (env : remote) (c : client)
    (prompt service_name task_id : string)
    (history : list OrchestrateExpert.history_entry) (fuel : nat) :
  forall (w w' : world) (result : string)
         (history' : list OrchestrateExpert.history_entry),
    run env
      (OrchestrateExpert.poll_until_done fuel history c prompt service_name
         task_id) w = (Returns (result, history'), w') ->
    history' =
      history ++
        [ {| OrchestrateExpert.entry_service := service_name;
             OrchestrateExpert.entry_prompt :=
               OrchestrateExpert.clipped 100 prompt;
             OrchestrateExpert.entry_response :=
               OrchestrateExpert.clipped 200 result |} ]
    /\ submitted (trace w') = submitted (trace w)
    /\ completed_with env (trace w) (trace w') c task_id result.
Proof.
  induction fuel as [|fuel IH]; intros w w' result history' H.
  - discriminate H.
  - cbn [OrchestrateExpert.poll_until_done] in H.
    rewrite run_bind, run_get_task in H.
    destruct (get_task_answer env (trace w) c task_id) as [r|e] eqn:Ho;
      [|discriminate H].
    cbv zeta in H.
    destruct (String.eqb_spec (reply_state r) "completed") as [Hs|_].
    { rewrite run_bind in H.
      destruct (first_artifact_text r) as [text|e] eqn:Ht;
        [|discriminate H].
      cbn in H. injection H as <- <- <-. split; [reflexivity|]. split.
      - cbn. rewrite submitted_app. cbn. apply app_nil_r.
      - exists [], [], r. rewrite app_nil_r. auto. }
    destruct (String.eqb (reply_state r) "failed"
              || String.eqb (reply_state r) "canceled"); [discriminate H|].
    rewrite run_bind in H. cbn [sleep run perform] in H.
    apply IH in H as (-> & Hs & Hc). split; [reflexivity|]. split.
    + rewrite Hs. cbn. rewrite !submitted_app. cbn. rewrite !app_nil_r.
      reflexivity.
    + cbn [log trace] in Hc.
      apply completed_with_base in Hc. apply completed_with_base in Hc.
      exact Hc.
Qed.

Lemma send_task_and_wait_returns (env : remote) (fuel : nat) (c : client)
    (prompt service_name : string)
    (history history' : list OrchestrateExpert.history_entry)
    (w w' : world) (result : string) :
  run env
    (OrchestrateExpert.send_task_and_wait fuel history c prompt service_name)
    w = (Returns (result, history'), w') ->
  history' =
    history ++
      [ {| OrchestrateExpert.entry_service := service_name;
           OrchestrateExpert.entry_prompt :=
             OrchestrateExpert.clipped 100 prompt;
           OrchestrateExpert.entry_response :=
             OrchestrateExpert.clipped 200 result |} ]
  /\ submitted (trace w') = submitted (trace w) ++ [(c, prompt)]
  /\ answered env (trace w) (trace w') c prompt result.
Proof.
  unfold OrchestrateExpert.send_task_and_wait. intros H.
  apply run_bind_returns in H as (task_id & w1 & Hs & H).
  rewrite run_send_task in Hs.
  destruct (send_task_answer env (trace w) c prompt) as [task_id'|e] eqn:Ho;
    [|discriminate Hs].
  injection Hs as -> <-.
  apply poll_until_done_returns in H as (-> & Hsub & Hc).
  split; [reflexivity|]. split.
  - rewrite Hsub. cbn. apply submitted_app.
  - cbn [log trace] in Hc.
    destruct Hc as (mid & rest & reply & Hf & Hc).
    exists [], (mid ++ EvGet c task_id :: rest), task_id.
    rewrite app_nil_r. cbn [app].
    split; [rewrite Hf, <- app_assoc; reflexivity|]. split; [exact Ho|].
    exists mid, rest, reply. auto.
Qed.

(** X20.  Every call of [send_task_and_wait] that returns has submitted its
    prompt once, returns the text the service answered for the task so
    created, found completed, and has added exactly one entry at the end of
    the conversation history, under the service name it was given.  The
    entry keeps the prompt and the answer whole when they have at most 100
    and 200 characters, and otherwise their first 100 and 200 characters
    followed by three dots: never more than 103 and 203 characters. *)
Theorem send_task_and_wait_records_one_entry (env : remote) (fuel : nat)
    (c : client) (prompt service_name : string)
    (history history' : list OrchestrateExpert.history_entry)
    (w w' : world) (result : string) :
  run env
    (OrchestrateExpert.send_task_and_wait fuel history c prompt service_name)
    w = (Returns (result, history'), w') ->
  exists entry,
    history' = history ++ [entry]
    /\ OrchestrateExpert.entry_service entry = service_name
    /\ PyStr.len (OrchestrateExpert.entry_prompt entry) <= 103
    /\ PyStr.len (OrchestrateExpert.entry_response entry) <= 203
    /\ (PyStr.len prompt <= 100 ->
        OrchestrateExpert.entry_prompt entry = prompt)
    /\ (PyStr.len result <= 200 ->
        OrchestrateExpert.entry_response entry = result)
    /\ (100 < PyStr.len prompt ->
        OrchestrateExpert.entry_prompt entry
        = PyStr.take 100 prompt +:+ "..."
        /\ PyStr.len (PyStr.take 100 prompt) = 100)
    /\ (200 < PyStr.len result ->
        OrchestrateExpert.entry_response entry
        = PyStr.take 200 result +:+ "..."
        /\ PyStr.len (PyStr.take 200 result) = 200)
    /\ submitted (trace w') = submitted (trace w) ++ [(c, prompt)]
    /\ answered env (trace w) (trace w') c prompt result.
Proof.
  intros H. apply send_task_and_wait_returns in H as (-> & Hsub & Ha).
  eexists. split; [reflexivity|]. cbn.
  split; [reflexivity|].
  split; [apply (clipped_length 100)|].
  split; [apply (clipped_length 200)|].
  split; [apply clipped_short|]. split; [apply clipped_short|].
  split; [|split; [|split; [exact Hsub|exact Ha]]]; intros Hlt;
    (split; [apply clipped_long; exact Hlt|apply take_len; lia]).
Qed.

(** A call whose prompt is longer than 100 characters and holds characters
    of several bytes, answered with a short text. *)
Lemma send_task_and_wait_records_one_entry_witness :
  let prompt := OrchestrateExpert.research_prompt "Qu'est-ce que l'étoile ?" in
  let env := x_and_y in
  let r :=
    run env
      (OrchestrateExpert.send_task_and_wait 1 [] llama_client prompt
         "LlamaIndex-Research") start in
  exists history',
    r = (Returns ("y"%string, history'), snd r)
    /\ exists entry,
         history' = [] ++ [entry]
         /\ OrchestrateExpert.entry_service entry
            = "LlamaIndex-Research"%string
         /\ PyStr.len (OrchestrateExpert.entry_prompt entry) <= 103
         /\ PyStr.len (OrchestrateExpert.entry_response entry) <= 203
         /\ (PyStr.len prompt <= 100 ->
             OrchestrateExpert.entry_prompt entry = prompt)
         /\ (PyStr.len "y" <= 200 ->
             OrchestrateExpert.entry_response entry = "y"%string)
         /\ (100 < PyStr.len prompt ->
             OrchestrateExpert.entry_prompt entry
             = PyStr.take 100 prompt +:+ "..."
             /\ PyStr.len (PyStr.take 100 prompt) = 100)
         /\ (200 < PyStr.len "y" ->
             OrchestrateExpert.entry_response entry
             = PyStr.take 200 "y" +:+ "..."
             /\ PyStr.len (PyStr.take 200 "y") = 200)
         /\ submitted (trace (snd r))
            = submitted (trace start) ++ [(llama_client, prompt)]
         /\ answered env (trace start) (trace (snd r)) llama_client prompt
              "y".
Proof.
  intros prompt env r.
  assert (E : exists history', r = (Returns ("y"%string, history'), snd r)).
  { eexists. vm_compute. reflexivity. }
  destruct E as [history' E]. exists history'. split; [exact E|].
  exact (send_task_and_wait_records_one_entry env 1 llama_client prompt
           "LlamaIndex-Research" [] history' start (snd r) "y" E).
Defined.

(** X21.  Every run of [expert_consultation_workflow] that returns has gone
    through its five phases, each a call of [send_task_and_wait] that
    returned: five submissions, alternating between LlamaIndex and Agno and
    starting with LlamaIndex, each answered by its service with the text the
    phase returned, and each prompt embedding the answers of earlier phases
    as the source lays out.  Five entries were added to the conversation
    history, one per phase, under the five service names in order, with the
    clipped prompts and answers.  The dict returned holds the answers of the
    phases: the final answer is that of the fourth phase, not of the
    last. *)
Theorem expert_workflow_returns_after_five_phases (env : remote)
    (fuel : nat) (history : list OrchestrateExpert.history_entry)
    (q : string) (w w' : world) (out : OrchestrateExpert.consultation) :
  run env (OrchestrateExpert.expert_consultation_workflow fuel history q) w
  = (Returns out, w') ->
  let research := OrchestrateExpert.research_analysis out in
  let strategy := OrchestrateExpert.communication_strategy out in
  let feedback := OrchestrateExpert.strategy_feedback_of out in
  let explanation := OrchestrateExpert.final_answer out in
  let validation := OrchestrateExpert.final_validation out in
  let prompt1 := OrchestrateExpert.research_prompt q in
  let prompt2 := OrchestrateExpert.comm_strategy_prompt q research in
  let prompt3 :=
    OrchestrateExpert.strategy_review_prompt q research strategy in
  let prompt4 :=
    OrchestrateExpert.final_explanation_prompt q research strategy
      feedback in
  let prompt5 := OrchestrateExpert.final_check_prompt q explanation in
  exists h1 w1 h2 w2 h3 w3 h4 w4,
    run env
      (OrchestrateExpert.send_task_and_wait fuel history llama_client
         prompt1 "LlamaIndex-Research") w
    = (Returns (research, h1), w1)
    /\ run env
         (OrchestrateExpert.send_task_and_wait fuel h1 agno_client prompt2
            "Agno-Strategy") w1
       = (Returns (strategy, h2), w2)
    /\ run env
         (OrchestrateExpert.send_task_and_wait fuel h2 llama_client prompt3
            "LlamaIndex-Review") w2
       = (Returns (feedback, h3), w3)
    /\ run env
         (OrchestrateExpert.send_task_and_wait fuel h3 agno_client prompt4
            "Agno-Final") w3
       = (Returns (explanation, h4), w4)
    /\ run env
         (OrchestrateExpert.send_task_and_wait fuel h4 llama_client prompt5
            "LlamaIndex-Validation") w4
       = (Returns (validation, OrchestrateExpert.conversation_history_of out),
          w')
    /\ answered env (trace w) (trace w1) llama_client prompt1 research
    /\ answered env (trace w1) (trace w2) agno_client prompt2 strategy
    /\ answered env (trace w2) (trace w3) llama_client prompt3 feedback
    /\ answered env (trace w3) (trace w4) agno_client prompt4 explanation
    /\ answered env (trace w4) (trace w') llama_client prompt5 validation
    /\ submitted (trace w') =
         submitted (trace w) ++
           [(llama_client, prompt1); (agno_client, prompt2);
            (llama_client, prompt3); (agno_client, prompt4);
            (llama_client, prompt5)]
    /\ exists entries,
         OrchestrateExpert.conversation_history_of out = history ++ entries
         /\ map OrchestrateExpert.entry_service entries
            = ["LlamaIndex-Research"; "Agno-Strategy"; "LlamaIndex-Review";
               "Agno-Final"; "LlamaIndex-Validation"]%string
         /\ map OrchestrateExpert.entry_prompt entries
            = map (OrchestrateExpert.clipped 100)
                [prompt1; prompt2; prompt3; prompt4; prompt5]
         /\ map OrchestrateExpert.entry_response entries
            = map (OrchestrateExpert.clipped 200)
                [research; strategy; feedback; explanation; validation].
Proof.
  unfold OrchestrateExpert.expert_consultation_workflow. intros H.
  apply run_bind_returns in H as ([r1 h1] & w1 & S1 & H).
  apply run_bind_returns in H as ([r2 h2] & w2 & S2 & H).
  apply run_bind_returns in H as ([r3 h3] & w3 & S3 & H).
  apply run_bind_returns in H as ([r4 h4] & w4 & S4 & H).
  apply run_bind_returns in H as ([r5 h5] & w5 & S5 & H).
  cbn in H. injection H as <- <-. cbn.
  exists h1, w1, h2, w2, h3, w3, h4, w4.
  split; [exact S1|]. split; [exact S2|]. split; [exact S3|].
  split; [exact S4|]. split; [exact S5|].
  apply send_task_and_wait_returns in S1 as (-> & T1 & A1).
  apply send_task_and_wait_returns in S2 as (-> & T2 & A2).
  apply send_task_and_wait_returns in S3 as (-> & T3 & A3).
  apply send_task_and_wait_returns in S4 as (-> & T4 & A4).
  apply send_task_and_wait_returns in S5 as (-> & T5 & A5).
  split; [exact A1|]. split; [exact A2|]. split; [exact A3|].
  split; [exact A4|]. split; [exact A5|]. split.
  - rewrite T5, T4, T3, T2, T1. rewrite <- !app_assoc. reflexivity.
  - eexists. split; [rewrite <- !app_assoc; reflexivity|].
    repeat split; reflexivity.
Qed.

(** A run in which the five answers differ: "y1", "x2", "y3", "x4" and
    "y5". *)
Lemma expert_workflow_returns_after_five_phases_witness :
  let q := "Q"%string in
  let env := answers_by_round in
  let w := start in
  let r :=
    run env (OrchestrateExpert.expert_consultation_workflow 1 [] q) w in
  let w' := snd r in
  exists out,
    r = (Returns out, w')
    /\ OrchestrateExpert.final_answer out = "x4"%string
    /\ OrchestrateExpert.final_validation out = "y5"%string
    /\ let research := OrchestrateExpert.research_analysis out in
       let strategy := OrchestrateExpert.communication_strategy out in
       let feedback := OrchestrateExpert.strategy_feedback_of out in
       let explanation := OrchestrateExpert.final_answer out in
       let validation := OrchestrateExpert.final_validation out in
       let prompt1 := OrchestrateExpert.research_prompt q in
       let prompt2 := OrchestrateExpert.comm_strategy_prompt q research in
       let prompt3 :=
         OrchestrateExpert.strategy_review_prompt q research strategy in
       let prompt4 :=
         OrchestrateExpert.final_explanation_prompt q research strategy
           feedback in
       let prompt5 := OrchestrateExpert.final_check_prompt q explanation in
       exists h1 w1 h2 w2 h3 w3 h4 w4,
         run env
           (OrchestrateExpert.send_task_and_wait 1 [] llama_client
              prompt1 "LlamaIndex-Research") w
         = (Returns (research, h1), w1)
         /\ run env
              (OrchestrateExpert.send_task_and_wait 1 h1 agno_client prompt2
                 "Agno-Strategy") w1
            = (Returns (strategy, h2), w2)
         /\ run env
              (OrchestrateExpert.send_task_and_wait 1 h2 llama_client
                 prompt3 "LlamaIndex-Review") w2
            = (Returns (feedback, h3), w3)
         /\ run env
              (OrchestrateExpert.send_task_and_wait 1 h3 agno_client prompt4
                 "Agno-Final") w3
            = (Returns (explanation, h4), w4)
         /\ run env
              (OrchestrateExpert.send_task_and_wait 1 h4 llama_client
                 prompt5 "LlamaIndex-Validation") w4
            = (Returns
                 (validation, OrchestrateExpert.conversation_history_of out),
               w')
         /\ answered env (trace w) (trace w1) llama_client prompt1 research
         /\ answered env (trace w1) (trace w2) agno_client prompt2 strategy
         /\ answered env (trace w2) (trace w3) llama_client prompt3 feedback
         /\ answered env (trace w3) (trace w4) agno_client prompt4
              explanation
         /\ answered env (trace w4) (trace w') llama_client prompt5
              validation
         /\ submitted (trace w') =
              submitted (trace w) ++
                [(llama_client, prompt1); (agno_client, prompt2);
                 (llama_client, prompt3); (agno_client, prompt4);
                 (llama_client, prompt5)]
         /\ exists entries,
              OrchestrateExpert.conversation_history_of out = [] ++ entries
              /\ map OrchestrateExpert.entry_service entries
                 = ["LlamaIndex-Research"; "Agno-Strategy";
                    "LlamaIndex-Review"; "Agno-Final";
                    "LlamaIndex-Validation"]%string
              /\ map OrchestrateExpert.entry_prompt entries
                 = map (OrchestrateExpert.clipped 100)
                     [prompt1; prompt2; prompt3; prompt4; prompt5]
              /\ map OrchestrateExpert.entry_response entries
                 = map (OrchestrateExpert.clipped 200)
                     [research; strategy; feedback; explanation; validation].
Proof.
  intros q env w r w'.
  assert (E : exists out, r = (Returns out, w')).
  { eexists. vm_compute. reflexivity. }
  destruct E as [out E]. exists out. split; [exact E|].
  assert (Hout : OrchestrateExpert.final_answer out = "x4"%string
                 /\ OrchestrateExpert.final_validation out = "y5"%string).
  { assert (Hr : fst r = Returns out) by (rewrite E; reflexivity).
    vm_compute in Hr. injection Hr as <-. split; reflexivity. }
  split; [exact (proj1 Hout)|]. split; [exact (proj2 Hout)|].
  exact (expert_workflow_returns_after_five_phases env 1 [] q w w' out E).
Defined.
